(** * saas-radar: the signal consolidation pipeline

    A shallow embedding of [scripts/lib/dedupe.py], [scripts/lib/idea_cluster.py]
    and [scripts/lib/score.py], with the properties of clustering, scoring,
    sorting and near-duplicate suppression stated over it.

    Conventions of the embedding.
    - A Python [str] is a [string]; the character classes of [re] and
      [str.lower] are the ones Python has on code points below 128 (the texts
      are taken to be ASCII).
    - A Python [float] is a binary64 [float] of the kernel, with the kernel's
      IEEE 754 operations; a Python [int] is a [Z].
    - A Python [set] of strings is a [gset string]; a list indexed and updated
      in place is a [list] with stdpp's lookup and insert.
    - A function that can raise returns an [option]; [None] is the exception.
    - A [while] loop takes a fuel argument; the theorems show that the fuel
      the callers pass is never exhausted. *)

From Stdlib Require Import ZArith String Ascii List Floats Uint63 Lia.
From Stdlib Require Import Relations Relation_Operators Operators_Properties.
From Stdlib Require Import Sorting.Permutation Sorting.Sorted.
From stdpp Require Import gmap strings list.

Set Warnings "-inexact-float".
Open Scope string_scope.
Open Scope list_scope.
Open Scope nat_scope.

(* ===================================================================== *)
(** ** Python primitives *)
(* ===================================================================== *)

Module Py.

(** [float(n)] for an [int] [n]; exact below [2^53], which every count and
    subscore of the pipeline is. *)
Definition float_of_Z (z : Z) : float :=
  if (z <? 0)%Z
  then PrimFloat.opp (PrimFloat.of_uint63 (Uint63.of_Z (- z)))
  else PrimFloat.of_uint63 (Uint63.of_Z z).

Definition float_of_nat (n : nat) : float := float_of_Z (Z.of_nat n).

(** [int(x)] for a [float] [x]: truncation towards zero; [ValueError] on a
    nan and [OverflowError] on an infinity. *)
Definition int_of_float (x : float) : option Z :=
  match Prim2SF x with
  | S754_zero _ => Some 0%Z
  | S754_finite s m e =>
      let a := if (0 <=? e)%Z then Z.shiftl (Z.pos m) e
               else Z.shiftr (Z.pos m) (- e) in
      Some (if s then (- a)%Z else a)
  | S754_infinity _ => None
  | S754_nan => None
  end.

(** [math.isfinite(x)] *)
Definition is_finite (x : float) : bool :=
  match Prim2SF x with
  | S754_zero _ | S754_finite _ _ _ => true
  | S754_infinity _ | S754_nan => false
  end.

(** Character classes of [str] and [re] below code point 128. *)
Definition code (c : ascii) : nat := nat_of_ascii c.

Definition is_upper (c : ascii) : bool := (65 <=? code c) && (code c <=? 90).
Definition is_lower (c : ascii) : bool := (97 <=? code c) && (code c <=? 122).
Definition is_digit (c : ascii) : bool := (48 <=? code c) && (code c <=? 57).

(** [\w]: letters, digits and the underscore. *)
Definition is_word (c : ascii) : bool :=
  is_upper c || is_lower c || is_digit c || (code c =? 95).

(** [\s] and [str.isspace]: tab, newline, vertical tab, form feed, carriage
    return, the four separators 28 to 31 and the space. *)
Definition is_space (c : ascii) : bool :=
  ((9 <=? code c) && (code c <=? 13)) ||
  ((28 <=? code c) && (code c <=? 32)).

Definition lower_char (c : ascii) : ascii :=
  if is_upper c then ascii_of_nat (code c + 32) else c.

Fixpoint map_chars (f : ascii -> ascii) (s : string) : string :=
  match s with
  | EmptyString => EmptyString
  | String c s' => String (f c) (map_chars f s')
  end.

(** [s.lower()] *)
Definition lower (s : string) : string := map_chars lower_char s.

(** [s.lstrip()], [s.rstrip()], [s.strip()] *)
Fixpoint lstrip (s : string) : string :=
  match s with
  | EmptyString => EmptyString
  | String c s' => if is_space c then lstrip s' else s
  end.

Fixpoint rstrip (s : string) : string :=
  match s with
  | EmptyString => EmptyString
  | String c s' =>
      match rstrip s' with
      | EmptyString => if is_space c then EmptyString else String c EmptyString
      | r => String c r
      end
  end.

Definition strip (s : string) : string := rstrip (lstrip s).

(** [s.replace("-", "")] *)
Fixpoint remove_dashes (s : string) : string :=
  match s with
  | EmptyString => EmptyString
  | String c s' =>
      if (code c =? 45) then remove_dashes s' else String c (remove_dashes s')
  end.

(** The digits of an [int] literal after the sign: groups of decimal digits
    separated by single underscores.  [acc] is the value read so far and
    [after_digit] says whether the previous character was a digit. *)
Fixpoint int_digits (after_digit : bool) (acc : Z) (s : string) : option Z :=
  match s with
  | EmptyString => if after_digit then Some acc else None
  | String c s' =>
      if is_digit c
      then int_digits true (10 * acc + Z.of_nat (code c - 48))%Z s'
      else if (code c =? 95) && after_digit
           then match s' with
                | EmptyString => None
                | String d _ => if is_digit d then int_digits false acc s' else None
                end
           else None
  end.

(** [int(s)] for a [str] [s], base 10: surrounding whitespace is ignored, one
    sign is allowed; anything else is a [ValueError]. *)
Definition int_of_str (s : string) : option Z :=
  match strip s with
  | EmptyString => None
  | String c s' =>
      if (code c =? 43) then int_digits false 0 s'
      else if (code c =? 45) then Z.opp <$> int_digits false 0 s'
      else int_digits false 0 (String c s')
  end.

(** [min(l)] and [max(l)] of a non-empty list of floats: the first element
    that no later one is strictly below (above). *)
Definition min_float (x : float) (l : list float) : float :=
  fold_left (fun m v => if PrimFloat.ltb v m then v else m) l x.

Definition max_float (x : float) (l : list float) : float :=
  fold_left (fun m v => if PrimFloat.ltb m v then v else m) l x.

(** [enumerate(l)] *)
Definition enumerate {A} (l : list A) : list (nat * A) :=
  combine (seq 0 (length l)) l.

End Py.

(* ===================================================================== *)
(** ** schema.py *)
(* ===================================================================== *)

Module Schema.

Record Engagement := mkEngagement {
  eng_score : option Z;
  num_comments : option Z;
  upvote_ratio : option float;
  likes : option Z;
  reposts : option Z;
  replies : option Z;
  quotes : option Z
}.

Record Comment := mkComment {
  c_score : Z;
  c_date : option string;
  c_author : string;
  c_excerpt : string;
  c_url : string
}.

Record SubScores := mkSubScores {
  idea_quality : Z;
  engagement_sub : Z;
  market_signal_sub : Z;
  growth : Z;
  recency : Z
}.

Record SaaSIdeaItem := mkItem {
  id : string;
  title : string;
  url : string;
  source : string;
  subreddit : string;
  author_handle : string;
  date : option string;
  date_confidence : string;
  signal_type : string;
  idea_summary : string;
  target_audience : string;
  subreddit_growth : float;
  market_signal : Z;
  cluster_id : Z;
  engagement : option Engagement;
  top_comments : list Comment;
  comment_insights : list string;
  relevance : float;
  why_relevant : string;
  subs : SubScores;
  score : Z
}.

(** The dataclass defaults. *)
Definition default_engagement : Engagement :=
  mkEngagement None None None None None None None.

Definition default_subs : SubScores := mkSubScores 0 0 0 0 0.

Definition new_item (id title url source : string) : SaaSIdeaItem :=
  mkItem id title url source "" "" None "low" "problem" "" ""
         1%float 25 (-1) None [] [] 0.5%float "" default_subs 0.

(** Attribute assignments [item.f = v]. *)
Definition set_cluster (cid ms : Z) (it : SaaSIdeaItem) : SaaSIdeaItem :=
  mkItem (id it) (title it) (url it) (source it) (subreddit it)
         (author_handle it) (date it) (date_confidence it) (signal_type it)
         (idea_summary it) (target_audience it) (subreddit_growth it)
         ms cid (engagement it) (top_comments it) (comment_insights it)
         (relevance it) (why_relevant it) (subs it) (score it).

Definition set_scores (sb : SubScores) (sc : Z) (it : SaaSIdeaItem) : SaaSIdeaItem :=
  mkItem (id it) (title it) (url it) (source it) (subreddit it)
         (author_handle it) (date it) (date_confidence it) (signal_type it)
         (idea_summary it) (target_audience it) (subreddit_growth it)
         (market_signal it) (cluster_id it) (engagement it) (top_comments it)
         (comment_insights it) (relevance it) (why_relevant it) sb sc.

End Schema.

(* ===================================================================== *)
(** ** dedupe.py *)
(* ===================================================================== *)

Module Dedupe.
Import Py Schema.

(** [re.sub(r'[^\w\s]', ' ', text)] *)
Definition sub_nonword (s : string) : string :=
  map_chars (fun c => if is_word c || is_space c then c else " "%char) s.

(** [re.sub(r'\s+', ' ', text)]; [in_run] says whether the previous character
    belongs to the run of whitespace being replaced. *)
Fixpoint sub_spaces (in_run : bool) (s : string) : string :=
  match s with
  | EmptyString => EmptyString
  | String c s' =>
      if is_space c
      then if in_run then sub_spaces true s'
           else String " "%char (sub_spaces true s')
      else String c (sub_spaces false s')
  end.

Definition normalize_text (text : string) : string :=
  strip (sub_spaces false (sub_nonword (lower text))).

(** [{text[i:i+n] for i in range(len(text) - n + 1)}], or [{text}] for a
    text shorter than [n]. *)
Definition get_ngrams_n (n : nat) (text : string) : gset string :=
  let text := normalize_text text in
  if String.length text <? n then {[ text ]}
  else list_to_set
         (map (fun i => substring i n text) (seq 0 (String.length text - n + 1))).

Definition get_ngrams (text : string) : gset string := get_ngrams_n 3 text.

Definition jaccard_similarity (set1 set2 : gset string) : float :=
  if bool_decide (set1 = ∅) || bool_decide (set2 = ∅) then 0%float
  else
    let intersection := size (set1 ∩ set2) in
    let union := size (set1 ∪ set2) in
    if 0 <? union
    then PrimFloat.div (float_of_nat intersection) (float_of_nat union)
    else 0%float.

(** The test [jaccard_similarity(ngrams[i], ngrams[j]) >= threshold]. *)
Definition similar (threshold : float) (g1 g2 : gset string) : bool :=
  PrimFloat.leb threshold (jaccard_similarity g1 g2).

(** The inner loop [for j in range(i + 1, n)] of [find_duplicates], over the
    n-grams of the items after [i], the first of which has index [j]. *)
Fixpoint dup_row (threshold : float) (i : nat) (gi : gset string)
    (j : nat) (rest : list (gset string)) : list (nat * nat) :=
  match rest with
  | [] => []
  | gj :: rest' =>
      (if similar threshold gi gj then [(i, j)] else [])
        ++ dup_row threshold i gi (S j) rest'
  end.

(** The outer loop [for i in range(len(items))], over the n-grams from index
    [i] on. *)
Fixpoint dup_rows (threshold : float) (i : nat) (ngrams : list (gset string))
    : list (nat * nat) :=
  match ngrams with
  | [] => []
  | gi :: rest => dup_row threshold i gi (S i) rest ++ dup_rows threshold (S i) rest
  end.

Definition find_duplicates (items : list SaaSIdeaItem) (threshold : float)
    : list (nat * nat) :=
  let ngrams := map (fun item => get_ngrams (title item)) items in
  dup_rows threshold 0 ngrams.

(** The loop of [dedupe_saas] that fills [to_remove]. *)
Definition mark_removed (items : list SaaSIdeaItem) (to_remove : gset nat)
    (p : nat * nat) : gset nat :=
  let '(i, j) := p in
  match items !! i, items !! j with
  | Some a, Some b =>
      if (score b <=? score a)%Z then {[ j ]} ∪ to_remove else {[ i ]} ∪ to_remove
  | _, _ => to_remove
  end.

Definition removal_set (items : list SaaSIdeaItem) (threshold : float) : gset nat :=
  fold_left (mark_removed items) (find_duplicates items threshold) ∅.

(** [(idx, item) for idx, item in enumerate(items) if idx not in to_remove] *)
Definition survivors (items : list SaaSIdeaItem) (to_remove : gset nat)
    : list (nat * SaaSIdeaItem) :=
  filter (fun p => p.1 ∉ to_remove) (enumerate items).

Definition dedupe_saas (items : list SaaSIdeaItem) (threshold : float)
    : list SaaSIdeaItem :=
  if length items <=? 1 then items
  else
    let to_remove := removal_set items threshold in
    map snd (survivors items to_remove).

(** *** Relations between the items of a list, for the statements *)

(** The items at [i] and [j] have titles whose n-gram similarity reaches the
    threshold. *)
Definition similar_titles (items : list SaaSIdeaItem) (threshold : float)
    (i j : nat) : Prop :=
  exists x y, items !! i = Some x /\ items !! j = Some y /\
    similar threshold (get_ngrams (title x)) (get_ngrams (title y)) = true.

(** [j] beats [i]: the two are a duplicate pair, and [i] has the lower score,
    or the same score and the later position. *)
Definition beaten_by (items : list SaaSIdeaItem) (threshold : float)
    (i j : nat) : Prop :=
  exists x y, items !! i = Some x /\ items !! j = Some y /\
    similar threshold (get_ngrams (title x)) (get_ngrams (title y)) = true /\
    ((j < i /\ (score x <= score y)%Z) \/ (i < j /\ (score x < score y)%Z)).

(** The items at [i] and [j] are in one transitively connected cluster of
    duplicate pairs. *)
Definition same_dup_cluster (items : list SaaSIdeaItem) (threshold : float)
    : nat -> nat -> Prop :=
  clos_refl_sym_trans nat (similar_titles items threshold).

(** The index that one iteration of the loop of [dedupe_saas] marks. *)
Definition loser (items : list SaaSIdeaItem) (p : nat * nat) : option nat :=
  match items !! p.1, items !! p.2 with
  | Some a, Some b => Some (if (score b <=? score a)%Z then p.2 else p.1)
  | _, _ => None
  end.

End Dedupe.

(* ===================================================================== *)
(** ** idea_cluster.py *)
(* ===================================================================== *)

Module IdeaCluster.
Import Py Schema.

(** [idea_cluster.py] repeats [normalize_text], [get_ngrams] and
    [jaccard_similarity] of [dedupe.py] line for line. *)
Definition normalize_text := Dedupe.normalize_text.
Definition get_ngrams := Dedupe.get_ngrams.
Definition jaccard_similarity := Dedupe.jaccard_similarity.
Definition similar := Dedupe.similar.

(** [parent] and [rank] of the union-find, threaded through the calls that
    update them in place. *)
Definition uf : Type := list nat * list nat.

(** [_find_root(parent, i)]: the loop body halves the path of [i]; [None] is
    an index out of range or the fuel running out. *)
Fixpoint _find_root (fuel : nat) (parent : list nat) (i : nat)
    : option (list nat * nat) :=
  match fuel with
  | O => None
  | S fuel' =>
      p ← parent !! i;
      if p =? i then Some (parent, i)
      else
        g ← parent !! p;
        let parent' := <[i := g]> parent in
        _find_root fuel' parent' g
  end.

(** [_union(parent, rank, a, b)] *)
Definition _union (fuel : nat) (st : uf) (a b : nat) : option uf :=
  let '(parent, rank) := st in
  '(parent, ra) ← _find_root fuel parent a;
  '(parent, rb) ← _find_root fuel parent b;
  if ra =? rb then Some (parent, rank)
  else
    ka ← rank !! ra;
    kb ← rank !! rb;
    let '(ra, rb) := if ka <? kb then (rb, ra) else (ra, rb) in
    let parent := <[rb := ra]> parent in
    ka ← rank !! ra;
    kb ← rank !! rb;
    Some (parent, if ka =? kb then <[ra := ka + 1]> rank else rank).

(** The loops [for i in range(n): for j in range(i + 1, n)] of
    [cluster_ideas], written as in [Dedupe.dup_rows]. *)
Fixpoint union_row (fuel : nat) (threshold : float) (i : nat) (gi : gset string)
    (j : nat) (rest : list (gset string)) (st : uf) : option uf :=
  match rest with
  | [] => Some st
  | gj :: rest' =>
      st' ← (if similar threshold gi gj then _union fuel st i j else Some st);
      union_row fuel threshold i gi (S j) rest' st'
  end.

Fixpoint union_rows (fuel : nat) (threshold : float) (i : nat)
    (ngrams : list (gset string)) (st : uf) : option uf :=
  match ngrams with
  | [] => Some st
  | gi :: rest =>
      st' ← union_row fuel threshold i gi (S i) rest st;
      union_rows fuel threshold (S i) rest st'
  end.

(** The dict [clusters], in insertion order: [clusters[root].append(i)] after
    [clusters[root] = []] for a new root. *)
Fixpoint clusters_append (root i : nat) (clusters : list (nat * list nat))
    : list (nat * list nat) :=
  match clusters with
  | [] => [(root, [i])]
  | (r, members) :: clusters' =>
      if r =? root then (r, members ++ [i]) :: clusters'
      else (r, members) :: clusters_append root i clusters'
  end.

(** The loop [for i in range(n)] that fills [clusters], over the indices
    [is]. *)
Fixpoint sweep (fuel : nat) (parent : list nat) (indices : list nat)
    (clusters : list (nat * list nat)) : option (list (nat * list nat)) :=
  match indices with
  | [] => Some clusters
  | i :: indices' =>
      '(parent, root) ← _find_root fuel parent i;
      sweep fuel parent indices' (clusters_append root i clusters)
  end.

(** [items[idx].cluster_id = cluster_id; items[idx].market_signal = ...] for
    [idx] in [members]. *)
Definition assign_members (cluster_id : nat) (members : list nat)
    (items : list SaaSIdeaItem) : list SaaSIdeaItem :=
  let cluster_size := length members in
  let market_signal := Z.min (Z.of_nat cluster_size * 25) 100 in
  fold_left (fun items idx =>
               alter (set_cluster (Z.of_nat cluster_id) market_signal) idx items)
            members items.

Definition assign_clusters (clusters : list (nat * list nat))
    (items : list SaaSIdeaItem) : list SaaSIdeaItem :=
  fold_left (fun items c => assign_members c.1 (c.2).2 items)
            (enumerate clusters) items.

(** [cluster_ideas(items, threshold)].  The fuel of every [_find_root] is the
    number of items. *)
Definition cluster_ideas (items : list SaaSIdeaItem) (threshold : float)
    : option (list SaaSIdeaItem) :=
  if length items <=? 1 then Some (map (set_cluster 0 25) items)
  else
    let n := length items in
    let ngrams := map (fun item => get_ngrams (idea_summary item)) items in
    let parent := seq 0 n in
    let rank := replicate n 0 in
    '(parent, rank) ← union_rows n threshold 0 ngrams (parent, rank);
    clusters ← sweep n parent (seq 0 n) [];
    Some (assign_clusters clusters items).

(** *** The forest of [parent], for the statements *)

(** [r] is reached from [i] along [parent]. *)
Inductive reaches (parent : list nat) : nat -> nat -> Prop :=
  | reaches_here i : reaches parent i i
  | reaches_up i p r :
      parent !! i = Some p -> p <> i -> reaches parent p r -> reaches parent i r.

(** [r] is the representative of the set of [i]. *)
Definition is_root_of (parent : list nat) (i r : nat) : Prop :=
  reaches parent i r /\ parent !! r = Some r.

(** [i] and [j] are in one set. *)
Definition same_set (parent : list nat) (i j : nat) : Prop :=
  exists r, is_root_of parent i r /\ is_root_of parent j r.

(** The loop of [_find_root] without the assignment to [parent[i]]. *)
Fixpoint chase (fuel : nat) (parent : list nat) (i : nat) : nat :=
  match fuel with
  | O => i
  | S fuel' =>
      match parent !! i with
      | Some p => if p =? i then i else chase fuel' parent p
      | None => i
      end
  end.

(** What the loops keep true of [parent] and [rank] over [n] items: both have
    [n] entries, every parent is an index, the rank grows strictly from a
    node to its parent, and every rank below a rank in use is in use. *)
Record uf_ok (n : nat) (parent rank : list nat) : Prop := mk_uf_ok {
  uf_parent_length : length parent = n;
  uf_rank_length : length rank = n;
  uf_parent_bound : forall i p, parent !! i = Some p -> p < n;
  uf_rank_grows : forall i p ri rp,
      parent !! i = Some p -> p <> i ->
      rank !! i = Some ri -> rank !! p = Some rp -> ri < rp;
  uf_rank_closed : forall i ri k,
      rank !! i = Some ri -> k < ri -> exists j, rank !! j = Some k
}.

(** The sets of [parent] are the classes, over the indices below [n], of the
    closure of the pairs [ps]. *)
Definition sets_are (n : nat) (parent : list nat) (ps : list (nat * nat)) : Prop :=
  forall x y, same_set parent x y <->
    x < n /\ y < n /\ clos_refl_sym_trans nat (fun u v => In (u, v) ps) x y.

(** The items at [i] and [j] have idea summaries whose n-gram similarity
    reaches the threshold. *)
Definition similar_summaries (items : list SaaSIdeaItem) (threshold : float)
    (i j : nat) : Prop :=
  exists x y, items !! i = Some x /\ items !! j = Some y /\
    similar threshold (get_ngrams (idea_summary x))
                      (get_ngrams (idea_summary y)) = true.

(** [i] and [j] are connected in the transitive closure of the similarity. *)
Definition connected (items : list SaaSIdeaItem) (threshold : float)
    : nat -> nat -> Prop :=
  clos_refl_sym_trans nat (similar_summaries items threshold).

(** The pairs [(i, j)] at which the loops of [cluster_ideas] call [_union]. *)
Definition similar_pairs (items : list SaaSIdeaItem) (threshold : float)
    : list (nat * nat) :=
  Dedupe.dup_rows threshold 0
    (map (fun item => get_ngrams (idea_summary item)) items).

End IdeaCluster.

(* ===================================================================== *)
(** ** score.py *)
(* ===================================================================== *)

Module Score.
Import Py Schema.

Definition WEIGHT_IDEA_QUALITY : float := 0.30.
Definition WEIGHT_ENGAGEMENT : float := 0.25.
Definition WEIGHT_MARKET_SIGNAL : float := 0.20.
Definition WEIGHT_GROWTH : float := 0.15.
Definition WEIGHT_RECENCY : float := 0.10.

Definition SIGNAL_TYPE_SCORES : gmap string Z :=
  <["wish" := 90%Z]> (<["problem" := 80%Z]> (<["feature_gap" := 75%Z]>
    (<["building" := 70%Z]> (<["workflow" := 65%Z]> ∅)))).

Definition UNKNOWN_ENGAGEMENT_PENALTY : Z := 10.
Definition LOW_DATE_CONFIDENCE_PENALTY : Z := 10.
Definition DEFAULT_ENGAGEMENT : Z := 35.

(** [normalize_to_100(values, default)].  The literal [50] of the source is an
    [int]; it is read back through [int(...)] only, which gives 50 for the
    float as well. *)
Definition normalize_to_100 (values : list (option float)) (default : float)
    : list (option float) :=
  let valid := omap (fun v => v) values in
  match valid with
  | [] => map (fun v => Some (match v with None => default | Some _ => 50%float end))
              values
  | v0 :: rest =>
      let min_val := min_float v0 rest in
      let max_val := max_float v0 rest in
      let range_val := PrimFloat.sub max_val min_val in
      if PrimFloat.eqb range_val 0
      then map (fun v => Some 50%float) values
      else map (fun v =>
                  match v with
                  | None => None
                  | Some v =>
                      Some (PrimFloat.mul (PrimFloat.div (PrimFloat.sub v min_val)
                                                         range_val) 100)
                  end) values
  end.

Definition _compute_growth_score (acceleration : float) : Z :=
  if PrimFloat.leb 3.0 acceleration then 100
  else if PrimFloat.leb 2.0 acceleration then 80
  else if PrimFloat.leb 1.5 acceleration then 60
  else if PrimFloat.leb 1.2 acceleration then 40
  else if PrimFloat.leb 1.0 acceleration then 20
  else 0.

Definition _compute_idea_quality (item : SaaSIdeaItem) : Z :=
  let base := default 65%Z (SIGNAL_TYPE_SCORES !! signal_type item) in
  if negb (String.eqb (target_audience item) "")
     && (10 <? String.length (target_audience item))
  then Z.min (base + 10) 100
  else base.

(** [x or 0.5] for an optional float: [None] and both zeros are false. *)
Definition or_half (x : option float) : float :=
  match x with
  | None => 0.5%float
  | Some r => if PrimFloat.eqb r 0 then 0.5%float else r
  end.

Section Collaborators.

(** [math.log1p] at a non-negative [int], from the C library. *)
Variable log1p : Z -> float.

(** [dates.recency_score(date, max_days)]; [dates.py] is an external
    collaborator of the scorer, which uses its result as an opaque [int]. *)
Variable recency_score : option string -> Z -> Z.

Definition log1p_safe (x : option Z) : float :=
  match x with
  | None => 0%float
  | Some x => if (x <? 0)%Z then 0%float else log1p x
  end.

Definition compute_reddit_engagement_raw (engagement : option Engagement)
    : option float :=
  match engagement with
  | None => None
  | Some engagement =>
      match eng_score engagement, num_comments engagement with
      | None, None => None
      | _, _ =>
          let score := log1p_safe (eng_score engagement) in
          let comments := log1p_safe (num_comments engagement) in
          let ratio := (or_half (upvote_ratio engagement) * 10)%float in
          Some (0.55 * score + 0.40 * comments + 0.05 * ratio)%float
      end
  end.

Definition compute_x_engagement_raw (engagement : option Engagement)
    : option float :=
  match engagement with
  | None => None
  | Some engagement =>
      match likes engagement, reposts engagement with
      | None, None => None
      | _, _ =>
          let likes := log1p_safe (likes engagement) in
          let reposts := log1p_safe (reposts engagement) in
          let replies := log1p_safe (replies engagement) in
          let quotes := log1p_safe (quotes engagement) in
          Some (0.55 * likes + 0.25 * reposts + 0.15 * replies + 0.05 * quotes)%float
      end
  end.

(** The raw engagement of one item: the first loop of [score_saas_items]. *)
Definition engagement_raw (item : SaaSIdeaItem) : option float :=
  if String.eqb (source item) "reddit"
  then compute_reddit_engagement_raw (engagement item)
  else compute_x_engagement_raw (engagement item).

(** The weighted composite before the penalties. *)
Definition weighted (sb : SubScores) : float :=
  (WEIGHT_IDEA_QUALITY * float_of_Z (idea_quality sb) +
   WEIGHT_ENGAGEMENT * float_of_Z (engagement_sub sb) +
   WEIGHT_MARKET_SIGNAL * float_of_Z (market_signal_sub sb) +
   WEIGHT_GROWTH * float_of_Z (growth sb) +
   WEIGHT_RECENCY * float_of_Z (recency sb))%float.

(** The two penalties, in the order of the source. *)
Definition penalized (raw_is_none low_confidence : bool) (overall : float) : float :=
  let overall :=
    if raw_is_none
    then (overall - float_of_Z UNKNOWN_ENGAGEMENT_PENALTY)%float else overall in
  if low_confidence
  then (overall - float_of_Z LOW_DATE_CONFIDENCE_PENALTY)%float else overall.

(** [max(0, min(100, int(overall)))] *)
Definition clamp_int (overall : float) : option Z :=
  n ← int_of_float overall; Some (Z.max 0 (Z.min 100 n)).

(** The body of the second loop of [score_saas_items] for one item, with
    [eng_raw[i]] and [eng_normalized[i]]. *)
Definition score_item (item : SaaSIdeaItem) (raw norm : option float)
    : option SaaSIdeaItem :=
  let idea_quality := _compute_idea_quality item in
  eng_score ← match norm with
              | Some v => int_of_float v
              | None => Some DEFAULT_ENGAGEMENT
              end;
  let market_signal := market_signal item in
  let growth := _compute_growth_score (subreddit_growth item) in
  let recency := recency_score (date item) 180 in
  let sb := mkSubScores idea_quality eng_score market_signal growth recency in
  let overall := weighted sb in
  let overall :=
    penalized (bool_decide (raw = None))
              (String.eqb (date_confidence item) "low") overall in
  sc ← clamp_int overall;
  Some (set_scores sb sc item).

Fixpoint score_loop (items : list SaaSIdeaItem)
    (eng_raw eng_normalized : list (option float)) : option (list SaaSIdeaItem) :=
  match items, eng_raw, eng_normalized with
  | item :: items', raw :: eng_raw', norm :: eng_normalized' =>
      item' ← score_item item raw norm;
      rest ← score_loop items' eng_raw' eng_normalized';
      Some (item' :: rest)
  | [], _, _ => Some []
  | _, _, _ => None
  end.

Definition score_saas_items (items : list SaaSIdeaItem)
    : option (list SaaSIdeaItem) :=
  match items with
  | [] => Some items
  | _ =>
      let eng_raw := map engagement_raw items in
      let eng_normalized := normalize_to_100 eng_raw 50 in
      score_loop items eng_raw eng_normalized
  end.

End Collaborators.

(** The key of [sort_items]; [None] is the [ValueError] of [int]. *)
Definition sort_key (item : SaaSIdeaItem) : option (Z * Z * Z * string) :=
  let score := (- score item)%Z in
  let date := match date item with
              | None => "0000-00-00"
              | Some d => if String.eqb d "" then "0000-00-00" else d
              end in
  n ← int_of_str (remove_dashes date);
  let date_key := (- n)%Z in
  let source_priority := if String.eqb (source item) "reddit" then 0%Z else 1%Z in
  Some (score, date_key, source_priority, title item).

(** [k1 < k2] on the key tuples. *)
Definition key_ltb (k1 k2 : Z * Z * Z * string) : bool :=
  let '(s1, d1, p1, t1) := k1 in
  let '(s2, d2, p2, t2) := k2 in
  if negb (s1 =? s2)%Z then (s1 <? s2)%Z
  else if negb (d1 =? d2)%Z then (d1 <? d2)%Z
  else if negb (p1 =? p2)%Z then (p1 <? p2)%Z
  else String.ltb t1 t2.

(** [k1 <= k2] on the key tuples: [k2] is not below [k1]. *)
Definition key_le (k1 k2 : Z * Z * Z * string) : Prop := key_ltb k2 k1 = false.

(** [sorted] is stable, and a stable sort has one result: the insertion sort
    that keeps an element before the later ones it is not above. *)
Fixpoint insert_keyed {A} (x : (Z * Z * Z * string) * A)
    (l : list ((Z * Z * Z * string) * A)) : list ((Z * Z * Z * string) * A) :=
  match l with
  | [] => [x]
  | y :: l' => if key_ltb y.1 x.1 then y :: insert_keyed x l' else x :: y :: l'
  end.

Definition sorted_keyed {A} (l : list ((Z * Z * Z * string) * A))
    : list ((Z * Z * Z * string) * A) :=
  fold_right insert_keyed [] l.

Definition sort_items (items : list SaaSIdeaItem) : option (list SaaSIdeaItem) :=
  keys ← mapM sort_key items;
  Some (map snd (sorted_keyed (combine keys items))).

End Score.

(* ===================================================================== *)
(** ** openai_reddit.py and xai_x.py: the dates the parsers let through *)
(* ===================================================================== *)

Module Parsers.
Import Py.

(** [re.match(r'^\d{4}-\d{2}-\d{2}$', s)]: four digits, a dash, two digits, a
    dash and two digits; [$] also matches before one final newline. *)
Definition matches_date (s : string) : bool :=
  match s with
  | String y1 (String y2 (String y3 (String y4 (String h1
      (String m1 (String m2 (String h2 (String d1 (String d2 rest))))))))) =>
      is_digit y1 && is_digit y2 && is_digit y3 && is_digit y4 &&
      (code h1 =? 45) && is_digit m1 && is_digit m2 && (code h2 =? 45) &&
      is_digit d1 && is_digit d2 &&
      (String.eqb rest "" || String.eqb rest (String (ascii_of_nat 10) ""))
  | _ => false
  end.

(** The validation of [clean_item["date"]] in [parse_reddit_response] and
    [parse_x_response]: a date that is not empty and does not match becomes
    [None]. *)
Definition clean_date (date : option string) : option string :=
  match date with
  | None => None
  | Some s =>
      if String.eqb s "" then Some s
      else if matches_date s then Some s else None
  end.

End Parsers.


(* ===================================================================== *)
(** ** openai_reddit.py and xai_x.py: the cleaning of one item *)
(* ===================================================================== *)

Module Responses.
Import Py Schema.

(** A value of [json.loads]; a [dict] is the list of its entries, in
    insertion order. *)
#[warnings="-register-all"]
Inductive json :=
  | JNull
  | JBool (b : bool)
  | JInt (n : Z)
  | JFloat (x : float)
  | JStr (s : string)
  | JList (l : list json)
  | JDict (d : list (string * json)).

(** [d.get(key)] *)
Fixpoint dict_get (key : string) (d : list (string * json)) : option json :=
  match d with
  | [] => None
  | (k, v) :: d' => if String.eqb k key then Some v else dict_get key d'
  end.

(** [bool(v)] *)
Definition truthy (v : json) : bool :=
  match v with
  | JNull => false
  | JBool b => b
  | JInt n => negb (n =? 0)%Z
  | JFloat x => negb (PrimFloat.eqb x 0)
  | JStr s => negb (String.eqb s "")
  | JList l => match l with [] => false | _ => true end
  | JDict d => match d with [] => false | _ => true end
  end.

(** [int(v)]; [None] is the [TypeError], [ValueError] or [OverflowError]. *)
Definition int_of_json (v : json) : option Z :=
  match v with
  | JBool b => Some (if b then 1 else 0)%Z
  | JInt n => Some n
  | JFloat x => int_of_float x
  | JStr s => int_of_str s
  | JNull | JList _ | JDict _ => None
  end.

Definition valid_signal_types : gset string :=
  {[ "problem"; "wish"; "building"; "feature_gap"; "workflow" ]}.

(** The validation of [signal_type] in [parse_reddit_response] and
    [parse_x_response], on [item.get("signal_type", "problem")] when it is a
    string or is absent. *)
Definition clean_signal_type (raw : option string) : string :=
  let signal_type := lower (strip (default "problem" raw)) in
  if bool_decide (signal_type ∈ valid_signal_types) then signal_type
  else "problem".

(** [min(1.0, max(0.0, x))], for [x] the [float(...)] of the relevance of the
    item: [max] keeps its first argument unless the second is above it, [min]
    unless the second is below it. *)
Definition clean_relevance (x : float) : float :=
  let m := if PrimFloat.ltb 0 x then x else 0%float in
  if PrimFloat.ltb m 1 then m else 1%float.

(** [int(eng_raw.get(key, 0)) if eng_raw.get(key) else None] of
    [parse_x_response]; the outer [None] is the exception of [int]. *)
Definition x_count (eng_raw : list (string * json)) (key : string)
    : option (option Z) :=
  match dict_get key eng_raw with
  | Some v => if truthy v then n ← int_of_json v; Some (Some n) else Some None
  | None => Some None
  end.

(** The engagement of an X item: the dict that [parse_x_response] builds from
    [item.get("engagement")], read into an [Engagement] by
    [normalize_x_saas_items]. *)
Definition x_engagement (eng_raw : option json) : option (option Engagement) :=
  match eng_raw with
  | Some (JDict d) =>
      likes ← x_count d "likes";
      reposts ← x_count d "reposts";
      replies ← x_count d "replies";
      quotes ← x_count d "quotes";
      Some (Some (mkEngagement None None None likes reposts replies quotes))
  | _ => Some None
  end.

End Responses.

(* ===================================================================== *)
(** ** normalize.py *)
(* ===================================================================== *)

Module Normalize.
Import Py Schema.

(** [filter_by_date_range(items, from_date, to_date, require_date)]; [<] and
    [>] on two [str] compare them character by character. *)
Fixpoint filter_by_date_range (items : list SaaSIdeaItem)
    (from_date to_date : string) (require_date : bool) : list SaaSIdeaItem :=
  match items with
  | [] => []
  | item :: items' =>
      let result := filter_by_date_range items' from_date to_date require_date in
      match date item with
      | None => if negb require_date then item :: result else result
      | Some d =>
          if String.ltb d from_date then result
          else if String.ltb to_date d then result
          else item :: result
      end
  end.

End Normalize.

(* ===================================================================== *)
(** ** saas_radar.py: the processing phase *)
(* ===================================================================== *)

Module SaasRadar.
Import Py Schema.

Section Collaborators.

Variable log1p : Z -> float.
Variable recency_score : option string -> Z -> Z.

(** Phase 5 of [main], from the date filter on: the normalized items are
    filtered, clustered, scored, sorted and deduplicated, every step with its
    default threshold. *)
Definition process (all_items : list SaaSIdeaItem) (from_date to_date : string)
    : option (list SaaSIdeaItem) :=
  let filtered := Normalize.filter_by_date_range all_items from_date to_date false in
  clustered ← IdeaCluster.cluster_ideas filtered 0.3;
  scored ← Score.score_saas_items log1p recency_score clustered;
  sorted_items ← Score.sort_items scored;
  Some (Dedupe.dedupe_saas sorted_items 0.7).

End Collaborators.

End SaasRadar.

(* ===================================================================== *)
(** ** Notions for the statements *)
(* ===================================================================== *)

Module Notions.
Import Py Schema IdeaCluster Parsers.





(** No item has a higher score than an item before it. *)
Definition scores_descending (items : list SaaSIdeaItem) : Prop :=
  forall a b x y, a < b -> items !! a = Some x -> items !! b = Some y ->
                  (score y <= score x)%Z.

(** The keys of the dict [clusters] after the loop over [indices], for [f]
    the representative of an index: the representatives in the order in which
    the loop first meets them. *)
Definition first_seen_step (f : nat -> nat) (keys : list nat) (i : nat) : list nat :=
  if bool_decide (f i ∈ keys) then keys else keys ++ [f i].

Definition first_seen (f : nat -> nat) (indices : list nat) : list nat :=
  fold_left (first_seen_step f) indices [].

(** The idea summary of the item at [i] is similar to that of no other
    item. *)
Definition isolated (items : list SaaSIdeaItem) (threshold : float) (i : nat) : Prop :=
  forall k, k <> i -> ~ similar_summaries items threshold i k /\
                      ~ similar_summaries items threshold k i.

(** The test of [filter_by_date_range] on one item: an item without a date
    passes unless a date is required; a date passes when it is not below
    [from_date] and not above [to_date]. *)
Definition in_window (from_date to_date : string) (require_date : bool)
    (item : SaaSIdeaItem) : bool :=
  match date item with
  | None => negb require_date
  | Some d => negb (String.ltb d from_date) && negb (String.ltb to_date d)
  end.

(** A date of the form YYYY-MM-DD, with nothing after it. *)
Definition iso_date (s : string) : bool :=
  matches_date s && (String.length s =? 10).

(** The value of a decimal digit. *)
Definition digit (c : ascii) : Z := Z.of_nat (code c - 48).

End Notions.

(* ===================================================================== *)
(** ** Sample inputs *)
(* ===================================================================== *)

(** Items and collaborators at which the properties below are evaluated. *)
Module Samples.
Import Py Schema.

(** [math.log1p] at 0, the only count the samples have. *)
Definition log1p_at_0 : Z -> float := fun _ => 0%float.

(** A [dates.recency_score] that is 20 at every date. *)
Definition recency_20 : option string -> Z -> Z := fun _ _ => 20%Z.

(** A Reddit thread with no votes and no comments yet. *)
Definition fresh_thread (upvote_ratio : option float) : Engagement :=
  mkEngagement (Some 0%Z) (Some 0%Z) upvote_ratio None None None None.

Definition reddit_item (id title : string) (engagement : option Engagement)
    : SaaSIdeaItem :=
  mkItem id title "" "reddit" "smallbusiness" "" (Some "2024-05-01") "high"
         "wish" title "independent dog groomers" 1.2%float 75 (-1)
         engagement [] [] 0.5%float "" default_subs 0.

(** An item with a title and a score only, as the deduplicator reads it. *)
Definition scored (id title : string) (score : Z) : SaaSIdeaItem :=
  set_scores default_subs score (new_item id title "" "reddit").

(** Three titles in a chain: the first two are similar at 0.7 (11/13), the
    last two as well (18/22), the first and the last are not (18/26). *)
Definition groomer_chain : list SaaSIdeaItem :=
  [scored "x" "the crm for dog groomers app" 20;
   scored "y" "crm for dog groomers app" 10;
   scored "z" "crm for dog groomers" 5].

(** An item with an idea summary only, as the clustering reads it. *)
Definition idea (id idea_summary : string) : SaaSIdeaItem :=
  mkItem id id "" "x" "" "" None "low" "problem" idea_summary ""
         1%float 25 (-1) None [] [] 0.5%float "" default_subs 0.

(** Four ideas: the first and the second are similar at 0.3 (15/29), the
    second and the third as well (14/38), the first and the third are not
    (3/41), and the fourth shares no trigram with the others. *)
Definition four_ideas : list SaaSIdeaItem :=
  [idea "a" "crm for dog groomers";
   idea "b" "booking app for dog groomers";
   idea "c" "booking app for yoga studios";
   idea "d" "invoice tracker"].

(** An item with a date, as the sorter reads it. *)
Definition dated (id title : string) (date : option string) (score : Z)
    : SaaSIdeaItem :=
  mkItem id title "" "reddit" "" "" date "high" "problem" "" ""
         1%float 25 (-1) None [] [] 0.5%float "" default_subs score.

(** A forest of three nodes in a chain, with its ranks. *)
Definition chain_parent : list nat := [1; 2; 2].
Definition chain_rank : list nat := [0; 1; 2].

(** Two threads with different upvote ratios and an item without engagement
    data. *)
Definition mixed_batch : list SaaSIdeaItem :=
  [reddit_item "a" "one" (Some (fresh_thread None));
   reddit_item "b" "two" (Some (fresh_thread (Some 0.9%float)));
   reddit_item "c" "three" None].

(** One thread and an item without engagement data. *)
Definition lone_thread_batch : list SaaSIdeaItem :=
  [reddit_item "a" "one" (Some (fresh_thread None));
   reddit_item "c" "three" None].

(** Two items of one score, the second with the later date. *)
Definition two_dated : list SaaSIdeaItem :=
  [dated "a" "beta" (Some "2024-04-30") 5;
   dated "b" "alpha" (Some "2024-05-01") 5].

End Samples.

(* ===================================================================== *)
(** ** Properties of the text functions *)
(* ===================================================================== *)

Module TextProps.
Import Py Schema Dedupe.

Lemma float_one_not_zero : 1%float <> 0%float.
Proof.
  intros H. apply (f_equal (PrimFloat.eqb 0)) in H. vm_compute in H. discriminate.
Qed.

Lemma get_ngrams_short n text :
  String.length (normalize_text text) < n ->
  get_ngrams_n n text = {[ normalize_text text ]}.
Proof.
  intros H. unfold get_ngrams_n.
  destruct (Nat.ltb_spec (String.length (normalize_text text)) n); [done | lia].
Qed.

Lemma jaccard_empty_l s : jaccard_similarity ∅ s = 0%float.
Proof. unfold jaccard_similarity. by rewrite bool_decide_eq_true_2. Qed.

Lemma jaccard_empty_r s : jaccard_similarity s ∅ = 0%float.
Proof.
  unfold jaccard_similarity. rewrite (bool_decide_eq_true_2 (∅ = ∅)) by done.
  by rewrite orb_true_r.
Qed.

Lemma ngrams_inter_self (X : gset string) : X ∩ X = X.
Proof. apply intersection_idemp_L. Qed.

Lemma ngrams_union_self (X : gset string) : X ∪ X = X.
Proof. apply union_idemp_L. Qed.

Lemma ngrams_singleton_nonempty (x : string) : ({[ x ]} : gset string) <> ∅.
Proof. apply non_empty_singleton_L. Qed.

Lemma jaccard_singleton (x : string) :
  jaccard_similarity {[ x ]} {[ x ]} = 1%float.
Proof.
  unfold jaccard_similarity.
  rewrite (bool_decide_eq_false_2 _ (ngrams_singleton_nonempty x)).
  cbn [orb]. cbv zeta.
  rewrite ngrams_inter_self, ngrams_union_self, size_singleton. reflexivity.
Qed.

(** C2, as stated, fails: the texts [""] and ["!!"] both normalize to the
    empty text, and the similarity of their n-gram sets is 1.0, not 0.0. *)
Lemma empty_texts_cex :
  ~ (forall t1 t2 : string,
        String.length (normalize_text t1) = 0 ->
        String.length (normalize_text t2) = 0 ->
        jaccard_similarity (get_ngrams t1) (get_ngrams t2) = 0%float).
Proof.
  intros H. specialize (H "" "!!" eq_refl eq_refl).
  vm_compute in H. by apply float_one_not_zero.
Qed.

(** C2 (amended): texts whose normalized form is empty both have the n-gram
    set [{""}], which is not empty, and their similarity is 1.0;
    [jaccard_similarity] is 0.0 whenever either input set is empty; and
    [get_ngrams] of a text whose normalized form is shorter than [n] is the
    singleton of the normalized text. *)
Theorem empty_texts_similarity (t1 t2 : string) (n : nat) (s : gset string) :
  (String.length (normalize_text t1) = 0 ->
   String.length (normalize_text t2) = 0 ->
   get_ngrams t1 = {[ "" ]} /\ get_ngrams t2 = {[ "" ]} /\
   jaccard_similarity (get_ngrams t1) (get_ngrams t2) = 1%float) /\
  jaccard_similarity ∅ s = 0%float /\
  jaccard_similarity s ∅ = 0%float /\
  (String.length (normalize_text t1) < n ->
   get_ngrams_n n t1 = {[ normalize_text t1 ]}).
Proof.
  split; [| split; [apply jaccard_empty_l | split; [apply jaccard_empty_r |]]].
  - intros H1 H2.
    assert (E1 : normalize_text t1 = "") by (by destruct (normalize_text t1)).
    assert (E2 : normalize_text t2 = "") by (by destruct (normalize_text t2)).
    assert (G1 : get_ngrams t1 = {[ "" ]}).
    { unfold get_ngrams. rewrite get_ngrams_short by lia. by rewrite E1. }
    assert (G2 : get_ngrams t2 = {[ "" ]}).
    { unfold get_ngrams. rewrite get_ngrams_short by lia. by rewrite E2. }
    rewrite G1, G2. split; [done | split; [done | apply jaccard_singleton]].
  - apply get_ngrams_short.
Qed.

(** The amended C2 at the texts [""], ["!!"] and ["ab"]. *)
Lemma empty_texts_similarity_witness :
  (get_ngrams "" = {[ "" ]} /\ get_ngrams "!!" = {[ "" ]} /\
   jaccard_similarity (get_ngrams "") (get_ngrams "!!") = 1%float) /\
  get_ngrams_n 3 "ab" = {[ "ab" ]}.
Proof.
  pose proof (empty_texts_similarity "" "!!" 3 ∅) as [H _].
  pose proof (empty_texts_similarity "ab" "" 3 ∅) as (_ & _ & _ & H').
  split; [exact (H eq_refl eq_refl) | apply H'; vm_compute; lia].
Defined.

End TextProps.

(* ===================================================================== *)
(** ** Properties of the scorer *)
(* ===================================================================== *)

Module ScoreProps.
Import Py Schema Score.

(** *** Floats *)

(** [x - x == 0] for a finite [x]. *)
Lemma sub_self_is_zero (x : float) :
  is_finite x = true -> PrimFloat.eqb (x - x) 0 = true.
Proof.
  unfold is_finite. intros H. rewrite FloatAxioms.eqb_spec, FloatAxioms.sub_spec.
  destruct (Prim2SF x) as [s|s| |s m e]; try discriminate.
  - destruct s; reflexivity.
  - unfold SF64sub, SFsub.
    destruct s; cbn [cond_Zopp]; rewrite ?Z.sub_diag; reflexivity.
Qed.

Lemma min_float_all_equal (v : float) (l : list float) :
  (forall w, In w l -> w = v) -> min_float v l = v.
Proof.
  unfold min_float. induction l as [|w l IH]; intros H; [done|]. simpl.
  rewrite (H w) by (by left). destruct (PrimFloat.ltb v v); apply IH;
    intros u Hu; apply H; by right.
Qed.

Lemma max_float_all_equal (v : float) (l : list float) :
  (forall w, In w l -> w = v) -> max_float v l = v.
Proof.
  unfold max_float. induction l as [|w l IH]; intros H; [done|]. simpl.
  rewrite (H w) by (by left). destruct (PrimFloat.ltb v v); apply IH;
    intros u Hu; apply H; by right.
Qed.

Section Collaborators.
Variable log1p : Z -> float.
Variable recency_score : option string -> Z -> Z.


(** *** The loops of [score_saas_items], item by item *)

Lemma score_loop_lookup items raws norms out :
  score_loop recency_score items raws norms = Some out ->
  forall i it, items !! i = Some it ->
  exists raw norm it',
    raws !! i = Some raw /\ norms !! i = Some norm /\
    out !! i = Some it' /\ score_item recency_score it raw norm = Some it'.
Proof.
  revert raws norms out.
  induction items as [|item items IH]; intros raws norms out H i it Hi.
  - by rewrite lookup_nil in Hi.
  - destruct raws as [|raw raws], norms as [|norm norms]; simpl in H; try discriminate.
    destruct (score_item recency_score item raw norm) as [item'|] eqn:E1; simpl in H; [|discriminate].
    destruct (score_loop recency_score items raws norms) as [rest|] eqn:E2; simpl in H; [|discriminate].
    injection H as <-.
    destruct i as [|i]; simpl in Hi |- *.
    + injection Hi as <-. by exists raw, norm, item'.
    + by apply (IH _ _ _ E2).
Qed.

Lemma score_loop_length items raws norms out :
  score_loop recency_score items raws norms = Some out -> length out = length items.
Proof.
  revert raws norms out.
  induction items as [|item items IH]; intros raws norms out H.
  - simpl in H. by injection H as <-.
  - destruct raws as [|raw raws], norms as [|norm norms]; simpl in H; try discriminate.
    destruct (score_item recency_score item raw norm) as [item'|]; simpl in H; [|discriminate].
    destruct (score_loop recency_score items raws norms) as [rest|] eqn:E2; simpl in H; [|discriminate].
    injection H as <-. simpl. f_equal. by apply (IH _ _ _ E2).
Qed.

Lemma score_loop_defined items raws norms :
  length raws = length items -> length norms = length items ->
  (forall i it raw norm,
      items !! i = Some it -> raws !! i = Some raw -> norms !! i = Some norm ->
      is_Some (score_item recency_score it raw norm)) ->
  is_Some (score_loop recency_score items raws norms).
Proof.
  revert raws norms.
  induction items as [|item items IH]; intros raws norms Hr Hn H.
  - by eexists.
  - destruct raws as [|raw raws], norms as [|norm norms]; simpl in Hr, Hn; try lia.
    simpl.
    destruct (H 0 item raw norm eq_refl eq_refl eq_refl) as [item' ->]. simpl.
    destruct (IH raws norms) as [rest ->]; [lia | lia | | by eexists].
    intros i it r n Hi Hr' Hn'. by apply (H (S i)).
Qed.

Lemma normalize_to_100_length values default :
  length (normalize_to_100 values default) = length values.
Proof.
  unfold normalize_to_100.
  destruct (omap (fun v => v) values); [|case_match]; by rewrite length_map.
Qed.

(** A value that is null after the normalization was null before it. *)
Lemma normalize_to_100_None values default i :
  normalize_to_100 values default !! i = Some None -> values !! i = Some None.
Proof.
  unfold normalize_to_100.
  destruct (omap (fun v => v) values) as [|v0 rest].
  - rewrite list_lookup_fmap. destruct (values !! i); simpl; congruence.
  - case_match; rewrite list_lookup_fmap;
      destruct (values !! i) as [[v|]|]; simpl; congruence.
Qed.

(** With no non-null value at all, every item gets [default]. *)
Lemma normalize_to_100_all_None values default :
  (forall v, In v values -> v = None) ->
  normalize_to_100 values default = map (fun _ => Some default) values.
Proof.
  intros H. unfold normalize_to_100.
  assert (E : omap (fun v => v) values = []).
  { induction values as [|v values IH]; [done|]. simpl.
    rewrite (H v) by (by left). apply IH. intros w Hw. apply H. by right. }
  rewrite E. apply map_ext_in. intros v Hv. by rewrite (H v Hv).
Qed.

(** What [score_saas_items] stores for the item at index [i]. *)
Lemma score_saas_items_lookup items out i it :
  score_saas_items log1p recency_score items = Some out -> items !! i = Some it ->
  exists norm it',
    normalize_to_100 (map (engagement_raw log1p) items) 50 !! i = Some norm /\
    out !! i = Some it' /\ score_item recency_score it (engagement_raw log1p it) norm = Some it'.
Proof.
  intros H Hi. unfold score_saas_items in H.
  destruct items as [|item0 items0] eqn:Eitems; [by rewrite lookup_nil in Hi|].
  rewrite <- Eitems in *. clear Eitems item0 items0.
  destruct (score_loop_lookup _ _ _ _ H i it Hi) as (raw & norm & it' & Hr & Hn & Ho & Hs).
  rewrite list_lookup_fmap, Hi in Hr. injection Hr as <-.
  by exists norm, it'.
Qed.

Lemma score_saas_items_length items out :
  score_saas_items log1p recency_score items = Some out -> length out = length items.
Proof.
  unfold score_saas_items. destruct items as [|item0 items0].
  - by intros [= <-].
  - apply score_loop_length.
Qed.

(** [score_saas_items] raises only where an [int(...)] of the loop does. *)
Lemma score_saas_items_defined items :
  (forall i it norm,
      items !! i = Some it ->
      normalize_to_100 (map (engagement_raw log1p) items) 50 !! i = Some norm ->
      is_Some (score_item recency_score it (engagement_raw log1p it) norm)) ->
  is_Some (score_saas_items log1p recency_score items).
Proof.
  intros H. unfold score_saas_items.
  destruct items as [|item0 items0] eqn:Eitems; [by eexists|].
  rewrite <- Eitems in *. clear Eitems item0 items0.
  apply score_loop_defined.
  - by rewrite length_map.
  - by rewrite normalize_to_100_length, length_map.
  - intros i it raw norm Hi Hr Hn.
    rewrite list_lookup_fmap, Hi in Hr. injection Hr as <-. by apply (H i).
Qed.

(** The fields that [score_item] writes. *)
Lemma score_item_spec it raw norm it' :
  score_item recency_score it raw norm = Some it' ->
  exists eng n,
    match norm with
    | Some v => int_of_float v = Some eng
    | None => eng = DEFAULT_ENGAGEMENT
    end /\
    subs it' = mkSubScores (_compute_idea_quality it) eng (market_signal it)
                 (_compute_growth_score (subreddit_growth it))
                 (recency_score (date it) 180) /\
    int_of_float (penalized (bool_decide (raw = None))
                            (String.eqb (date_confidence it) "low")
                            (weighted (subs it'))) = Some n /\
    score it' = Z.max 0 (Z.min 100 n) /\
    it' = set_scores (subs it') (score it') it.
Proof.
  unfold score_item, clamp_int. intros H.
  destruct (match norm with Some v => int_of_float v | None => Some DEFAULT_ENGAGEMENT end)
    as [eng|] eqn:E1; simpl in H; [|discriminate].
  match type of H with
  | context [int_of_float ?x] => destruct (int_of_float x) as [n|] eqn:E2
  end; simpl in H; [|discriminate].
  injection H as <-. exists eng, n. simpl.
  split; [destruct norm; congruence|]. by rewrite E2.
Qed.


(** *** Claims about the scorer *)

(** In a batch where no item has a raw engagement, [normalize_to_100] takes
    its first branch with the [default] of its signature, 50, so no value is
    null after the normalization: every engagement subscore is 50 and
    [DEFAULT_ENGAGEMENT] is never used, while the penalty is applied. *)
Lemma all_null_engagement_is_50 items out i it' :
  (forall it, In it items -> engagement_raw log1p it = None) ->
  score_saas_items log1p recency_score items = Some out ->
  out !! i = Some it' ->
  engagement_sub (subs it') = 50%Z /\
  clamp_int (penalized true (String.eqb (date_confidence it') "low")
                       (weighted (subs it'))) = Some (score it').
Proof.
  intros Hnull H Ho.
  assert (Hlen := score_saas_items_length _ _ H).
  destruct (lookup_lt_is_Some_2 items i) as [it Hi].
  { rewrite <- Hlen. by apply lookup_lt_is_Some_1. }
  destruct (score_saas_items_lookup _ _ _ _ H Hi) as (norm & it2 & Hn & Ho2 & Hs).
  rewrite Ho in Ho2. injection Ho2 as <-.
  assert (Hraw : engagement_raw log1p it = None).
  { apply Hnull. apply list_elem_of_In. by eapply list_elem_of_lookup_2. }
  rewrite normalize_to_100_all_None in Hn.
  2:{ intros v Hv. apply in_map_iff in Hv as (x & <- & Hx). by apply Hnull. }
  rewrite list_lookup_fmap, list_lookup_fmap, Hi in Hn. injection Hn as <-.
  destruct (score_item_spec _ _ _ _ Hs) as (eng & n & He & Hsub & Hn & Hsc & Hit).
  assert (eng = 50%Z) as -> by (vm_compute in He; congruence).
  split; [by rewrite Hsub|].
  unfold clamp_int.
  replace (date_confidence it') with (date_confidence it) by (by rewrite Hit).
  rewrite Hraw in Hn. rewrite (bool_decide_eq_true_2 _ eq_refl) in Hn.
  rewrite Hn. simpl. by rewrite Hsc.
Qed.

(** C3: [normalize_to_100] on values that are not all null, with [min_val]
    and [max_val] the least and greatest non-null value.  When
    [max_val - min_val] is not zero, which is the test of the code for values
    that are not all equal, every non-null value [v] becomes
    [(v - min_val) / (max_val - min_val) * 100] and every null stays null;
    when the non-null values are all one finite value, every non-null value
    becomes 50.  In [score_saas_items], an item whose normalized value is null
    gets the engagement subscore 35 and its raw engagement is null, so the 10
    points of [UNKNOWN_ENGAGEMENT_PENALTY] are taken off its composite as
    well. *)
Theorem normalization_and_null_default
    (values : list (option float)) (default v0 : float) (rest : list float)
    (items out : list SaaSIdeaItem) (i : nat) (it' : SaaSIdeaItem) :
  let min_val := min_float v0 rest in
  let max_val := max_float v0 rest in
  let range_val := (max_val - min_val)%float in
  (omap (fun v => v) values = v0 :: rest ->
   (PrimFloat.eqb range_val 0 = false ->
    normalize_to_100 values default =
    map (fun v => match v with
                  | None => None
                  | Some v => Some ((v - min_val) / range_val * 100)%float
                  end) values) /\
   ((forall w, In w rest -> w = v0) -> is_finite v0 = true ->
    forall k v, values !! k = Some (Some v) ->
                normalize_to_100 values default !! k = Some (Some 50%float))) /\
  (score_saas_items log1p recency_score items = Some out ->
   out !! i = Some it' ->
   normalize_to_100 (map (engagement_raw log1p) items) 50 !! i = Some None ->
   engagement_sub (subs it') = 35%Z /\
   (exists it, items !! i = Some it /\ engagement_raw log1p it = None) /\
   exists n : Z,
     int_of_float
       (let overall := (weighted (subs it') - 10)%float in
        if String.eqb (date_confidence it') "low"
        then (overall - 10)%float else overall) = Some n /\
     score it' = Z.max 0 (Z.min 100 n)).
Proof.
  intros min_val max_val range_val. split.
  - intros Hvalid. unfold normalize_to_100. rewrite Hvalid.
    fold min_val max_val range_val. split.
    + by intros ->.
    + intros Heq Hfin k v Hk.
      assert (Hr : PrimFloat.eqb range_val 0 = true).
      { unfold range_val, min_val, max_val.
        rewrite min_float_all_equal, max_float_all_equal by done.
        by apply sub_self_is_zero. }
      by rewrite Hr, list_lookup_fmap, Hk.
  - intros H Ho Hnull.
    assert (Hlen := score_saas_items_length _ _ H).
    destruct (lookup_lt_is_Some_2 items i) as [it Hi].
    { rewrite <- Hlen. by apply lookup_lt_is_Some_1. }
    destruct (score_saas_items_lookup _ _ _ _ H Hi) as (norm & it2 & Hn & Ho2 & Hs).
    rewrite Ho in Ho2. injection Ho2 as <-.
    rewrite Hnull in Hn. injection Hn as <-.
    apply normalize_to_100_None in Hnull.
    rewrite list_lookup_fmap, Hi in Hnull. injection Hnull as Hraw.
    destruct (score_item_spec _ _ _ _ Hs) as (eng & n & He & Hsub & Hn & Hsc & Hit).
    subst eng. split; [by rewrite Hsub|]. split; [by exists it|].
    exists n. split; [|done].
    replace (date_confidence it') with (date_confidence it) by (by rewrite Hit).
    rewrite Hraw in Hn. by rewrite (bool_decide_eq_true_2 _ eq_refl) in Hn.
Qed.

(** C4: the item that [score_saas_items] returns at index [i] has the five
    subscores of the input item, and its score is the weighted sum of these
    subscores, less 10 when the raw engagement is null, less 10 when
    [date_confidence] is ["low"], truncated by [int] and clamped to
    [0, 100].  The subscores (100, 50, 75, 40, 20) weigh 65.5, and 65 without
    penalties. *)
Theorem composite_score_formula (items out : list SaaSIdeaItem) (i : nat)
    (it : SaaSIdeaItem) :
  (score_saas_items log1p recency_score items = Some out ->
   items !! i = Some it ->
   exists it' n,
     out !! i = Some it' /\
     idea_quality (subs it') = _compute_idea_quality it /\
     market_signal_sub (subs it') = market_signal it /\
     growth (subs it') = _compute_growth_score (subreddit_growth it) /\
     recency (subs it') = recency_score (date it) 180 /\
     int_of_float
       (let overall :=
          (0.30 * float_of_Z (idea_quality (subs it')) +
           0.25 * float_of_Z (engagement_sub (subs it')) +
           0.20 * float_of_Z (market_signal_sub (subs it')) +
           0.15 * float_of_Z (growth (subs it')) +
           0.10 * float_of_Z (recency (subs it')))%float in
        let overall :=
          match engagement_raw log1p it with
          | None => (overall - 10)%float
          | Some _ => overall
          end in
        if String.eqb (date_confidence it) "low"
        then (overall - 10)%float else overall) = Some n /\
     score it' = Z.max 0 (Z.min 100 n) /\
     (0 <= score it' <= 100)%Z) /\
  weighted (mkSubScores 100 50 75 40 20) = 65.5%float /\
  clamp_int (penalized false false (weighted (mkSubScores 100 50 75 40 20)))
  = Some 65%Z.
Proof.
  split; [|split; reflexivity].
  intros H Hi.
  destruct (score_saas_items_lookup _ _ _ _ H Hi) as (norm & it' & Hn & Ho & Hs).
  destruct (score_item_spec _ _ _ _ Hs) as (eng & n & He & Hsub & Hn' & Hsc & Hit).
  exists it', n. split; [done|]. rewrite Hsub at 1 2 3 4. simpl.
  repeat (split; [done|]).
  split; [|split; [done | lia]].
  rewrite <- Hn'. unfold penalized, weighted. cbv zeta.
  destruct (engagement_raw log1p it) as [r|] eqn:Er.
  - by rewrite bool_decide_eq_false_2.
  - by rewrite (bool_decide_eq_true_2 _ eq_refl).
Qed.

(** C10: for a Reddit item whose engagement has a score or a number of
    comments but no upvote ratio, the raw engagement is the two logarithmic
    terms plus 0.25, which is [0.05 * (0.5 * 10)]: the missing ratio is read
    as 0.5 and not as 0. *)
Theorem missing_ratio_counts_as_half (it : SaaSIdeaItem) (e : Engagement) :
  source it = "reddit" ->
  engagement it = Some e ->
  eng_score e <> None \/ num_comments e <> None ->
  upvote_ratio e = None ->
  engagement_raw log1p it =
    Some (0.55 * log1p_safe log1p (eng_score e) +
          0.40 * log1p_safe log1p (num_comments e) + 0.25)%float /\
  (0.05 * (0.5 * 10))%float = 0.25%float /\
  (0.05 * (0 * 10))%float = 0%float.
Proof.
  intros Hsrc He Hprim Hratio.
  split; [|split; reflexivity].
  unfold engagement_raw, compute_reddit_engagement_raw.
  rewrite Hsrc, He, Hratio. simpl.
  destruct (eng_score e), (num_comments e); try reflexivity.
  destruct Hprim as [[]|[]]; reflexivity.
Qed.

End Collaborators.


(** *** The claims at the sample inputs *)

Import Samples.

(** C1 at a batch of two items without engagement data: a Reddit item with no
    engagement structure and an X item whose two primary fields are absent.
    Both raw values are null, the penalty is applied, and the engagement
    subscore of both is 50, where C1 and [DEFAULT_ENGAGEMENT] say 35.  The
    composite is 26 (24 + 12.5 + 5 + 3 + 2 - 10 - 10 = 26.5); with the
    subscore 35 it would be 22. *)
Lemma all_null_batch_scores :
  let batch := [new_item "a" "first" "" "reddit";
                set_cluster (-1) 25
                  (mkItem "b" "second" "" "x" "" "" None "low" "problem" "" ""
                          1%float 25 (-1) (Some default_engagement) [] []
                          0.5%float "" default_subs 0)] in
  map (engagement_raw log1p_at_0) batch = [None; None] /\
  (map (fun it => (engagement_sub (subs it), score it))
     <$> score_saas_items log1p_at_0 recency_20 batch)
  = Some [(50%Z, 26%Z); (50%Z, 26%Z)] /\
  clamp_int (penalized true true (weighted (mkSubScores 80 35 25 20 20)))
  = Some 22%Z.
Proof. vm_compute. repeat split. Qed.

(** C3 at the values [1, null, 3, 2] and [5, null, 5], and at a batch of two
    threads with different upvote ratios and an item without engagement. *)
Lemma normalization_and_null_default_witness :
  normalize_to_100 [Some 1%float; None; Some 3%float; Some 2%float] 50
  = [Some 0%float; None; Some 100%float; Some 50%float] /\
  normalize_to_100 [Some 5%float; None; Some 5%float] 50 !! 2
  = Some (Some 50%float) /\
  exists it', engagement_sub (subs it') = 35%Z /\ score it' = 51%Z.
Proof.
  pose (batch := [reddit_item "a" "one" (Some (fresh_thread None));
                  reddit_item "b" "two" (Some (fresh_thread (Some 0.9%float)));
                  reddit_item "c" "three" None]).
  pose (out := default [] (score_saas_items log1p_at_0 recency_20 batch)).
  pose (it' := default (new_item "" "" "" "") (out !! 2)).
  destruct (normalization_and_null_default log1p_at_0 recency_20
              [Some 1%float; None; Some 3%float; Some 2%float] 50 1
              [3%float; 2%float] batch out 2 it') as [H1 H2].
  destruct (H1 eq_refl) as [Ha _].
  destruct (normalization_and_null_default log1p_at_0 recency_20
              [Some 5%float; None; Some 5%float] 50 5
              [5%float] batch out 2 it') as [H3 _].
  destruct (H3 eq_refl) as [_ Hb].
  split; [rewrite Ha by (vm_compute; reflexivity); vm_compute; reflexivity|].
  split.
  { apply (Hb ltac:(intros w [<-|[]]; reflexivity)
              ltac:(vm_compute; reflexivity) 2 5%float eq_refl). }
  exists it'.
  destruct H2 as (He & _ & _); [vm_compute; reflexivity ..|].
  split; [exact He | vm_compute; reflexivity].
Defined.

(** C4 at a single thread whose subscores are (100, 50, 75, 40, 20). *)
Lemma composite_score_formula_witness :
  exists it' : SaaSIdeaItem,
    subs it' = mkSubScores 100 50 75 40 20 /\ score it' = 65%Z.
Proof.
  pose (it := reddit_item "a" "one" (Some (fresh_thread None))).
  pose (out := default [] (score_saas_items log1p_at_0 recency_20 [it])).
  destruct (composite_score_formula log1p_at_0 recency_20 [it] out 0 it)
    as [H _].
  destruct H as (it' & n & Ho & _); [vm_compute; reflexivity ..|].
  exists it'. vm_compute in Ho. injection Ho as <-. split; reflexivity.
Defined.

(** C10 at a thread with no votes, no comments and no upvote ratio: the raw
    engagement is 0.25. *)
Lemma missing_ratio_counts_as_half_witness :
  engagement_raw log1p_at_0 (reddit_item "a" "one" (Some (fresh_thread None)))
  = Some 0.25%float.
Proof.
  assert (Hp : eng_score (fresh_thread None) <> None \/
               num_comments (fresh_thread None) <> None)
    by (left; simpl; congruence).
  destruct (missing_ratio_counts_as_half log1p_at_0
              (reddit_item "a" "one" (Some (fresh_thread None)))
              (fresh_thread None) eq_refl eq_refl Hp eq_refl) as [H _].
  rewrite H. vm_compute. reflexivity.
Defined.

End ScoreProps.

(* ===================================================================== *)
(** ** Properties of the deduplicator *)
(* ===================================================================== *)

Module DedupeProps.
Import Py Schema Dedupe.

(** *** [enumerate] and [filter] *)

Lemma combine_seq_lookup {A} (l : list A) s k i x :
  combine (seq s (length l)) l !! k = Some (i, x) <-> i = s + k /\ l !! k = Some x.
Proof.
  revert s k. induction l as [|y l IH]; intros s k; simpl.
  - rewrite !lookup_nil. split; [done | by intros [_ ?]].
  - destruct k as [|k]; simpl.
    + split; [intros [= <- <-]; split; [lia | done] | intros [-> [= <-]]; f_equal; f_equal; lia].
    + rewrite IH. split; intros [-> ?]; split; (lia || done).
Qed.

Lemma enumerate_lookup {A} (l : list A) k i x :
  enumerate l !! k = Some (i, x) <-> i = k /\ l !! k = Some x.
Proof. unfold enumerate. by rewrite combine_seq_lookup. Qed.

Lemma map_snd_enumerate {A} (l : list A) : map snd (enumerate l) = l.
Proof.
  unfold enumerate. generalize 0. induction l as [|x l IH]; intros s; simpl; [done|].
  by rewrite IH.
Qed.

(** Two positions of a filtered list come from two positions of the list, in
    the same order. *)
Lemma filter_lookup_pair {A} (P : A -> Prop) `{!forall x, Decision (P x)}
    (l : list A) a b p q :
  a < b -> filter P l !! a = Some p -> filter P l !! b = Some q ->
  exists a' b', a' < b' /\ l !! a' = Some p /\ l !! b' = Some q /\ P p /\ P q.
Proof.
  revert a b. induction l as [|x l IH]; intros a b Hab Ha Hb.
  - by rewrite filter_nil, lookup_nil in Ha.
  - rewrite filter_cons in Ha, Hb. destruct (decide (P x)) as [HP|HP].
    + destruct a as [|a]; simpl in Ha.
      * injection Ha as <-. destruct b as [|b]; [lia|]. simpl in Hb.
        apply list_elem_of_lookup_2 in Hb as Hq.
        apply list_elem_of_filter in Hq as [HPq Hq].
        apply list_elem_of_lookup_1 in Hq as [b' Hb'].
        exists 0, (S b'). repeat split; (lia || done).
      * destruct b as [|b]; [lia|]. simpl in Hb.
        destruct (IH a b) as (a' & b' & ? & ? & ? & ? & ?); [lia | done | done |].
        exists (S a'), (S b'). repeat split; (lia || done).
    + destruct (IH a b) as (a' & b' & ? & ? & ? & ? & ?); [lia | done | done |].
      exists (S a'), (S b'). repeat split; (lia || done).
Qed.

(** *** Symmetry of the similarity *)

Lemma ngrams_inter_comm (X Y : gset string) : X ∩ Y = Y ∩ X.
Proof. apply intersection_comm_L. Qed.

Lemma ngrams_union_comm (X Y : gset string) : X ∪ Y = Y ∪ X.
Proof. apply union_comm_L. Qed.

Lemma jaccard_similarity_sym (set1 set2 : gset string) :
  jaccard_similarity set1 set2 = jaccard_similarity set2 set1.
Proof.
  unfold jaccard_similarity.
  by rewrite orb_comm, (ngrams_inter_comm set1 set2), (ngrams_union_comm set1 set2).
Qed.

Lemma similar_sym threshold (g1 g2 : gset string) :
  similar threshold g1 g2 = similar threshold g2 g1.
Proof. unfold similar. by rewrite jaccard_similarity_sym. Qed.

(** *** [find_duplicates] *)

Lemma dup_row_spec threshold i gi j rest a b :
  In (a, b) (dup_row threshold i gi j rest) <->
  a = i /\ exists gb, j <= b /\ rest !! (b - j) = Some gb /\
                      similar threshold gi gb = true.
Proof.
  revert j. induction rest as [|gj rest IH]; intros j; simpl.
  - split; [done | intros (_ & gb & _ & H & _); by rewrite lookup_nil in H].
  - rewrite in_app_iff, IH. split.
    + intros [H | (-> & gb & Hj & Hl & Hs)].
      * destruct (similar threshold gi gj) eqn:E; simpl in H; [|done].
        destruct H as [[= <- <-]|[]]. split; [done|].
        exists gj. rewrite Nat.sub_diag. repeat split; (lia || done).
      * split; [done|]. exists gb. split; [lia|]. split; [|done].
        replace (b - j) with (S (b - S j)) by lia. done.
    + intros (-> & gb & Hj & Hl & Hs).
      destruct (decide (b = j)) as [->|Hne].
      * left. rewrite Nat.sub_diag in Hl. simpl in Hl. injection Hl as ->.
        rewrite Hs. by left.
      * right. split; [done|]. exists gb. split; [lia|]. split; [|done].
        replace (b - j) with (S (b - S j)) in Hl by lia. done.
Qed.

Lemma dup_rows_spec threshold i ngrams a b :
  In (a, b) (dup_rows threshold i ngrams) <->
  i <= a /\ a < b /\ exists ga gb,
    ngrams !! (a - i) = Some ga /\ ngrams !! (b - i) = Some gb /\
    similar threshold ga gb = true.
Proof.
  revert i. induction ngrams as [|gi rest IH]; intros i; simpl.
  - split; [done | intros (_ & _ & ga & _ & H & _); by rewrite lookup_nil in H].
  - rewrite in_app_iff, dup_row_spec, IH. split.
    + intros [(-> & gb & Hj & Hl & Hs) | (Hi & Hab & ga & gb & Ha & Hb & Hs)].
      * split; [lia|]. split; [lia|]. exists gi, gb. rewrite Nat.sub_diag.
        split; [done|]. split; [|done].
        replace (b - i) with (S (b - S i)) by lia. done.
      * split; [lia|]. split; [lia|]. exists ga, gb.
        replace (a - i) with (S (a - S i)) by lia.
        replace (b - i) with (S (b - S i)) by lia. done.
    + intros (Hi & Hab & ga & gb & Ha & Hb & Hs).
      destruct (decide (a = i)) as [->|Hne].
      * left. split; [done|]. rewrite Nat.sub_diag in Ha. simpl in Ha.
        injection Ha as ->. exists gb. split; [lia|]. split; [|done].
        replace (b - i) with (S (b - S i)) in Hb by lia. done.
      * right. split; [lia|]. split; [lia|]. exists ga, gb.
        replace (a - i) with (S (a - S i)) in Ha by lia.
        replace (b - i) with (S (b - S i)) in Hb by lia. done.
Qed.

(** [find_duplicates] returns the pairs [(i, j)], [i < j], of items with
    similar titles, and only those. *)
Lemma find_duplicates_spec items threshold i j :
  In (i, j) (find_duplicates items threshold) <->
  i < j /\ similar_titles items threshold i j.
Proof.
  unfold find_duplicates, similar_titles. rewrite dup_rows_spec, !Nat.sub_0_r.
  split.
  - intros (_ & Hij & ga & gb & Ha & Hb & Hs). split; [done|].
    rewrite list_lookup_fmap in Ha, Hb.
    destruct (items !! i) as [x|]; [|done]. destruct (items !! j) as [y|]; [|done].
    simpl in Ha, Hb. injection Ha as <-. injection Hb as <-. by exists x, y.
  - intros (Hij & x & y & Hx & Hy & Hs). split; [lia|]. split; [done|].
    exists (get_ngrams (title x)), (get_ngrams (title y)).
    by rewrite !list_lookup_fmap, Hx, Hy.
Qed.

(** *** [to_remove] *)

Lemma mark_removed_loser items to_remove p :
  mark_removed items to_remove p =
  match loser items p with
  | Some r => {[ r ]} ∪ to_remove
  | None => to_remove
  end.
Proof.
  destruct p as [i j]. unfold mark_removed, loser. simpl.
  destruct (items !! i), (items !! j); try done. by case_match.
Qed.

Lemma fold_mark_removed items pairs (S : gset nat) r :
  r ∈ fold_left (mark_removed items) pairs S <->
  r ∈ S \/ exists p, In p pairs /\ loser items p = Some r.
Proof.
  revert S. induction pairs as [|p pairs IH]; intros S; simpl.
  - split; [by left | intros [?|(? & [] & _)]; done].
  - rewrite IH, mark_removed_loser. split.
    + intros [H | (q & Hq & Hl)].
      * destruct (loser items p) as [r'|] eqn:E; [|by left].
        apply elem_of_union in H as [H|H]; [|by left].
        apply elem_of_singleton in H as ->. right. exists p. split; [by left | done].
      * right. exists q. split; [by right | done].
    + intros [H | (q & [<-|Hq] & Hl)].
      * left. destruct (loser items p); [|done]. apply elem_of_union. by right.
      * left. rewrite Hl. apply elem_of_union. left. by apply elem_of_singleton.
      * right. by exists q.
Qed.

(** An index is marked exactly when another item beats it. *)
Lemma removal_set_spec items threshold r :
  r ∈ removal_set items threshold <-> exists k, beaten_by items threshold r k.
Proof.
  unfold removal_set. rewrite fold_mark_removed. split.
  - intros [H | ([i j] & Hp & Hl)]; [by apply not_elem_of_empty in H|].
    apply find_duplicates_spec in Hp as (Hij & x & y & Hx & Hy & Hs).
    unfold loser in Hl. simpl in Hl. rewrite Hx, Hy in Hl.
    destruct (Z.leb_spec (score y) (score x)); injection Hl as <-.
    + exists i, y, x. repeat split; try done.
      * by rewrite similar_sym.
      * left. split; [done | lia].
    + exists j, x, y. repeat split; try done. right. split; [done | lia].
  - intros (k & x & y & Hx & Hy & Hs & Hcase). right.
    destruct Hcase as [[Hlt Hsc] | [Hlt Hsc]].
    + exists (k, r). split.
      * apply find_duplicates_spec. split; [done|]. exists y, x. repeat split; try done.
        by rewrite similar_sym.
      * unfold loser. simpl. rewrite Hx, Hy.
        destruct (Z.leb_spec (score x) (score y)); [done | lia].
    + exists (r, k). split.
      * apply find_duplicates_spec. split; [done|]. by exists x, y.
      * unfold loser. simpl. rewrite Hx, Hy.
        destruct (Z.leb_spec (score y) (score x)); [lia | done].
Qed.


(** *** The output of [dedupe_saas] *)

Lemma survivors_spec items to_remove i x :
  In (i, x) (survivors items to_remove) <-> items !! i = Some x /\ i ∉ to_remove.
Proof.
  unfold survivors. rewrite <- list_elem_of_In, list_elem_of_filter. simpl.
  rewrite list_elem_of_lookup. split.
  - intros (Hr & k & Hk). apply enumerate_lookup in Hk as [-> Hk]. done.
  - intros (Hi & Hr). split; [done|]. exists i. by apply enumerate_lookup.
Qed.

Lemma survivors_none_removed items : survivors items ∅ = enumerate items.
Proof.
  unfold survivors. induction (enumerate items) as [|p l IH]; [done|].
  rewrite filter_cons. destruct (decide (p.1 ∉ (∅ : gset nat))) as [_|H].
  - by rewrite IH.
  - destruct H. apply not_elem_of_empty.
Qed.

(** Two survivors never have similar titles: of a duplicate pair the loop
    marks one. *)
Lemma survivors_not_similar items threshold a b p q :
  a < b ->
  survivors items (removal_set items threshold) !! a = Some p ->
  survivors items (removal_set items threshold) !! b = Some q ->
  similar threshold (get_ngrams (title p.2)) (get_ngrams (title q.2)) = false.
Proof.
  intros Hab Ha Hb. unfold survivors in Ha, Hb.
  destruct (filter_lookup_pair _ _ _ _ _ _ Hab Ha Hb)
    as (a' & b' & Hlt & Ha' & Hb' & Hpa & Hpb).
  destruct p as [i x], q as [j y]. simpl in *.
  apply enumerate_lookup in Ha' as [-> Hx]. apply enumerate_lookup in Hb' as [-> Hy].
  destruct (similar threshold (get_ngrams (title x)) (get_ngrams (title y))) eqn:Hs;
    [|done].
  assert (Hdup : In (a', b') (find_duplicates items threshold)).
  { apply find_duplicates_spec. split; [done|]. by exists x, y. }
  assert (Hl : exists r, loser items (a', b') = Some r /\ (r = a' \/ r = b')).
  { unfold loser. simpl. rewrite Hx, Hy. eexists. split; [done|].
    destruct (score y <=? score x)%Z; auto. }
  destruct Hl as (r & Hl & Hr).
  assert (r ∈ removal_set items threshold).
  { unfold removal_set. apply fold_mark_removed. right. by exists (a', b'). }
  destruct Hr as [-> | ->]; contradiction.
Qed.

Lemma dedupe_saas_small items threshold :
  length items <= 1 -> dedupe_saas items threshold = items.
Proof.
  intros H. unfold dedupe_saas.
  by destruct (Nat.leb_spec (length items) 1); [|lia].
Qed.

Lemma dedupe_saas_large items threshold :
  1 < length items ->
  dedupe_saas items threshold =
  map snd (survivors items (removal_set items threshold)).
Proof.
  intros H. unfold dedupe_saas.
  by destruct (Nat.leb_spec (length items) 1); [lia|].
Qed.

Lemma dedupe_saas_not_similar items threshold a b :
  a <> b -> ~ similar_titles (dedupe_saas items threshold) threshold a b.
Proof.
  assert (Hlt : forall a b, a < b ->
            ~ similar_titles (dedupe_saas items threshold) threshold a b).
  { clear a b. intros a b Hab (x & y & Hx & Hy & Hs).
    destruct (Nat.leb_spec (length items) 1) as [Hn|Hn].
    - rewrite dedupe_saas_small in Hx, Hy by done.
      apply lookup_lt_Some in Hy. lia.
    - rewrite dedupe_saas_large in Hx, Hy by done.
      change (map snd ?l) with (snd <$> l) in Hx, Hy.
      rewrite list_lookup_fmap in Hx, Hy.
      destruct (survivors items (removal_set items threshold) !! a) as [p|] eqn:Ha;
        [|done].
      destruct (survivors items (removal_set items threshold) !! b) as [q|] eqn:Hb;
        [|done].
      simpl in Hx, Hy. injection Hx as <-. injection Hy as <-.
      by rewrite (survivors_not_similar _ _ _ _ _ _ Hab Ha Hb) in Hs. }
  intros Hne H. destruct (Nat.lt_total a b) as [Hab | [-> | Hba]].
  - by apply (Hlt a b).
  - done.
  - apply (Hlt b a Hba). destruct H as (x & y & Hx & Hy & Hs).
    exists y, x. by rewrite similar_sym.
Qed.

(** A list without similar titles has no duplicate pair, and [dedupe_saas]
    returns it as it is. *)
Lemma dedupe_saas_fixed items threshold :
  (forall a b, a <> b -> ~ similar_titles items threshold a b) ->
  find_duplicates items threshold = [] /\ dedupe_saas items threshold = items.
Proof.
  intros H.
  assert (E : find_duplicates items threshold = []).
  { destruct (find_duplicates items threshold) as [|[i j] l] eqn:E; [done|].
    assert (Hin : In (i, j) (find_duplicates items threshold)) by (rewrite E; by left).
    apply find_duplicates_spec in Hin as [Hij Hs]. destruct (H i j); [lia | done]. }
  split; [done|].
  destruct (Nat.leb_spec (length items) 1) as [Hn|Hn].
  - by apply dedupe_saas_small.
  - rewrite dedupe_saas_large by done. unfold removal_set. rewrite E. simpl.
    by rewrite survivors_none_removed, map_snd_enumerate.
Qed.

(** C8: [dedupe_saas] returns its own output unchanged; the output has no two
    items whose titles are similar at the threshold; and a list of at most one
    item is returned as it is, the loops of [find_duplicates] having no pair
    to compare in it. *)
Theorem dedupe_saas_idempotent (items : list SaaSIdeaItem) (threshold : float) :
  dedupe_saas (dedupe_saas items threshold) threshold = dedupe_saas items threshold /\
  (forall a b, a <> b ->
     ~ similar_titles (dedupe_saas items threshold) threshold a b) /\
  (length items <= 1 ->
   dedupe_saas items threshold = items /\ find_duplicates items threshold = []).
Proof.
  split; [|split].
  - apply dedupe_saas_fixed. intros a b. apply dedupe_saas_not_similar.
  - intros a b. apply dedupe_saas_not_similar.
  - intros Hn. split; [by apply dedupe_saas_small|].
    apply dedupe_saas_fixed. intros a b Hne (x & y & Hx & Hy & _).
    apply lookup_lt_Some in Hx, Hy. lia.
Qed.

(** C5 (amended): [dedupe_saas] returns a sublist of its input, so never more
    items; in a list of two items or more, the item at [i] is kept exactly
    when no item beats it, that is, when it is in no duplicate pair with an
    item of higher score or with an earlier item of the same score; and an
    item that has the highest score of its cluster, before any other item of
    the cluster with that score, is kept. *)
Theorem dedupe_saas_keeps_unbeaten (items : list SaaSIdeaItem)
    (threshold : float) (i : nat) (x : SaaSIdeaItem) :
  length (dedupe_saas items threshold) <= length items /\
  dedupe_saas items threshold `sublist_of` items /\
  (1 < length items ->
   (In (i, x) (survivors items (removal_set items threshold)) <->
    items !! i = Some x /\ ~ exists k, beaten_by items threshold i k)) /\
  (items !! i = Some x ->
   (forall k y, same_dup_cluster items threshold i k -> items !! k = Some y ->
      (score y < score x)%Z \/ (score y = score x /\ i <= k)) ->
   In x (dedupe_saas items threshold) /\
   (1 < length items ->
    In (i, x) (survivors items (removal_set items threshold)))).
Proof.
  assert (Hsub : dedupe_saas items threshold `sublist_of` items).
  { destruct (Nat.leb_spec (length items) 1) as [Hn|Hn].
    - by rewrite dedupe_saas_small.
    - rewrite dedupe_saas_large by done.
      pose proof (sublist_filter
                    (fun p : nat * SaaSIdeaItem => p.1 ∉ removal_set items threshold)
                    (enumerate items)) as Hf.
      apply (fmap_sublist snd) in Hf.
      change (snd <$> enumerate items) with (map snd (enumerate items)) in Hf.
      by rewrite map_snd_enumerate in Hf. }
  split; [by apply sublist_length|]. split; [done|]. split.
  - intros _. by rewrite survivors_spec, removal_set_spec.
  - intros Hx Hmax.
    assert (Hkeep : In (i, x) (survivors items (removal_set items threshold))).
    { apply survivors_spec. split; [done|]. rewrite removal_set_spec.
      intros (k & x' & y & Hx' & Hy & Hs & Hcase).
      rewrite Hx in Hx'. injection Hx' as <-.
      assert (Hc : same_dup_cluster items threshold i k).
      { apply rst_step. by exists x, y. }
      destruct (Hmax k y Hc Hy) as [Hlt | [Heq Hle]]; lia. }
    split; [|done].
    destruct (Nat.leb_spec (length items) 1) as [Hn|Hn].
    + rewrite dedupe_saas_small by done. apply list_elem_of_In.
      by eapply list_elem_of_lookup_2.
    + rewrite dedupe_saas_large by done. apply in_map_iff. by exists (i, x).
Qed.


(** *** The claims at the sample inputs *)

Import Samples.

(** The chain evaluated: the second and the third title are similar, and
    only the first item is returned. *)
Lemma groomer_chain_similar :
  similar 0.7 (get_ngrams (title (scored "y" "crm for dog groomers app" 10)))
              (get_ngrams (title (scored "z" "crm for dog groomers" 5))) = true.
Proof. vm_compute. reflexivity. Qed.

Lemma groomer_chain_deduped :
  map title (dedupe_saas groomer_chain 0.7%float) = ["the crm for dog groomers app"].
Proof. vm_compute. reflexivity. Qed.

(** C5, as stated, fails at the chain of three titles: the second item is the
    highest-scored member of the duplicate pair it forms with the third, and
    it is removed, being the lower member of the pair it forms with the
    first. *)
Lemma highest_of_pair_removed_cex :
  ~ (forall (items : list SaaSIdeaItem) (threshold : float) (i j : nat)
            (x y : SaaSIdeaItem),
        items !! i = Some x -> items !! j = Some y ->
        similar threshold (get_ngrams (title x)) (get_ngrams (title y)) = true ->
        (score y < score x)%Z ->
        In x (dedupe_saas items threshold)).
Proof.
  intros H.
  assert (Hsc : (score (scored "z" "crm for dog groomers" 5)
                 < score (scored "y" "crm for dog groomers app" 10))%Z)
    by (simpl; lia).
  pose proof (H groomer_chain 0.7%float 1 2 _ _ eq_refl eq_refl
                groomer_chain_similar Hsc) as H'.
  apply (in_map title) in H'. rewrite groomer_chain_deduped in H'.
  destruct H' as [H'|[]].
  apply (f_equal (String.eqb "the crm for dog groomers app")) in H'.
  vm_compute in H'. congruence.
Qed.

(** The amended C5 at the chain: the first item, of the highest score, is
    kept, and it is the only one. *)
Lemma dedupe_saas_keeps_unbeaten_witness :
  In (scored "x" "the crm for dog groomers app" 20)
     (dedupe_saas groomer_chain 0.7%float) /\
  length (dedupe_saas groomer_chain 0.7%float) <= 3.
Proof.
  destruct (dedupe_saas_keeps_unbeaten groomer_chain 0.7%float 0
              (scored "x" "the crm for dog groomers app" 20))
    as (Hlen & _ & _ & Hmax).
  split; [|exact Hlen].
  destruct Hmax as [Hin _]; [reflexivity | | exact Hin].
  intros k y _ Hy.
  destruct k as [|[|[|k]]]; simpl in Hy; [| | |by rewrite lookup_nil in Hy];
    injection Hy as <-; simpl; lia.
Defined.

(** C8 at a list of one item. *)
Lemma dedupe_saas_idempotent_witness :
  dedupe_saas [scored "x" "crm for dog groomers" 5] 0.7%float
  = [scored "x" "crm for dog groomers" 5].
Proof.
  destruct (dedupe_saas_idempotent [scored "x" "crm for dog groomers" 5] 0.7%float)
    as (_ & _ & H).
  apply H. simpl. lia.
Defined.

End DedupeProps.

(* ===================================================================== *)
(** ** Properties of the sorter *)
(* ===================================================================== *)

Module SortProps.
Import Py Schema Score Parsers.

(** *** The order of the keys *)

Lemma ascii_compare_refl (a : ascii) : Ascii.compare a a = Eq.
Proof. unfold Ascii.compare. apply N.compare_refl. Qed.

Lemma ascii_compare_lt_trans (a b c : ascii) :
  Ascii.compare a b = Lt -> Ascii.compare b c = Lt -> Ascii.compare a c = Lt.
Proof. unfold Ascii.compare. rewrite !N.compare_lt_iff. lia. Qed.

Lemma string_compare_refl (s : string) : String.compare s s = Eq.
Proof. induction s as [|a s IH]; simpl; [done|]. by rewrite ascii_compare_refl. Qed.

Lemma string_compare_lt_trans (s1 s2 s3 : string) :
  String.compare s1 s2 = Lt -> String.compare s2 s3 = Lt ->
  String.compare s1 s3 = Lt.
Proof.
  revert s2 s3. induction s1 as [|a s1 IH]; intros [|b s2] [|c s3]; simpl; try done.
  destruct (Ascii.compare a b) eqn:Eab; try done;
    destruct (Ascii.compare b c) eqn:Ebc; try done.
  - apply Ascii.compare_eq_iff in Eab as ->. apply Ascii.compare_eq_iff in Ebc as ->.
    rewrite ascii_compare_refl. apply IH.
  - apply Ascii.compare_eq_iff in Eab as ->. by rewrite Ebc.
  - apply Ascii.compare_eq_iff in Ebc as ->. by rewrite Eab.
  - by rewrite (ascii_compare_lt_trans _ _ _ Eab Ebc).
Qed.

Lemma string_ltb_irrefl (s : string) : String.ltb s s = false.
Proof. unfold String.ltb. by rewrite string_compare_refl. Qed.

Lemma string_ltb_trans (s1 s2 s3 : string) :
  String.ltb s1 s2 = true -> String.ltb s2 s3 = true -> String.ltb s1 s3 = true.
Proof.
  unfold String.ltb.
  destruct (String.compare s1 s2) eqn:E1; try done.
  destruct (String.compare s2 s3) eqn:E2; try done.
  by rewrite (string_compare_lt_trans _ _ _ E1 E2).
Qed.

Lemma string_ltb_total (s1 s2 : string) :
  String.ltb s1 s2 = false -> String.ltb s2 s1 = false -> s1 = s2.
Proof.
  unfold String.ltb. rewrite (String.compare_antisym s2 s1).
  destruct (String.compare s1 s2) eqn:E; simpl; intros H1 H2; try discriminate.
  by apply String.compare_eq_iff.
Qed.

Lemma string_ltb_asym (s1 s2 : string) :
  String.ltb s1 s2 = true -> String.ltb s2 s1 = false.
Proof.
  unfold String.ltb. rewrite (String.compare_antisym s2 s1).
  by destruct (String.compare s1 s2).
Qed.

(** [key_ltb] compares the four components in turn. *)
Lemma key_ltb_spec (s1 d1 p1 s2 d2 p2 : Z) (t1 t2 : string) :
  key_ltb (s1, d1, p1, t1) (s2, d2, p2, t2) = true <->
  (s1 < s2)%Z \/
  (s1 = s2 /\ ((d1 < d2)%Z \/
  (d1 = d2 /\ ((p1 < p2)%Z \/
  (p1 = p2 /\ String.ltb t1 t2 = true))))).
Proof.
  unfold key_ltb.
  destruct (Z.eqb_spec s1 s2); simpl; [|rewrite Z.ltb_lt; lia].
  destruct (Z.eqb_spec d1 d2); simpl; [|rewrite Z.ltb_lt; lia].
  destruct (Z.eqb_spec p1 p2); simpl; [|rewrite Z.ltb_lt; lia].
  split; [auto 10 | lia || intros [?|[_ [?|[_ [?|[_ ?]]]]]]; (lia || done)].
Qed.

Lemma key_ltb_irrefl k : key_ltb k k = false.
Proof.
  destruct k as [[[s d] p] t]. apply not_true_is_false. rewrite key_ltb_spec.
  rewrite string_ltb_irrefl. intros [?|[_ [?|[_ [?|[_ ?]]]]]]; (lia || done).
Qed.

Lemma key_ltb_trans k1 k2 k3 :
  key_ltb k1 k2 = true -> key_ltb k2 k3 = true -> key_ltb k1 k3 = true.
Proof.
  destruct k1 as [[[s1 d1] p1] t1], k2 as [[[s2 d2] p2] t2], k3 as [[[s3 d3] p3] t3].
  rewrite !key_ltb_spec.
  intros [?|[-> [?|[-> [?|[-> H1]]]]]] [?|[? [?|[? [?|[? H2]]]]]]; subst; try lia.
  right. split; [done|]. right. split; [done|]. right. split; [done|].
  by eapply string_ltb_trans.
Qed.

Lemma key_ltb_asym k1 k2 : key_ltb k1 k2 = true -> key_ltb k2 k1 = false.
Proof.
  intros H. apply not_true_is_false. intros H'.
  pose proof (key_ltb_trans _ _ _ H H') as Hk. by rewrite key_ltb_irrefl in Hk.
Qed.

(** Keys that are not below one another are equal. *)
Lemma key_ltb_total k1 k2 :
  key_ltb k1 k2 = false -> key_ltb k2 k1 = false -> k1 = k2.
Proof.
  destruct k1 as [[[s1 d1] p1] t1], k2 as [[[s2 d2] p2] t2].
  intros H1 H2. apply not_true_iff_false in H1, H2. rewrite key_ltb_spec in H1, H2.
  assert (s1 = s2) as -> by lia. assert (d1 = d2) as -> by lia.
  assert (p1 = p2) as -> by lia.
  f_equal. apply string_ltb_total; apply not_true_is_false; intros ?.
  - apply H1. auto 10.
  - apply H2. auto 10.
Qed.

Lemma key_le_trans k1 k2 k3 : key_le k1 k2 -> key_le k2 k3 -> key_le k1 k3.
Proof.
  unfold key_le. intros H12 H23. apply not_true_is_false. intros H31.
  destruct (key_ltb k1 k2) eqn:E.
  - pose proof (key_ltb_trans _ _ _ H31 E) as H. by rewrite H in H23.
  - pose proof (key_ltb_total _ _ E H12) as ->. by rewrite H31 in H23.
Qed.


(** *** The insertion sort *)

Section Insertion.
Context {A : Type}.

Lemma insert_keyed_perm (x : (Z * Z * Z * string) * A) l : Permutation (x :: l) (insert_keyed x l).
Proof.
  induction l as [|y l IH]; simpl; [done|].
  destruct (key_ltb y.1 x.1); [|done].
  rewrite <- IH. apply perm_swap.
Qed.

Lemma sorted_keyed_perm (l : list ((Z * Z * Z * string) * A)) : Permutation l (sorted_keyed l).
Proof.
  induction l as [|x l IH]; simpl; [done|].
  rewrite <- insert_keyed_perm. by constructor.
Qed.

Lemma insert_keyed_sorted (x : (Z * Z * Z * string) * A) l :
  StronglySorted (fun p q => key_le p.1 q.1) l ->
  StronglySorted (fun p q => key_le p.1 q.1) (insert_keyed x l).
Proof.
  induction l as [|y l IH]; intros Hl; simpl.
  - repeat constructor.
  - apply StronglySorted_inv in Hl as [Hl Hy].
    destruct (key_ltb y.1 x.1) eqn:E.
    + constructor; [by apply IH|].
      apply Forall_forall. intros z Hz.
      rewrite <- (insert_keyed_perm x l) in Hz.
      apply elem_of_cons in Hz as [->|Hz].
      * unfold key_le. by apply key_ltb_asym.
      * rewrite Forall_forall in Hy. by apply Hy.
    + constructor; [by constructor|].
      constructor; [done|].
      apply Forall_forall. intros z Hz. rewrite Forall_forall in Hy.
      apply key_le_trans with y.1; [done | by apply Hy].
Qed.

Lemma sorted_keyed_sorted (l : list ((Z * Z * Z * string) * A)) :
  StronglySorted (fun p q => key_le p.1 q.1) (sorted_keyed l).
Proof.
  induction l as [|x l IH]; simpl; [constructor | by apply insert_keyed_sorted].
Qed.

(** The elements of one key keep their order. *)
Lemma insert_keyed_stable (x : (Z * Z * Z * string) * A) l k :
  filter (fun p => p.1 = k) (insert_keyed x l) = filter (fun p => p.1 = k) (x :: l).
Proof.
  induction l as [|y l IH]; simpl; [done|].
  destruct (key_ltb y.1 x.1) eqn:E; [|done].
  rewrite filter_cons, IH, !filter_cons.
  destruct (decide (y.1 = k)) as [Hy|Hy], (decide (x.1 = k)) as [Hx|Hx]; try done.
  rewrite Hy, Hx, key_ltb_irrefl in E. done.
Qed.

Lemma sorted_keyed_stable (l : list ((Z * Z * Z * string) * A)) k :
  filter (fun p => p.1 = k) (sorted_keyed l) = filter (fun p => p.1 = k) l.
Proof.
  induction l as [|x l IH]; simpl; [done|].
  by rewrite insert_keyed_stable, !filter_cons, IH.
Qed.

(** A sorted list is returned as it is. *)
Lemma sorted_keyed_fixed (l : list ((Z * Z * Z * string) * A)) :
  StronglySorted (fun p q => key_le p.1 q.1) l -> sorted_keyed l = l.
Proof.
  induction l as [|x l IH]; intros Hl; simpl; [done|].
  apply StronglySorted_inv in Hl as [Hl Hx]. rewrite IH by done.
  destruct l as [|y l]; simpl; [done|].
  apply Forall_inv in Hx. unfold key_le in Hx. by rewrite Hx.
Qed.

End Insertion.

(** *** [int] of a date *)

Lemma digit_facts (c : ascii) :
  is_digit c = true ->
  is_space c = false /\ (code c =? 45) = false /\ (code c =? 43) = false /\
  (code c =? 95) = false.
Proof.
  unfold is_digit, is_space. rewrite andb_true_iff, !Nat.leb_le. intros [H1 H2].
  repeat split.
  - apply orb_false_iff. split; apply andb_false_iff.
    + right. apply Nat.leb_gt. lia.
    + right. apply Nat.leb_gt. lia.
  - apply Nat.eqb_neq. lia.
  - apply Nat.eqb_neq. lia.
  - apply Nat.eqb_neq. lia.
Qed.

(** A date that matches the pattern of the parsers is read by [int] once its
    dashes are removed. *)
Lemma matches_date_int (s : string) :
  matches_date s = true -> is_Some (int_of_str (remove_dashes s)).
Proof.
  unfold matches_date.
  destruct s as [|y1 [|y2 [|y3 [|y4 [|h1 [|m1 [|m2 [|h2 [|d1 [|d2 rest]]]]]]]]]];
    try discriminate.
  rewrite !andb_true_iff.
  intros ((((((((((Hy1 & Hy2) & Hy3) & Hy4) & Hh1) & Hm1) & Hm2) & Hh2) & Hd1) & Hd2) & Hrest).
  destruct (digit_facts _ Hy1) as (Sy1 & Dy1 & Py1 & _).
  destruct (digit_facts _ Hy2) as (Sy2 & Dy2 & _).
  destruct (digit_facts _ Hy3) as (Sy3 & Dy3 & _).
  destruct (digit_facts _ Hy4) as (Sy4 & Dy4 & _).
  destruct (digit_facts _ Hm1) as (Sm1 & Dm1 & _).
  destruct (digit_facts _ Hm2) as (Sm2 & Dm2 & _).
  destruct (digit_facts _ Hd1) as (Sd1 & Dd1 & _).
  destruct (digit_facts _ Hd2) as (Sd2 & Dd2 & _).
  assert (Hr : rest = "" \/ rest = String (ascii_of_nat 10) "").
  { apply orb_true_iff in Hrest as [H|H]; apply String.eqb_eq in H; auto. }
  unfold int_of_str, strip.
  destruct Hr as [-> | ->]; simpl;
    rewrite ?Dy1, ?Dy2, ?Dy3, ?Dy4, ?Hh1, ?Dm1, ?Dm2, ?Hh2, ?Dd1, ?Dd2; simpl;
    rewrite ?Sy1; simpl;
    rewrite ?Sy1, ?Sy2, ?Sy3, ?Sy4, ?Sm1, ?Sm2, ?Sd1, ?Sd2; simpl;
    rewrite ?Py1, ?Dy1; simpl;
    rewrite ?Hy1, ?Hy2, ?Hy3, ?Hy4, ?Hm1, ?Hm2, ?Hd1, ?Hd2; simpl;
    by eexists.
Qed.


(** The number read from a date without its dashes is not negative. *)
Lemma int_digits_nonneg (s : string) (after_digit : bool) (acc n : Z) :
  (0 <= acc)%Z -> int_digits after_digit acc s = Some n -> (0 <= n)%Z.
Proof.
  revert after_digit acc. induction s as [|c s IH]; intros b acc Hacc; simpl.
  - destruct b; [|done]. by intros [= <-].
  - destruct (is_digit c).
    + apply IH. lia.
    + destruct ((code c =? 95) && b); [|done].
      destruct s as [|d s']; [done|]. destruct (is_digit d); [|done].
      by apply IH.
Qed.

Lemma lstrip_remove_dashes_head (s : string) c r :
  lstrip (remove_dashes s) = String c r -> (code c =? 45) = false.
Proof.
  induction s as [|a s IH]; simpl; [done|].
  destruct (code a =? 45) eqn:E; [done|]. simpl.
  destruct (is_space a); [done|]. by intros [= <- _].
Qed.

Lemma rstrip_head (s : string) c r :
  rstrip s = String c r -> exists r', s = String c r'.
Proof.
  destruct s as [|a s]; simpl; [done|].
  destruct (rstrip s); [destruct (is_space a); [done|]|]; intros [= <- _]; by eexists.
Qed.

Lemma int_of_date_nonneg (s : string) (n : Z) :
  int_of_str (remove_dashes s) = Some n -> (0 <= n)%Z.
Proof.
  unfold int_of_str, strip.
  destruct (rstrip (lstrip (remove_dashes s))) as [|c r] eqn:E; [done|].
  destruct (rstrip_head _ _ _ E) as [r' E'].
  rewrite (lstrip_remove_dashes_head _ _ _ E').
  destruct (code c =? 43); by apply int_digits_nonneg.
Qed.

(** The four components of the key of an item. *)
Lemma sort_key_fields it s d p t :
  sort_key it = Some (s, d, p, t) ->
  s = (- score it)%Z /\ (d <= 0)%Z /\ (date it = None -> d = 0%Z) /\
  p = (if String.eqb (source it) "reddit" then 0 else 1)%Z /\ t = title it.
Proof.
  unfold sort_key.
  destruct (int_of_str _) as [n|] eqn:E; simpl; [|done].
  intros [= <- <- <- <-]. apply int_of_date_nonneg in E as Hn.
  repeat split; [lia|]. intros Hd. rewrite Hd in E.
  vm_compute in E. injection E as <-. done.
Qed.

(** The key of an item whose date passed the validation of the parsers. *)
Lemma sort_key_clean_date it :
  clean_date (date it) = date it -> is_Some (sort_key it).
Proof.
  unfold sort_key, clean_date. intros H.
  destruct (date it) as [s|]; [|by eexists].
  destruct (String.eqb s "") eqn:E; [by eexists|].
  destruct (matches_date s) eqn:Em; [|done].
  destruct (matches_date_int s Em) as [n ->]. by eexists.
Qed.

(** *** [sort_items] *)

Lemma combine_keys (items : list SaaSIdeaItem) keys :
  Forall2 (fun x y => sort_key x = Some y) items keys ->
  map snd (combine keys items) = items /\
  Forall (fun p => sort_key p.2 = Some p.1) (combine keys items).
Proof.
  induction 1 as [|x k items keys Hk _ [IH1 IH2]]; simpl; [done|].
  split; [by rewrite IH1 | by constructor].
Qed.

Lemma keyed_fst_snd (ps : list ((Z * Z * Z * string) * SaaSIdeaItem)) :
  combine (map fst ps) (map snd ps) = ps.
Proof. induction ps as [|[k x] ps IH]; simpl; [done | by rewrite IH]. Qed.

Lemma keyed_filter (ps : list ((Z * Z * Z * string) * SaaSIdeaItem)) k :
  Forall (fun p => sort_key p.2 = Some p.1) ps ->
  filter (fun it => sort_key it = Some k) (map snd ps)
  = map snd (filter (fun p => p.1 = k) ps).
Proof.
  induction 1 as [|[k' x] ps Hp _ IH]; simpl; [done|].
  rewrite !filter_cons, IH. simpl in *.
  destruct (decide (sort_key x = Some k)) as [H1|H1], (decide (k' = k)) as [H2|H2];
    try done; congruence.
Qed.

Lemma StronglySorted_lookup_lt {B} (R : B -> B -> Prop) (l : list B) a b x y :
  StronglySorted R l -> a < b -> l !! a = Some x -> l !! b = Some y -> R x y.
Proof.
  intros Hl. revert a b. induction Hl as [|z l Hl IH Hz]; intros a b Hab Ha Hb.
  - by rewrite lookup_nil in Ha.
  - destruct b as [|b]; [lia|]. simpl in Hb. destruct a as [|a]; simpl in Ha.
    + injection Ha as <-. rewrite Forall_forall in Hz. apply Hz.
      by eapply list_elem_of_lookup_2.
    + apply (IH a b); (lia || done).
Qed.

(** What [sort_items] returns, in terms of the keyed list it sorts. *)
Lemma sort_items_keyed items out :
  sort_items items = Some out ->
  exists ps : list ((Z * Z * Z * string) * SaaSIdeaItem),
    out = map snd ps /\
    Permutation items out /\
    StronglySorted (fun p q => key_le p.1 q.1) ps /\
    Forall (fun p => sort_key p.2 = Some p.1) ps /\
    forall k, filter (fun it => sort_key it = Some k) out
              = filter (fun it => sort_key it = Some k) items.
Proof.
  unfold sort_items. intros H.
  destruct (mapM sort_key items) as [keys|] eqn:E; simpl in H; [|done].
  injection H as <-. apply mapM_Some in E.
  destruct (combine_keys _ _ E) as [Hsnd Hall].
  pose proof (sorted_keyed_perm (combine keys items)) as Hperm.
  assert (Hall' : Forall (fun p => sort_key p.2 = Some p.1)
                         (sorted_keyed (combine keys items))).
  { by rewrite <- Hperm. }
  exists (sorted_keyed (combine keys items)).
  split; [done|]. split.
  { rewrite <- Hsnd at 1. by apply Permutation_map. }
  split; [apply sorted_keyed_sorted|]. split; [done|].
  intros k. rewrite keyed_filter by done. rewrite sorted_keyed_stable.
  rewrite <- keyed_filter by done. by rewrite Hsnd.
Qed.

Lemma sort_items_sorted_input (ps : list ((Z * Z * Z * string) * SaaSIdeaItem)) :
  StronglySorted (fun p q => key_le p.1 q.1) ps ->
  Forall (fun p => sort_key p.2 = Some p.1) ps ->
  sort_items (map snd ps) = Some (map snd ps).
Proof.
  intros Hs Hall. unfold sort_items.
  assert (E : mapM sort_key (map snd ps) = Some (map fst ps)).
  { apply mapM_Some. clear Hs. induction Hall as [|[k x] ps Hp _ IH]; simpl.
    - constructor.
    - by constructor. }
  rewrite E. simpl. by rewrite keyed_fst_snd, sorted_keyed_fixed.
Qed.

(** C7 (amended): on a list whose dates [int] can read, [sort_items] returns
    a permutation of the list in which no item has a key below the key of an
    item before it.  The key orders by score descending, then by the number
    of the date descending, an absent date counting as 0, which no date is
    below, then Reddit before the other origin, then by title ascending.
    Two keys neither of which is below the other are equal, which two distinct
    items can have; the items of one key keep the order they had in the input,
    and [sort_items] returns its own output unchanged. *)
Theorem sort_items_sorted_stable (items out : list SaaSIdeaItem) :
  sort_items items = Some out ->
  Permutation items out /\
  (forall a b x y kx ky, a < b -> out !! a = Some x -> out !! b = Some y ->
     sort_key x = Some kx -> sort_key y = Some ky -> key_ltb ky kx = false) /\
  (forall it s d p t, sort_key it = Some (s, d, p, t) ->
     s = (- score it)%Z /\ (d <= 0)%Z /\ (date it = None -> d = 0%Z) /\
     p = (if String.eqb (source it) "reddit" then 0 else 1)%Z /\ t = title it) /\
  (forall s1 d1 p1 t1 s2 d2 p2 t2,
     key_ltb (s1, d1, p1, t1) (s2, d2, p2, t2) = true <->
     (s1 < s2)%Z \/
     (s1 = s2 /\ ((d1 < d2)%Z \/
     (d1 = d2 /\ ((p1 < p2)%Z \/
     (p1 = p2 /\ String.ltb t1 t2 = true)))))) /\
  (forall k1 k2, key_ltb k1 k2 = false -> key_ltb k2 k1 = false -> k1 = k2) /\
  (forall k, filter (fun it => sort_key it = Some k) out
             = filter (fun it => sort_key it = Some k) items) /\
  sort_items out = Some out.
Proof.
  intros H.
  destruct (sort_items_keyed _ _ H) as (ps & -> & Hperm & Hs & Hall & Hstable).
  split; [done|]. split.
  { intros a b x y kx ky Hab Hx Hy Hkx Hky.
    change (map snd ps) with (snd <$> ps) in Hx, Hy.
    rewrite list_lookup_fmap in Hx, Hy.
    destruct (ps !! a) as [[kx' x']|] eqn:Ea; [|done].
    destruct (ps !! b) as [[ky' y']|] eqn:Eb; [|done].
    simpl in Hx, Hy. injection Hx as ->. injection Hy as ->.
    pose proof (Forall_lookup_1 _ _ _ _ Hall Ea) as Ha'.
    pose proof (Forall_lookup_1 _ _ _ _ Hall Eb) as Hb'.
    simpl in Ha', Hb'. rewrite Hkx in Ha'. rewrite Hky in Hb'.
    injection Ha' as ->. injection Hb' as ->.
    apply (StronglySorted_lookup_lt _ _ _ _ _ _ Hs Hab Ea Eb). }
  split; [apply sort_key_fields|].
  split; [intros; apply key_ltb_spec|].
  split; [apply key_ltb_total|].
  split; [done|].
  by apply sort_items_sorted_input.
Qed.

(** C9 (amended): [sort_items] raises exactly when [int] cannot read the date
    of some item, and it returns on every list whose dates passed the
    validation of the parsers: absent, empty, or of the form YYYY-MM-DD. *)
Theorem sort_items_total_on_clean_dates (items : list SaaSIdeaItem) :
  (sort_items items = None <->
   exists it, In it items /\ sort_key it = None) /\
  ((forall it, In it items -> clean_date (date it) = date it) ->
   exists out, sort_items items = Some out).
Proof.
  assert (Hnone : sort_items items = None <->
                  exists it, In it items /\ sort_key it = None).
  { unfold sort_items. split.
    - intros H. destruct (mapM sort_key items) as [keys|] eqn:E; [done|].
      apply mapM_None in E. apply Exists_exists in E as (it & Hin & Hk).
      exists it. split; [by apply list_elem_of_In | done].
    - intros (it & Hin & Hk).
      assert (E : mapM sort_key items = None).
      { apply mapM_None. apply Exists_exists. exists it.
        split; [by apply list_elem_of_In | done]. }
      by rewrite E. }
  split; [done|].
  intros Hclean. destruct (sort_items items) as [out|] eqn:E; [by exists out|].
  destruct (proj1 Hnone eq_refl) as (it & Hin & Hk).
  destruct (sort_key_clean_date it (Hclean it Hin)) as [k Hk']. congruence.
Qed.


(** *** The claims at the sample inputs *)

Import Samples.

Lemma same_title_keys :
  sort_key (dated "a" "crm for dog groomers" None 5)
  = Some ((-5)%Z, 0%Z, 0%Z, "crm for dog groomers") /\
  sort_key (dated "b" "crm for dog groomers" None 5)
  = Some ((-5)%Z, 0%Z, 0%Z, "crm for dog groomers").
Proof. split; vm_compute; reflexivity. Qed.

(** C7, as stated, fails: two items with different ids and the same score,
    date, origin and title have the same key, and neither is below the
    other. *)
Lemma equal_keys_cex :
  ~ (forall (x y : SaaSIdeaItem) kx ky,
        id x <> id y -> sort_key x = Some kx -> sort_key y = Some ky ->
        key_ltb kx ky = true \/ key_ltb ky kx = true).
Proof.
  intros H. destruct same_title_keys as [Ha Hb].
  assert (Hid : id (dated "a" "crm for dog groomers" None 5)
                <> id (dated "b" "crm for dog groomers" None 5)).
  { simpl. intros E. apply (f_equal (String.eqb "a")) in E. vm_compute in E.
    congruence. }
  destruct (H _ _ _ _ Hid Ha Hb) as [E|E]; rewrite key_ltb_irrefl in E; congruence.
Qed.

Lemma three_dated_sorted :
  sort_items [dated "a" "beta" None 5;
              dated "b" "alpha" (Some "2024-05-01") 5;
              dated "c" "gamma" (Some "2024-04-30") 9]
  = Some [dated "c" "gamma" (Some "2024-04-30") 9;
          dated "b" "alpha" (Some "2024-05-01") 5;
          dated "a" "beta" None 5].
Proof. vm_compute. reflexivity. Qed.

(** The amended C7 at three items: the highest score first, then of two items
    of score 5 the one that has a date. *)
Lemma sort_items_sorted_stable_witness :
  Permutation [dated "a" "beta" None 5;
               dated "b" "alpha" (Some "2024-05-01") 5;
               dated "c" "gamma" (Some "2024-04-30") 9]
              [dated "c" "gamma" (Some "2024-04-30") 9;
               dated "b" "alpha" (Some "2024-05-01") 5;
               dated "a" "beta" None 5] /\
  sort_items [dated "c" "gamma" (Some "2024-04-30") 9;
              dated "b" "alpha" (Some "2024-05-01") 5;
              dated "a" "beta" None 5]
  = Some [dated "c" "gamma" (Some "2024-04-30") 9;
          dated "b" "alpha" (Some "2024-05-01") 5;
          dated "a" "beta" None 5].
Proof.
  destruct (sort_items_sorted_stable _ _ three_dated_sorted)
    as (Hperm & _ & _ & _ & _ & _ & Hidem).
  split; [exact Hperm | exact Hidem].
Defined.

Lemma free_text_date_raises :
  sort_items [dated "a" "crm for dog groomers" (Some "last week") 5] = None.
Proof. vm_compute. reflexivity. Qed.

(** C9, as stated, fails: on an item whose date is ["last week"],
    [sort_items] raises the [ValueError] of [int]. *)
Lemma sort_items_raises_cex :
  ~ (forall items : list SaaSIdeaItem, is_Some (sort_items items)).
Proof.
  intros H.
  destruct (H [dated "a" "crm for dog groomers" (Some "last week") 5]) as [out E].
  rewrite free_text_date_raises in E. congruence.
Qed.

Lemma clean_dates_sample (it : SaaSIdeaItem) :
  In it [dated "a" "beta" None 5; dated "b" "alpha" (Some "2024-05-01") 5;
         dated "c" "gamma" (Some "") 9] ->
  clean_date (date it) = date it.
Proof. intros [<-|[<-|[<-|[]]]]; vm_compute; reflexivity. Qed.

(** The amended C9 at three items with an absent, a well-formed and an empty
    date. *)
Lemma sort_items_total_on_clean_dates_witness :
  exists out,
    sort_items [dated "a" "beta" None 5; dated "b" "alpha" (Some "2024-05-01") 5;
                dated "c" "gamma" (Some "") 9] = Some out.
Proof.
  destruct (sort_items_total_on_clean_dates
              [dated "a" "beta" None 5; dated "b" "alpha" (Some "2024-05-01") 5;
               dated "c" "gamma" (Some "") 9]) as [_ H].
  exact (H clean_dates_sample).
Defined.

End SortProps.

(* ===================================================================== *)
(** ** Properties of the clustering *)
(* ===================================================================== *)

Module ClusterProps.
Import Py Schema IdeaCluster.

(** *** The forest *)

Lemma rank_below_n n parent rank i ri :
  uf_ok n parent rank -> rank !! i = Some ri -> ri < n.
Proof.
  intros Hok Hi.
  assert (Hincl : incl (seq 0 (S ri)) rank).
  { intros k Hk. apply in_seq in Hk.
    destruct (decide (k = ri)) as [->|Hne].
    - apply list_elem_of_In. by eapply list_elem_of_lookup_2.
    - destruct (uf_rank_closed _ _ _ Hok i ri k Hi) as [j Hj]; [lia|].
      apply list_elem_of_In. by eapply list_elem_of_lookup_2. }
  pose proof (NoDup_incl_length (seq_NoDup (S ri) 0) Hincl) as Hlen.
  rewrite length_seq, (uf_rank_length _ _ _ Hok) in Hlen. lia.
Qed.

Lemma reaches_root_stays parent r r' :
  parent !! r = Some r -> reaches parent r r' -> r' = r.
Proof. intros Hr H. destruct H as [|i p r' Hp Hne _]; [done | congruence]. Qed.

Lemma is_root_of_unique parent i r1 r2 :
  is_root_of parent i r1 -> is_root_of parent i r2 -> r1 = r2.
Proof.
  intros [H1 Hr1] [H2 Hr2]. induction H1 as [i|i p r1 Hp Hne H1 IH].
  - symmetry. by apply (reaches_root_stays parent i).
  - destruct H2 as [i|i p' r2 Hp' Hne' H2]; [congruence|].
    rewrite Hp in Hp'. injection Hp' as <-. by apply IH.
Qed.

Lemma is_root_of_bound n parent rank i r :
  uf_ok n parent rank -> is_root_of parent i r -> i < n /\ r < n.
Proof.
  intros Hok [H Hr].
  assert (r < n) by (rewrite <- (uf_parent_length _ _ _ Hok); by eapply lookup_lt_Some).
  split; [|done]. destruct H as [|i p r Hp _ _]; [done|].
  rewrite <- (uf_parent_length _ _ _ Hok). by eapply lookup_lt_Some.
Qed.

Lemma is_root_of_parent parent i p r :
  parent !! i = Some p -> is_root_of parent p r -> is_root_of parent i r.
Proof.
  intros Hp [H Hr]. split; [|done].
  destruct (decide (p = i)) as [->|Hne]; [done|]. by eapply reaches_up.
Qed.

(** [chase] stops at the representative when it has fuel for the ranks that
    are left above [i]. *)
Lemma chase_is_root n parent rank fuel i ri :
  uf_ok n parent rank -> rank !! i = Some ri -> n - ri <= fuel ->
  is_root_of parent i (chase fuel parent i).
Proof.
  intros Hok. revert i ri. induction fuel as [|fuel IH]; intros i ri Hi Hfuel.
  - pose proof (rank_below_n _ _ _ _ _ Hok Hi). lia.
  - simpl.
    assert (Hin : i < n).
    { rewrite <- (uf_rank_length _ _ _ Hok). by eapply lookup_lt_Some. }
    destruct (lookup_lt_is_Some_2 parent i) as [p Hp];
      [by rewrite (uf_parent_length _ _ _ Hok)|].
    rewrite Hp. destruct (Nat.eqb_spec p i) as [->|Hne].
    + split; [constructor | done].
    + pose proof (uf_parent_bound _ _ _ Hok _ _ Hp) as Hpn.
      destruct (lookup_lt_is_Some_2 rank p) as [rp Hrp];
        [by rewrite (uf_rank_length _ _ _ Hok)|].
      pose proof (uf_rank_grows _ _ _ Hok _ _ _ _ Hp Hne Hi Hrp).
      apply (is_root_of_parent _ _ _ _ Hp). apply (IH p rp Hrp). lia.
Qed.

Lemma is_root_of_exists n parent rank i :
  uf_ok n parent rank -> i < n -> exists r, is_root_of parent i r.
Proof.
  intros Hok Hi.
  destruct (lookup_lt_is_Some_2 rank i) as [ri Hri];
    [by rewrite (uf_rank_length _ _ _ Hok)|].
  exists (chase n parent i). apply (chase_is_root n _ rank _ _ ri); (done || lia).
Qed.

(** *** One step of [_find_root]: [parent[i] = parent[parent[i]]] *)

Section Halving.
Variables (n : nat) (parent rank : list nat) (i p g : nat).
Hypothesis Hok : uf_ok n parent rank.
Hypothesis Hp : parent !! i = Some p.
Hypothesis Hne : p <> i.
Hypothesis Hg : parent !! p = Some g.

Lemma halving_rank ri rg :
  rank !! i = Some ri -> rank !! g = Some rg -> ri < rg.
Proof.
  intros Hri Hrg.
  pose proof (uf_parent_bound _ _ _ Hok _ _ Hp) as Hpn.
  destruct (lookup_lt_is_Some_2 rank p) as [rp Hrp];
    [by rewrite (uf_rank_length _ _ _ Hok)|].
  pose proof (uf_rank_grows _ _ _ Hok _ _ _ _ Hp Hne Hri Hrp).
  destruct (decide (g = p)) as [->|Hgp]; [congruence|].
  pose proof (uf_rank_grows _ _ _ Hok _ _ _ _ Hg Hgp Hrp Hrg). lia.
Qed.

Lemma halving_neq : g <> i.
Proof.
  intros Heq.
  assert (Hin : i < n).
  { rewrite <- (uf_parent_length _ _ _ Hok). by eapply lookup_lt_Some. }
  destruct (lookup_lt_is_Some_2 rank i) as [ri Hri];
    [by rewrite (uf_rank_length _ _ _ Hok)|].
  assert (Hrg : rank !! g = Some ri) by (by rewrite Heq).
  pose proof (halving_rank ri ri Hri Hrg). lia.
Qed.

Lemma halving_ok : uf_ok n (<[i := g]> parent) rank.
Proof.
  constructor.
  - rewrite length_insert. apply Hok.
  - apply Hok.
  - intros j q Hq. destruct (decide (j = i)) as [->|Hji].
    + rewrite list_lookup_insert_eq in Hq by (by eapply lookup_lt_Some).
      injection Hq as <-. by apply (uf_parent_bound _ _ _ Hok p).
    + rewrite list_lookup_insert_ne in Hq by done.
      by apply (uf_parent_bound _ _ _ Hok j).
  - intros j q rj rq Hq Hqj Hrj Hrq. destruct (decide (j = i)) as [->|Hji].
    + rewrite list_lookup_insert_eq in Hq by (by eapply lookup_lt_Some).
      injection Hq as <-. by apply halving_rank.
    + rewrite list_lookup_insert_ne in Hq by done.
      by apply (uf_rank_grows _ _ _ Hok j q).
  - apply Hok.
Qed.

Lemma halving_root_iff r :
  <[i := g]> parent !! r = Some r <-> parent !! r = Some r.
Proof.
  destruct (decide (r = i)) as [->|Hri].
  - rewrite list_lookup_insert_eq by (by eapply lookup_lt_Some).
    split; intros H; [|congruence].
    injection H as H. by destruct halving_neq.
  - by rewrite list_lookup_insert_ne.
Qed.

Lemma halving_reaches_back j r :
  reaches (<[i := g]> parent) j r -> reaches parent j r.
Proof.
  induction 1 as [j|j q r Hq Hqj _ IH]; [constructor|].
  destruct (decide (j = i)) as [->|Hji].
  - rewrite list_lookup_insert_eq in Hq by (by eapply lookup_lt_Some).
    injection Hq as <-.
    apply (reaches_up _ _ p); [done | done |].
    destruct (decide (g = p)) as [->|Hgp]; [done|].
    by apply (reaches_up _ _ g).
  - rewrite list_lookup_insert_ne in Hq by done. by apply (reaches_up _ _ q).
Qed.

(** The step changes no representative. *)
Lemma halving_roots j r :
  is_root_of (<[i := g]> parent) j r <-> is_root_of parent j r.
Proof.
  split.
  - intros [H Hr]. split; [by apply halving_reaches_back | by apply halving_root_iff].
  - intros H. destruct (is_root_of_bound _ _ _ _ _ Hok H) as [Hj _].
    destruct (is_root_of_exists _ _ _ j halving_ok Hj) as [r' Hr'].
    assert (Hback : is_root_of parent j r').
    { destruct Hr' as [H' Hr']. split;
        [by apply halving_reaches_back | by apply halving_root_iff]. }
    by rewrite (is_root_of_unique _ _ _ _ H Hback).
Qed.

End Halving.

(** *** [_find_root] *)

(** With fuel for the ranks that are left above [i], [_find_root] returns the
    representative of [i] and a [parent] with the same representatives. *)
Lemma find_root_spec n parent rank fuel i ri :
  uf_ok n parent rank -> rank !! i = Some ri -> n - ri <= fuel ->
  exists parent' r,
    _find_root fuel parent i = Some (parent', r) /\
    is_root_of parent i r /\
    uf_ok n parent' rank /\
    forall j r', is_root_of parent' j r' <-> is_root_of parent j r'.
Proof.
  revert parent i ri. induction fuel as [|fuel IH]; intros parent i ri Hok Hi Hfuel.
  - pose proof (rank_below_n _ _ _ _ _ Hok Hi). lia.
  - simpl.
    assert (Hin : i < n).
    { rewrite <- (uf_rank_length _ _ _ Hok). by eapply lookup_lt_Some. }
    destruct (lookup_lt_is_Some_2 parent i) as [p Hp];
      [by rewrite (uf_parent_length _ _ _ Hok)|].
    rewrite Hp. simpl. destruct (Nat.eqb_spec p i) as [->|Hne].
    + exists parent, i. split; [done|]. split; [|split; [done|]].
      * split; [apply reaches_here | done].
      * done.
    + pose proof (uf_parent_bound _ _ _ Hok _ _ Hp) as Hpn.
      destruct (lookup_lt_is_Some_2 parent p) as [g Hg];
        [by rewrite (uf_parent_length _ _ _ Hok)|].
      rewrite Hg. simpl.
      pose proof (uf_parent_bound _ _ _ Hok _ _ Hg) as Hgn.
      destruct (lookup_lt_is_Some_2 rank g) as [rg Hrg];
        [by rewrite (uf_rank_length _ _ _ Hok)|].
      pose proof (halving_rank n parent rank i p g Hok Hp Hne Hg _ _ Hi Hrg) as Hlt.
      pose proof (halving_ok n parent rank i p g Hok Hp Hne Hg) as Hok'.
      destruct (IH _ g rg Hok' Hrg) as (parent' & r & Hf & Hr & Hok'' & Hroots);
        [lia|].
      exists parent', r. split; [done|]. split; [|split; [done|]].
      * apply (halving_roots n parent rank i p g Hok Hp Hne Hg) in Hr.
        apply (is_root_of_parent _ _ _ _ Hp). by apply (is_root_of_parent _ _ _ _ Hg).
      * intros j r'. rewrite Hroots.
        apply (halving_roots n parent rank i p g Hok Hp Hne Hg).
Qed.


(** *** The link of [_union]: [parent[rb] = ra] *)

Section Link.
Variables (n : nat) (parent rank : list nat) (ra rb ka kb : nat).
Hypothesis Hok : uf_ok n parent rank.
Hypothesis Hra : parent !! ra = Some ra.
Hypothesis Hrb : parent !! rb = Some rb.
Hypothesis Hab : ra <> rb.
Hypothesis Hka : rank !! ra = Some ka.
Hypothesis Hkb : rank !! rb = Some kb.
Hypothesis Hle : kb <= ka.

Let parent' := <[rb := ra]> parent.
Let rank' := if ka =? kb then <[ra := ka + 1]> rank else rank.

Lemma link_rank_ra : exists ka', rank' !! ra = Some ka' /\ kb < ka' /\ ka <= ka'.
Proof.
  unfold rank'. destruct (Nat.eqb_spec ka kb) as [Heq|Hne].
  - exists (ka + 1). split; [|lia].
    apply list_lookup_insert_eq. by eapply lookup_lt_Some.
  - exists ka. split; [done | lia].
Qed.

Lemma link_rank_other j : j <> ra -> rank' !! j = rank !! j.
Proof.
  intros Hj. unfold rank'. destruct (ka =? kb); [|done].
  by rewrite list_lookup_insert_ne.
Qed.

Lemma link_rank_mono j rj :
  rank !! j = Some rj -> exists rj', rank' !! j = Some rj' /\ rj <= rj'.
Proof.
  intros Hj. destruct (decide (j = ra)) as [->|Hne].
  - destruct link_rank_ra as (ka' & Hka' & Hlt & Hmono). exists ka'. split; [done|].
    assert (rj = ka) by congruence. lia.
  - exists rj. by rewrite link_rank_other.
Qed.

Lemma link_ok : uf_ok n parent' rank'.
Proof.
  constructor.
  - unfold parent'. rewrite length_insert. apply Hok.
  - unfold rank'. destruct (ka =? kb); [rewrite length_insert|]; apply Hok.
  - intros j q Hq. unfold parent' in Hq. destruct (decide (j = rb)) as [->|Hj].
    + rewrite list_lookup_insert_eq in Hq by (by eapply lookup_lt_Some).
      injection Hq as <-. by apply (uf_parent_bound _ _ _ Hok ra).
    + rewrite list_lookup_insert_ne in Hq by done.
      by apply (uf_parent_bound _ _ _ Hok j).
  - intros j q rj rq Hq Hqj Hrj Hrq. unfold parent' in Hq.
    destruct (decide (j = rb)) as [->|Hj].
    + rewrite list_lookup_insert_eq in Hq by (by eapply lookup_lt_Some).
      injection Hq as <-. rewrite link_rank_other in Hrj by done.
      destruct link_rank_ra as (ka' & Hka' & Hlt & _).
      assert (rj = kb) by congruence. assert (rq = ka') by congruence. lia.
    + rewrite list_lookup_insert_ne in Hq by done.
      assert (Hjra : j <> ra) by (intros ->; congruence).
      rewrite link_rank_other in Hrj by done.
      assert (Hqn : q < n) by (by apply (uf_parent_bound _ _ _ Hok j)).
      destruct (lookup_lt_is_Some_2 rank q) as [rq0 Hrq0];
        [by rewrite (uf_rank_length _ _ _ Hok)|].
      destruct (link_rank_mono q rq0 Hrq0) as (rq' & Hrq' & Hmono).
      pose proof (uf_rank_grows _ _ _ Hok _ _ _ _ Hq Hqj Hrj Hrq0).
      assert (rq = rq') by congruence. lia.
  - intros j rj k Hrj Hk.
    assert (Hold : forall k', k' <= ka -> exists j', rank' !! j' = Some k').
    { intros k' Hk'. destruct (decide (k' = ka)) as [Heq|Hne].
      - rewrite Heq. unfold rank'. destruct (Nat.eqb_spec ka kb) as [Heq'|Hne'].
        + exists rb. rewrite list_lookup_insert_ne by done. by rewrite Heq'.
        + by exists ra.
      - destruct (uf_rank_closed _ _ _ Hok ra ka k' Hka) as [j' Hj']; [lia|].
        exists j'. rewrite link_rank_other; [done|]. intros ->. congruence. }
    destruct (decide (j = ra)) as [->|Hne].
    + unfold rank' in Hrj. destruct (Nat.eqb_spec ka kb) as [Heq|Hne'].
      * rewrite list_lookup_insert_eq in Hrj by (by eapply lookup_lt_Some).
        assert (rj = ka + 1) by congruence. apply Hold. lia.
      * assert (rj = ka) by congruence. apply Hold. lia.
    + rewrite link_rank_other in Hrj by done.
      destruct (uf_rank_closed _ _ _ Hok j rj k Hrj Hk) as [j' Hj'].
      destruct (decide (j' = ra)) as [->|Hne'].
      * assert (k = ka) by congruence. apply Hold. lia.
      * exists j'. by rewrite link_rank_other.
Qed.

Lemma link_root_iff r :
  parent' !! r = Some r <-> parent !! r = Some r /\ r <> rb.
Proof.
  unfold parent'. destruct (decide (r = rb)) as [->|Hr].
  - rewrite list_lookup_insert_eq by (by eapply lookup_lt_Some).
    split; [intros [= ?]; done | intros [_ ?]; done].
  - rewrite list_lookup_insert_ne by done. split; [done | by intros [? _]].
Qed.

Lemma link_reaches j r :
  reaches parent j r -> parent !! r = Some r ->
  reaches parent' j (if decide (r = rb) then ra else r).
Proof.
  induction 1 as [j|j q r Hq Hqj _ IH]; intros Hr.
  - destruct (decide (j = rb)) as [->|Hj]; [|constructor].
    apply (reaches_up _ _ ra); [|done|constructor].
    unfold parent'. apply list_lookup_insert_eq. by eapply lookup_lt_Some.
  - apply (reaches_up _ _ q); [|done|by apply IH].
    unfold parent'. rewrite list_lookup_insert_ne; [done|]. intros ->. congruence.
Qed.

Lemma link_root_of j r :
  is_root_of parent j r ->
  is_root_of parent' j (if decide (r = rb) then ra else r).
Proof.
  intros [H Hr]. split; [by apply link_reaches|].
  apply link_root_iff. destruct (decide (r = rb)) as [->|Hne]; done.
Qed.

(** The link moves the set of [rb] under [ra] and changes no other
    representative. *)
Lemma link_roots j r :
  is_root_of parent' j r <->
  exists r0, is_root_of parent j r0 /\ r = (if decide (r0 = rb) then ra else r0).
Proof.
  split.
  - intros H. destruct (is_root_of_bound _ _ _ _ _ link_ok H) as [Hj _].
    destruct (is_root_of_exists _ _ _ j Hok Hj) as [r0 Hr0].
    exists r0. split; [done|].
    apply (is_root_of_unique parent' j); [done | by apply link_root_of].
  - intros (r0 & Hr0 & ->). by apply link_root_of.
Qed.

End Link.


(** *** [_union] *)

Lemma same_set_roots parent i j ri rj :
  is_root_of parent i ri -> is_root_of parent j rj ->
  (same_set parent i j <-> ri = rj).
Proof.
  intros Hi Hj. split.
  - intros (r & Hi' & Hj').
    rewrite (is_root_of_unique _ _ _ _ Hi Hi'). by apply (is_root_of_unique parent j).
  - intros ->. by exists rj.
Qed.

Lemma same_set_iff_roots parent parent' :
  (forall j r, is_root_of parent' j r <-> is_root_of parent j r) ->
  forall i j, same_set parent' i j <-> same_set parent i j.
Proof.
  intros H i j. unfold same_set. split; intros (r & Hi & Hj); exists r;
    split; by apply H.
Qed.

(** [_union] returns, and it merges the sets of [a] and [b]: two indices are
    in one set afterwards exactly when they were, or when one was with [a]
    and the other with [b]. *)
Lemma union_spec n parent rank fuel a b :
  uf_ok n parent rank -> a < n -> b < n -> n <= fuel ->
  exists parent' rank',
    _union fuel (parent, rank) a b = Some (parent', rank') /\
    uf_ok n parent' rank' /\
    forall i j,
      same_set parent' i j <->
      same_set parent i j \/
      (same_set parent i a /\ same_set parent b j) \/
      (same_set parent i b /\ same_set parent a j).
Proof.
  intros Hok Ha Hb Hfuel. unfold _union.
  destruct (lookup_lt_is_Some_2 rank a) as [ia Hia];
    [by rewrite (uf_rank_length _ _ _ Hok)|].
  destruct (find_root_spec n parent rank fuel a ia Hok Hia)
    as (parent1 & ra & -> & Hra & Hok1 & Hroots1); [lia|]. simpl.
  destruct (lookup_lt_is_Some_2 rank b) as [ib Hib];
    [by rewrite (uf_rank_length _ _ _ Hok)|].
  destruct (find_root_spec n parent1 rank fuel b ib Hok1 Hib)
    as (parent2 & rb & -> & Hrb1 & Hok2 & Hroots2); [lia|]. simpl.
  assert (Hroots : forall j r, is_root_of parent2 j r <-> is_root_of parent j r).
  { intros j r. by rewrite Hroots2, Hroots1. }
  assert (Hrb : is_root_of parent b rb) by (by apply Hroots1).
  assert (Hsame := same_set_iff_roots _ _ Hroots).
  (* what being with [a] or [b] means in terms of representatives *)
  assert (Hcases : forall i j ri rj,
            is_root_of parent i ri -> is_root_of parent j rj ->
            (same_set parent i j \/
             (same_set parent i a /\ same_set parent b j) \/
             (same_set parent i b /\ same_set parent a j)) <->
            (ri = rj \/ (ri = ra /\ rb = rj) \/ (ri = rb /\ ra = rj))).
  { intros i j ri rj Hi Hj.
    rewrite (same_set_roots _ _ _ _ _ Hi Hj), (same_set_roots _ _ _ _ _ Hi Hra),
      (same_set_roots _ _ _ _ _ Hrb Hj), (same_set_roots _ _ _ _ _ Hi Hrb),
      (same_set_roots _ _ _ _ _ Hra Hj). done. }
  assert (Hbound : forall i j,
            (same_set parent i j \/
             (same_set parent i a /\ same_set parent b j) \/
             (same_set parent i b /\ same_set parent a j)) ->
            exists ri rj, is_root_of parent i ri /\ is_root_of parent j rj).
  { intros i j [(r & Hi & Hj) | [[(r & Hi & _) (r' & _ & Hj)] | [(r & Hi & _) (r' & _ & Hj)]]];
      by eexists _, _. }
  destruct (Nat.eqb_spec ra rb) as [Heq|Hne].
  - exists parent2, rank. split; [done|]. split; [done|].
    intros i j. rewrite Hsame. split; [by left|]. intros H.
    destruct (Hbound i j H) as (ri & rj & Hi & Hj).
    apply (Hcases i j ri rj Hi Hj) in H. apply (same_set_roots _ _ _ _ _ Hi Hj).
    destruct H as [?|[[? ?]|[? ?]]]; congruence.
  - assert (Hra2 : parent2 !! ra = Some ra) by (apply Hroots in Hra; apply Hra).
    assert (Hrb2 : parent2 !! rb = Some rb) by (apply Hroots in Hrb; apply Hrb).
    destruct (lookup_lt_is_Some_2 rank ra) as [ka Hka].
    { rewrite (uf_rank_length _ _ _ Hok). by apply (is_root_of_bound _ _ _ _ _ Hok Hra). }
    destruct (lookup_lt_is_Some_2 rank rb) as [kb Hkb].
    { rewrite (uf_rank_length _ _ _ Hok). by apply (is_root_of_bound _ _ _ _ _ Hok Hrb). }
    rewrite Hka, Hkb. simpl.
    assert (Hlink : forall big small kbig ksmall,
              parent2 !! big = Some big -> parent2 !! small = Some small ->
              big <> small -> rank !! big = Some kbig -> rank !! small = Some ksmall ->
              ksmall <= kbig ->
              ((big = ra /\ small = rb) \/ (big = rb /\ small = ra)) ->
              uf_ok n (<[small := big]> parent2)
                      (if kbig =? ksmall then <[big := kbig + 1]> rank else rank) /\
              forall i j,
                same_set (<[small := big]> parent2) i j <->
                same_set parent i j \/
                (same_set parent i a /\ same_set parent b j) \/
                (same_set parent i b /\ same_set parent a j)).
    { intros big small kbig ksmall Hbig Hsmall Hbs Hkbig Hksmall Hle Hwhich.
      split; [by apply (link_ok n parent2 rank big small kbig ksmall)|].
      intros i j.
      pose proof (link_roots n parent2 rank big small kbig ksmall
                    Hok2 Hbig Hsmall Hbs Hkbig Hksmall Hle) as Hl.
      split.
      - intros (r & Hi & Hj).
        apply Hl in Hi as (ri & Hi & Eri). apply Hl in Hj as (rj & Hj & Erj).
        apply Hroots in Hi, Hj. apply (Hcases i j ri rj Hi Hj).
        destruct (decide (ri = small)), (decide (rj = small)), Hwhich as [[? ?]|[? ?]];
          subst; auto.
      - intros H. destruct (Hbound i j H) as (ri & rj & Hi & Hj).
        apply (Hcases i j ri rj Hi Hj) in H.
        exists (if decide (ri = small) then big else ri). split; apply Hl.
        + exists ri. split; [by apply Hroots | done].
        + exists rj. split; [by apply Hroots|].
          destruct (decide (ri = small)), (decide (rj = small)),
            Hwhich as [[? ?]|[? ?]], H as [?|[[? ?]|[? ?]]]; subst; congruence. }
    destruct (Nat.ltb_spec ka kb) as [Hlt|Hge].
    + rewrite Hkb, Hka. simpl.
      destruct (Hlink rb ra kb ka) as [Hok3 Hsets]; try done; [lia | by right|].
      by eexists _, _.
    + rewrite Hka, Hkb. simpl.
      destruct (Hlink ra rb ka kb) as [Hok3 Hsets]; try done; [by left|].
      by eexists _, _.
Qed.


(** *** The loops over the pairs *)

(** The closure of a list of pairs grows with one pair as one union does. *)
Lemma closure_snoc (ps : list (nat * nat)) a b x y :
  clos_refl_sym_trans nat (fun u v => In (u, v) (ps ++ [(a, b)])) x y <->
  clos_refl_sym_trans nat (fun u v => In (u, v) ps) x y \/
  (clos_refl_sym_trans nat (fun u v => In (u, v) ps) x a /\
   clos_refl_sym_trans nat (fun u v => In (u, v) ps) b y) \/
  (clos_refl_sym_trans nat (fun u v => In (u, v) ps) x b /\
   clos_refl_sym_trans nat (fun u v => In (u, v) ps) a y).
Proof.
  set (E := clos_refl_sym_trans nat (fun u v => In (u, v) ps)).
  set (E' := clos_refl_sym_trans nat (fun u v => In (u, v) (ps ++ [(a, b)]))).
  assert (Hrefl : forall u, E u u) by (intros; apply rst_refl).
  assert (Hsym : forall u v, E u v -> E v u) by (intros; by apply rst_sym).
  assert (Htrans : forall u v w, E u v -> E v w -> E u w)
    by (intros u v w ? ?; by apply rst_trans with v).
  split.
  - induction 1 as [u v Huv|u|u v _ IH|u v w _ IH1 _ IH2].
    + apply in_app_iff in Huv as [Huv|[[= -> ->]|[]]].
      * left. by apply rst_step.
      * right. left. split; apply Hrefl.
    + left. apply Hrefl.
    + destruct IH as [?|[[? ?]|[? ?]]]; auto 6.
    + destruct IH1 as [?|[[? ?]|[? ?]]], IH2 as [?|[[? ?]|[? ?]]];
        first [ left; solve [eauto 4]
              | right; left; split; solve [eauto 4]
              | right; right; split; solve [eauto 4] ].
  - assert (Hincl : forall u v, E u v -> E' u v).
    { intros u v. induction 1 as [u v Huv|u|u v _ IH|u v w _ IH1 _ IH2].
      - apply rst_step. apply in_app_iff. by left.
      - apply rst_refl.
      - by apply rst_sym.
      - by apply rst_trans with v. }
    assert (Hab : E' a b).
    { apply rst_step. apply in_app_iff. right. by left. }
    intros [?|[[? ?]|[? ?]]].
    + by apply Hincl.
    + apply rst_trans with a; [by apply Hincl|].
      apply rst_trans with b; [done | by apply Hincl].
    + apply rst_trans with b; [by apply Hincl|].
      apply rst_trans with a; [by apply rst_sym | by apply Hincl].
Qed.

Lemma closure_nil x y :
  clos_refl_sym_trans nat (fun u v => In (u, v) []) x y <-> x = y.
Proof.
  split; [|intros ->; apply rst_refl].
  induction 1; (done || congruence).
Qed.

Lemma union_sets_are n parent rank fuel a b ps :
  uf_ok n parent rank -> sets_are n parent ps -> a < n -> b < n -> n <= fuel ->
  exists parent' rank',
    _union fuel (parent, rank) a b = Some (parent', rank') /\
    uf_ok n parent' rank' /\ sets_are n parent' (ps ++ [(a, b)]).
Proof.
  intros Hok Hsets Ha Hb Hfuel.
  destruct (union_spec n parent rank fuel a b Hok Ha Hb Hfuel)
    as (parent' & rank' & Hu & Hok' & Hsame).
  exists parent', rank'. split; [done|]. split; [done|].
  intros x y. unfold sets_are in Hsets. rewrite Hsame, closure_snoc, !Hsets. tauto.
Qed.

Lemma union_row_spec n fuel threshold i gi rest :
  forall j parent rank ps,
  uf_ok n parent rank -> sets_are n parent ps ->
  i < n -> j + length rest <= n -> n <= fuel ->
  exists parent' rank',
    union_row fuel threshold i gi j rest (parent, rank) = Some (parent', rank') /\
    uf_ok n parent' rank' /\
    sets_are n parent' (ps ++ Dedupe.dup_row threshold i gi j rest).
Proof.
  induction rest as [|gj rest IH]; intros j parent rank ps Hok Hsets Hi Hj Hfuel;
    cbn [union_row Dedupe.dup_row].
  - exists parent, rank. by rewrite app_nil_r.
  - simpl in Hj. unfold similar.
    destruct (Dedupe.similar threshold gi gj) eqn:Es.
    + destruct (union_sets_are n parent rank fuel i j ps)
        as (parent1 & rank1 & Hu & Hok1 & Hsets1); try done; [lia|].
      rewrite Hu. cbn [mbind option_bind app].
      destruct (IH (S j) parent1 rank1 (ps ++ [(i, j)]))
        as (parent2 & rank2 & Hr & Hok2 & Hsets2); try done; [lia|].
      exists parent2, rank2. by rewrite <- app_assoc in Hsets2.
    + cbn [mbind option_bind app]. apply IH; (done || lia).
Qed.

Lemma union_rows_spec n fuel threshold ngrams :
  forall i parent rank ps,
  uf_ok n parent rank -> sets_are n parent ps ->
  i + length ngrams <= n -> n <= fuel ->
  exists parent' rank',
    union_rows fuel threshold i ngrams (parent, rank) = Some (parent', rank') /\
    uf_ok n parent' rank' /\
    sets_are n parent' (ps ++ Dedupe.dup_rows threshold i ngrams).
Proof.
  induction ngrams as [|gi rest IH]; intros i parent rank ps Hok Hsets Hi Hfuel;
    cbn [union_rows Dedupe.dup_rows].
  - exists parent, rank. by rewrite app_nil_r.
  - simpl in Hi.
    destruct (union_row_spec n fuel threshold i gi rest (S i) parent rank ps)
      as (parent1 & rank1 & Hu & Hok1 & Hsets1); try done; try lia.
    rewrite Hu. cbn [mbind option_bind].
    destruct (IH (S i) parent1 rank1 (ps ++ Dedupe.dup_row threshold i gi (S i) rest))
      as (parent2 & rank2 & Hr & Hok2 & Hsets2); try done; try lia.
    exists parent2, rank2. by rewrite <- app_assoc in Hsets2.
Qed.

(** The state before the loops: [n] singletons. *)
Lemma initial_ok n : uf_ok n (seq 0 n) (replicate n 0).
Proof.
  constructor.
  - apply length_seq.
  - apply length_replicate.
  - intros i p Hp. apply lookup_seq in Hp. lia.
  - intros i p ri rp Hp Hne. apply lookup_seq in Hp. lia.
  - intros i ri k Hi Hk. apply lookup_replicate in Hi. lia.
Qed.

Lemma initial_sets n : sets_are n (seq 0 n) [].
Proof.
  intros x y. rewrite closure_nil.
  assert (Hroot : forall i r, is_root_of (seq 0 n) i r <-> r = i /\ i < n).
  { intros i r. split.
    - intros [H Hr]. apply lookup_seq in Hr as [_ Hr].
      destruct H as [|i p r Hp Hne _]; [done|]. apply lookup_seq in Hp. lia.
    - intros [-> Hi]. split; [constructor|]. by apply lookup_seq. }
  split.
  - intros (r & Hx & Hy). apply Hroot in Hx, Hy. lia.
  - intros (Hx & Hy & ->). exists y. split; by apply Hroot.
Qed.

(** The closure of the pairs of the loops is the closure of the similarity. *)
Lemma connected_pairs items threshold x y :
  connected items threshold x y <->
  clos_refl_sym_trans nat (fun u v => In (u, v) (similar_pairs items threshold)) x y.
Proof.
  assert (Hpair : forall u v, In (u, v) (similar_pairs items threshold) <->
                              u < v /\ similar_summaries items threshold u v).
  { intros u v. unfold similar_pairs, similar_summaries.
    rewrite DedupeProps.dup_rows_spec, !Nat.sub_0_r. split.
    - intros (_ & Huv & ga & gb & Ha & Hb & Hs). split; [done|].
      rewrite list_lookup_fmap in Ha, Hb.
      destruct (items !! u) as [a|]; [|done]. destruct (items !! v) as [b|]; [|done].
      simpl in Ha, Hb. injection Ha as <-. injection Hb as <-. by exists a, b.
    - intros (Huv & a & b & Ha & Hb & Hs). split; [lia|]. split; [done|].
      exists (get_ngrams (idea_summary a)), (get_ngrams (idea_summary b)).
      by rewrite !list_lookup_fmap, Ha, Hb. }
  unfold connected. split.
  - induction 1 as [u v Huv|u|u v _ IH|u v w _ IH1 _ IH2].
    + destruct (Nat.lt_total u v) as [Hlt|[->|Hgt]].
      * apply rst_step. by apply Hpair.
      * apply rst_refl.
      * apply rst_sym, rst_step. apply Hpair. split; [done|].
        destruct Huv as (a & b & Ha & Hb & Hs). exists b, a.
        split; [done|]. split; [done|]. unfold similar.
        by rewrite DedupeProps.similar_sym.
    + apply rst_refl.
    + by apply rst_sym.
    + by apply rst_trans with v.
  - induction 1 as [u v Huv|u|u v _ IH|u v w _ IH1 _ IH2].
    + apply rst_step. by apply Hpair.
    + apply rst_refl.
    + by apply rst_sym.
    + by apply rst_trans with v.
Qed.


(** *** The sweep that fills [clusters] *)

Lemma sweep_spec n parent0 rank fuel :
  uf_ok n parent0 rank -> n <= fuel ->
  forall indices parent clusters,
  uf_ok n parent rank ->
  (forall j r, is_root_of parent j r <-> is_root_of parent0 j r) ->
  (forall i, In i indices -> i < n) ->
  sweep fuel parent indices clusters =
  Some (fold_left (fun cl i => clusters_append (chase n parent0 i) i cl)
                  indices clusters).
Proof.
  intros Hok0 Hfuel. induction indices as [|i indices IH];
    intros parent clusters Hok Hroots Hin; cbn [sweep fold_left]; [done|].
  assert (Hi : i < n) by (apply Hin; by left).
  destruct (lookup_lt_is_Some_2 rank i) as [ri Hri];
    [by rewrite (uf_rank_length _ _ _ Hok)|].
  destruct (find_root_spec n parent rank fuel i ri Hok Hri)
    as (parent1 & r & Hf & Hr & Hok1 & Hroots1); [lia|].
  rewrite Hf. cbn [mbind option_bind].
  assert (r = chase n parent0 i) as ->.
  { apply (is_root_of_unique parent0 i); [by apply Hroots|].
    apply (chase_is_root n parent0 rank n i ri); (done || lia). }
  apply IH; [done | | intros; apply Hin; by right].
  intros j r'. by rewrite Hroots1.
Qed.

Lemma clusters_append_new root i clusters :
  ~ In root (map fst clusters) ->
  clusters_append root i clusters = clusters ++ [(root, [i])].
Proof.
  induction clusters as [|[r ms] clusters IH]; intros Hnot; simpl; [done|].
  destruct (Nat.eqb_spec r root) as [->|Hne].
  - destruct Hnot. by left.
  - rewrite IH; [done|]. intros H. apply Hnot. by right.
Qed.

Lemma clusters_append_old root i clusters k ms :
  NoDup (map fst clusters) -> clusters !! k = Some (root, ms) ->
  clusters_append root i clusters = <[k := (root, ms ++ [i])]> clusters.
Proof.
  revert k. induction clusters as [|[r ms0] clusters IH]; intros k Hnd Hk;
    [by rewrite lookup_nil in Hk|].
  simpl in Hnd. apply NoDup_cons in Hnd as [Hr Hnd]. simpl.
  destruct k as [|k]; simpl in Hk.
  - injection Hk as -> ->. by rewrite Nat.eqb_refl.
  - destruct (Nat.eqb_spec r root) as [->|Hne].
    + destruct Hr. apply list_elem_of_lookup.
      exists k. change (map fst clusters) with (fst <$> clusters).
      by rewrite list_lookup_fmap, Hk.
    + simpl. by rewrite (IH k).
Qed.

(** The dict after the indices [indices]: the keys are distinct, the members
    of a key are the indices of that representative, in order, and every
    index has its representative among the keys. *)
Lemma grouping_spec (f : nat -> nat) (indices : list nat) :
  let clusters :=
    fold_left (fun cl i => clusters_append (f i) i cl) indices [] in
  NoDup (map fst clusters) /\
  (forall k r ms, clusters !! k = Some (r, ms) ->
                  ms = filter (fun j => f j = r) indices) /\
  (forall j, In j indices -> In (f j) (map fst clusters)).
Proof.
  induction indices as [|i indices IH] using rev_ind.
  - simpl. split; [constructor|]. split; [|done].
    intros k r ms Hk. by rewrite lookup_nil in Hk.
  - rewrite fold_left_app. cbn [fold_left].
    set (cl := fold_left (fun cl i => clusters_append (f i) i cl) indices []) in *.
    destruct IH as (Hnd & Hms & Hkeys). cbv zeta.
    destruct (in_dec Nat.eq_dec (f i) (map fst cl)) as [Hin|Hnot].
    + apply list_elem_of_In, list_elem_of_lookup in Hin as [k Hk].
      change (map fst cl) with (fst <$> cl) in Hk.
      rewrite list_lookup_fmap in Hk.
      destruct (cl !! k) as [[r ms]|] eqn:Ek; [|done]. simpl in Hk.
      injection Hk as ->.
      rewrite (clusters_append_old _ _ _ k ms Hnd Ek).
      assert (Hkeys' : map fst (<[k := (f i, ms ++ [i])]> cl) = map fst cl).
      { change (map fst ?l) with (fst <$> l). rewrite list_fmap_insert. simpl.
        apply list_insert_id. by rewrite list_lookup_fmap, Ek. }
      split; [by rewrite Hkeys'|]. split.
      * intros k' r' ms' Hk'. rewrite filter_app.
        destruct (decide (k' = k)) as [->|Hne].
        -- rewrite list_lookup_insert_eq in Hk' by (by eapply lookup_lt_Some).
           injection Hk' as <- <-. rewrite <- (Hms k (f i) ms Ek).
           f_equal. rewrite filter_cons, filter_nil.
           by destruct (decide (f i = f i)).
        -- rewrite list_lookup_insert_ne in Hk' by done.
           rewrite <- (Hms k' r' ms' Hk').
           assert (Hr' : f i <> r').
           { intros <-. apply Hne.
             apply (NoDup_lookup (fst <$> cl) k' k (f i)); [done| |];
               by rewrite list_lookup_fmap, ?Hk', ?Ek. }
           rewrite filter_cons, filter_nil.
           destruct (decide (f i = r')); [done|]. by rewrite app_nil_r.
      * intros j Hj. rewrite Hkeys'. apply in_app_iff in Hj as [Hj|[<-|[]]].
        -- by apply Hkeys.
        -- apply list_elem_of_In, list_elem_of_lookup. exists k.
           change (map fst cl) with (fst <$> cl). by rewrite list_lookup_fmap, Ek.
    + rewrite (clusters_append_new _ _ _ Hnot).
      split; [|split].
      * rewrite map_app. simpl. apply NoDup_app. split; [done|].
        split; [|apply NoDup_singleton].
        intros x Hx Hx'. apply list_elem_of_singleton in Hx' as ->.
        by apply Hnot, list_elem_of_In.
      * intros k' r' ms' Hk'. rewrite filter_app.
        apply lookup_app_Some in Hk' as [Hk'|[Hlen Hk']].
        -- rewrite <- (Hms k' r' ms' Hk').
           assert (Hr' : f i <> r').
           { intros <-. apply Hnot. apply list_elem_of_In, list_elem_of_lookup.
             exists k'. change (map fst cl) with (fst <$> cl).
             by rewrite list_lookup_fmap, Hk'. }
           rewrite filter_cons, filter_nil.
           destruct (decide (f i = r')); [done|]. by rewrite app_nil_r.
        -- destruct (k' - length cl) as [|d] eqn:Ed; simpl in Hk'; [|done].
           injection Hk' as <- <-.
           assert (Hempty : filter (fun j => f j = f i) indices = []).
           { destruct (filter (fun j => f j = f i) indices) as [|j l] eqn:Ef; [done|].
             assert (Hj : j ∈ filter (fun j => f j = f i) indices)
               by (rewrite Ef; by left).
             apply list_elem_of_filter in Hj as [Hfj Hj].
             destruct Hnot. rewrite <- Hfj. by apply Hkeys, list_elem_of_In. }
           rewrite Hempty, filter_cons, filter_nil.
           by destruct (decide (f i = f i)).
      * intros j Hj. rewrite map_app. apply in_app_iff.
        apply in_app_iff in Hj as [Hj|[<-|[]]]; [left; by apply Hkeys|].
        right. by left.
Qed.

(** *** The assignment of [cluster_id] and [market_signal] *)

Lemma set_cluster_twice cid ms it :
  set_cluster cid ms (set_cluster cid ms it) = set_cluster cid ms it.
Proof. done. Qed.

Lemma fold_alter_lookup {B} (g : B -> B) (members : list nat) :
  (forall x, g (g x) = g x) ->
  forall (l : list B) (i : nat),
  fold_left (fun (l : list B) idx => alter g idx l) members l !! i
  = (if decide (i ∈ members) then g else fun x => x) <$> l !! i.
Proof.
  intros Hg. induction members as [|idx members IH]; intros l i; cbn [fold_left].
  - destruct (decide (i ∈ [])) as [H|_]; [by apply elem_of_nil in H|].
    by destruct (l !! i).
  - rewrite IH, list_lookup_alter.
    destruct (decide (idx = i)) as [->|Hne].
    + destruct (decide (i ∈ i :: members)) as [_|H]; [|destruct H; by left].
      destruct (l !! i) as [x|]; simpl; [|done].
      destruct (decide (i ∈ members)); simpl; by rewrite ?Hg.
    + destruct (decide (i ∈ members)) as [H|H],
               (decide (i ∈ idx :: members)) as [H'|H']; try done.
      * destruct H'. by right.
      * apply elem_of_cons in H' as [?|?]; done.
Qed.

Lemma assign_members_lookup cid members items i :
  assign_members cid members items !! i
  = (if decide (i ∈ members)
     then set_cluster (Z.of_nat cid) (Z.min (Z.of_nat (length members) * 25) 100)
     else fun x => x) <$> items !! i.
Proof. unfold assign_members. by apply fold_alter_lookup. Qed.

Lemma fold_alter_length {B} (g : B -> B) (members : list nat) (l : list B) :
  length (fold_left (fun (l : list B) idx => alter g idx l) members l) = length l.
Proof.
  revert l. induction members as [|idx members IH]; intros l; cbn [fold_left];
    [done|].
  by rewrite IH, length_alter.
Qed.

Lemma assign_members_length cid members items :
  length (assign_members cid members items) = length items.
Proof. unfold assign_members. apply fold_alter_length. Qed.

Lemma assign_clusters_length clusters items :
  length (assign_clusters clusters items) = length items.
Proof.
  unfold assign_clusters. revert items.
  induction (enumerate clusters) as [|c l IH]; intros items; cbn [fold_left]; [done|].
  by rewrite IH, assign_members_length.
Qed.

Lemma assign_clusters_from (clusters : list (nat * list nat)) i :
  forall s items,
  (forall k r ms, clusters !! k = Some (r, ms) -> i ∉ ms) ->
  fold_left (fun items c => assign_members c.1 (c.2).2 items)
            (combine (seq s (length clusters)) clusters) items !! i
  = items !! i.
Proof.
  induction clusters as [|[r ms] clusters IH]; intros s items Hnot; simpl; [done|].
  rewrite IH by (intros k r' ms'; apply (Hnot (S k))).
  rewrite assign_members_lookup.
  destruct (decide (i ∈ ms)) as [H|_]; [by destruct (Hnot 0 r ms eq_refl)|].
  by destruct (items !! i).
Qed.

(** An index that is a member of one cluster only gets the position and the
    size of that cluster. *)
Lemma assign_clusters_member (clusters : list (nat * list nat)) i :
  forall s items k r ms,
  clusters !! k = Some (r, ms) -> i ∈ ms ->
  (forall k' r' ms', clusters !! k' = Some (r', ms') -> i ∈ ms' -> k' = k) ->
  fold_left (fun items c => assign_members c.1 (c.2).2 items)
            (combine (seq s (length clusters)) clusters) items !! i
  = set_cluster (Z.of_nat (s + k)) (Z.min (Z.of_nat (length ms) * 25) 100)
      <$> items !! i.
Proof.
  induction clusters as [|[r0 ms0] clusters IH]; intros s items k r ms Hk Hi Huniq;
    [by rewrite lookup_nil in Hk|].
  simpl. destruct k as [|k]; simpl in Hk.
  - injection Hk as -> ->.
    rewrite assign_clusters_from.
    + rewrite assign_members_lookup, Nat.add_0_r.
      by destruct (decide (i ∈ ms)).
    + intros k' r' ms' Hk' Hi'. by pose proof (Huniq (S k') r' ms' Hk' Hi').
  - rewrite (IH (S s) _ k r ms Hk Hi).
    + rewrite assign_members_lookup.
      destruct (decide (i ∈ ms0)) as [H|_];
        [by pose proof (Huniq 0 r0 ms0 eq_refl H)|].
      replace (S s + k) with (s + S k) by lia. by destruct (items !! i).
    + intros k' r' ms' Hk' Hi'.
      pose proof (Huniq (S k') r' ms' Hk' Hi'). lia.
Qed.


(** *** [cluster_ideas] *)

(** On two items or more, [cluster_ideas] returns; every item gets the
    position of the key of its representative in [clusters] and the size of
    the set of its representative, and the sets are the classes of the
    closure of the similarity. *)
Lemma cluster_ideas_large items threshold :
  1 < length items ->
  exists (f : nat -> nat) (keys : list nat) out,
    cluster_ideas items threshold = Some out /\
    length out = length items /\
    NoDup keys /\
    (forall i j, i < length items -> j < length items ->
                 (f i = f j <-> connected items threshold i j)) /\
    forall i x, items !! i = Some x ->
      exists k,
        keys !! k = Some (f i) /\
        out !! i = Some
          (set_cluster (Z.of_nat k)
             (Z.min (Z.of_nat (length (filter (fun j => f j = f i)
                                              (seq 0 (length items)))) * 25) 100)
             x).
Proof.
  intros Hn. unfold cluster_ideas.
  destruct (Nat.leb_spec (length items) 1) as [?|_]; [lia|]. cbv zeta.
  set (n := length items) in *.
  destruct (union_rows_spec n n threshold
              (map (fun item => get_ngrams (idea_summary item)) items)
              0 (seq 0 n) (replicate n 0) [])
    as (parent & rank & Hu & Hok & Hsets).
  { apply initial_ok. } { apply initial_sets. }
  { rewrite length_map. unfold n. lia. } { lia. }
  rewrite Hu. cbn [mbind option_bind].
  rewrite (sweep_spec n parent rank n Hok (le_n n) (seq 0 n) parent [] Hok);
    [|done | intros i Hi; apply in_seq in Hi; lia].
  cbn [mbind option_bind].
  set (f := chase n parent).
  set (cl := fold_left (fun cl i => clusters_append (f i) i cl) (seq 0 n) []).
  destruct (grouping_spec f (seq 0 n)) as (Hnd & Hms & Hkeys). fold cl in Hnd, Hms, Hkeys.
  exists f, (map fst cl), (assign_clusters cl items).
  split; [done|]. split; [apply assign_clusters_length|]. split; [done|]. split.
  - intros i j Hi Hj.
    assert (Hroot : forall i, i < n -> is_root_of parent i (f i)).
    { intros i' Hi'.
      destruct (lookup_lt_is_Some_2 rank i') as [ri Hri];
        [by rewrite (uf_rank_length _ _ _ Hok)|].
      apply (chase_is_root n parent rank n i' ri); (done || lia). }
    rewrite <- (same_set_roots parent i j (f i) (f j)) by (by apply Hroot).
    rewrite connected_pairs. unfold sets_are in Hsets. rewrite Hsets. simpl.
    unfold similar_pairs. tauto.
  - intros i x Hx.
    assert (Hi : i < n) by (by eapply lookup_lt_Some).
    assert (Hin : In i (seq 0 n)) by (apply in_seq; lia).
    pose proof (Hkeys i Hin) as Hkey.
    apply list_elem_of_In, list_elem_of_lookup in Hkey as [k Hk].
    exists k. split; [done|].
    change (map fst cl) with (fst <$> cl) in Hk. rewrite list_lookup_fmap in Hk.
    destruct (cl !! k) as [[r ms]|] eqn:Ek; [|done]. simpl in Hk. injection Hk as ->.
    pose proof (Hms k (f i) ms Ek) as Ems.
    assert (Hmem : forall k' r' ms', cl !! k' = Some (r', ms') -> i ∈ ms' -> r' = f i).
    { intros k' r' ms' Hk' Hi'. rewrite (Hms k' r' ms' Hk') in Hi'.
      by apply list_elem_of_filter in Hi' as [-> _]. }
    unfold assign_clusters, enumerate.
    rewrite (assign_clusters_member cl i 0 items k (f i) ms Ek).
    + by rewrite Hx, Ems.
    + rewrite Ems. apply list_elem_of_filter. split; [done | by apply list_elem_of_In].
    + intros k' r' ms' Hk' Hi'. pose proof (Hmem k' r' ms' Hk' Hi') as ->.
      apply (NoDup_lookup (fst <$> cl) k' k (f i)); [done| |];
        by rewrite list_lookup_fmap, ?Hk', ?Ek.
Qed.

(** C6: [cluster_ideas] returns; the item at [i] is the input item with a
    cluster id and with the market signal [min(size * 25, 100)] of the set of
    the indices connected to [i]; two items get the same cluster id exactly
    when they are connected in the transitive closure of the similarity of
    the idea summaries; so when [i] and [j] are similar and [j] and [k] are,
    [i] and [k] are in one cluster. *)
Theorem cluster_ideas_transitive_closure (items : list SaaSIdeaItem)
    (threshold : float) :
  exists out,
    cluster_ideas items threshold = Some out /\
    length out = length items /\
    (forall i x, items !! i = Some x ->
       exists cid members,
         out !! i = Some
           (set_cluster cid (Z.min (Z.of_nat (length members) * 25) 100) x) /\
         NoDup members /\
         forall j, j ∈ members <->
                   j < length items /\ connected items threshold i j) /\
    (forall i j x y, out !! i = Some x -> out !! j = Some y ->
       (cluster_id x = cluster_id y <-> connected items threshold i j)) /\
    (forall i j k x z,
       similar_summaries items threshold i j ->
       similar_summaries items threshold j k ->
       out !! i = Some x -> out !! k = Some z -> cluster_id x = cluster_id z).
Proof.
  assert (Hmain : exists out,
    cluster_ideas items threshold = Some out /\ length out = length items /\
    (forall i x, items !! i = Some x ->
       exists cid members,
         out !! i = Some
           (set_cluster cid (Z.min (Z.of_nat (length members) * 25) 100) x) /\
         NoDup members /\
         forall j, j ∈ members <->
                   j < length items /\ connected items threshold i j) /\
    (forall i j x y, out !! i = Some x -> out !! j = Some y ->
       (cluster_id x = cluster_id y <-> connected items threshold i j))).
  { destruct (Nat.leb_spec (length items) 1) as [Hn|Hn].
    - exists (map (set_cluster 0 25) items). unfold cluster_ideas.
      destruct (Nat.leb_spec (length items) 1) as [_|?]; [|lia].
      split; [done|]. split; [by rewrite length_map|]. split.
      + intros i x Hx. exists 0%Z, [i].
        change (map ?g ?l) with (g <$> l). rewrite list_lookup_fmap, Hx.
        split; [done|]. split; [apply NoDup_singleton|].
        intros j. rewrite list_elem_of_singleton.
        apply lookup_lt_Some in Hx. split.
        * intros ->. split; [done | apply rst_refl].
        * intros [Hj _]. lia.
      + intros i j x y. change (map ?g ?l) with (g <$> l).
        rewrite !list_lookup_fmap. intros Hx Hy.
        destruct (items !! i) as [x0|] eqn:Ei; [|done].
        destruct (items !! j) as [y0|] eqn:Ej; [|done].
        simpl in Hx, Hy. injection Hx as <-. injection Hy as <-.
        apply lookup_lt_Some in Ei, Ej.
        assert (i = j) as -> by lia. simpl. split; [intros _; apply rst_refl | done].
    - destruct (cluster_ideas_large items threshold Hn)
        as (f & keys & out & Hout & Hlen & Hnd & Hconn & Hitem).
      exists out. split; [done|]. split; [done|]. split.
      + intros i x Hx. destruct (Hitem i x Hx) as (k & Hk & Ho).
        exists (Z.of_nat k), (filter (fun j => f j = f i) (seq 0 (length items))).
        split; [done|]. split; [apply NoDup_filter, NoDup_seq|].
        intros j. rewrite list_elem_of_filter, elem_of_seq.
        apply lookup_lt_Some in Hx. split.
        * intros [Hf Hj]. split; [lia|]. apply Hconn; (lia || done).
        * intros [Hj Hc]. split; [|lia]. symmetry. apply Hconn; (lia || done).
      + intros i j x y Hx Hy.
        assert (Hi : i < length items) by (rewrite <- Hlen; by eapply lookup_lt_Some).
        assert (Hj : j < length items) by (rewrite <- Hlen; by eapply lookup_lt_Some).
        destruct (lookup_lt_is_Some_2 items i Hi) as [x0 Hx0].
        destruct (lookup_lt_is_Some_2 items j Hj) as [y0 Hy0].
        destruct (Hitem i x0 Hx0) as (ki & Hki & Hoi).
        destruct (Hitem j y0 Hy0) as (kj & Hkj & Hoj).
        rewrite Hx in Hoi. rewrite Hy in Hoj.
        injection Hoi as ->. injection Hoj as ->. simpl.
        rewrite <- (Hconn i j Hi Hj). split.
        * intros Hk. apply Nat2Z.inj in Hk. subst kj. congruence.
        * intros Hf. f_equal. apply (NoDup_lookup keys ki kj (f i)); [done..|].
          by rewrite Hf. }
  destruct Hmain as (out & Hout & Hlen & Hitem & Hid).
  exists out. split; [done|]. split; [done|]. split; [done|]. split; [done|].
  intros i j k x z Hij Hjk Hx Hz. apply (Hid i k x z Hx Hz).
  apply rst_trans with j; by apply rst_step.
Qed.


(** *** The claim at the sample input *)

Import Samples.

Lemma four_ideas_similar :
  similar_summaries four_ideas 0.3%float 0 1 /\
  similar_summaries four_ideas 0.3%float 1 2 /\
  similar 0.3 (get_ngrams "crm for dog groomers")
              (get_ngrams "booking app for yoga studios") = false.
Proof.
  split; [|split].
  - exists (idea "a" "crm for dog groomers"), (idea "b" "booking app for dog groomers").
    split; [done|]. split; [done|]. vm_compute. reflexivity.
  - exists (idea "b" "booking app for dog groomers"),
           (idea "c" "booking app for yoga studios").
    split; [done|]. split; [done|]. vm_compute. reflexivity.
  - vm_compute. reflexivity.
Qed.

Lemma four_ideas_clustered :
  (map (fun it => (cluster_id it, market_signal it))
     <$> cluster_ideas four_ideas 0.3%float)
  = Some [(0%Z, 75%Z); (0%Z, 75%Z); (0%Z, 75%Z); (1%Z, 25%Z)].
Proof. vm_compute. reflexivity. Qed.

(** C6 at four ideas: the first and the third are not similar, both are
    similar to the second, and the three are in one cluster. *)
Lemma cluster_ideas_transitive_closure_witness :
  exists out x z,
    cluster_ideas four_ideas 0.3%float = Some out /\
    out !! 0 = Some x /\ out !! 2 = Some z /\ cluster_id x = cluster_id z.
Proof.
  destruct (cluster_ideas_transitive_closure four_ideas 0.3%float)
    as (out & Hout & Hlen & _ & _ & Hchain).
  destruct four_ideas_similar as (H01 & H12 & _).
  destruct (lookup_lt_is_Some_2 out 0) as [x Hx]; [rewrite Hlen; simpl; lia|].
  destruct (lookup_lt_is_Some_2 out 2) as [z Hz]; [rewrite Hlen; simpl; lia|].
  exists out, x, z. split; [exact Hout|]. split; [exact Hx|]. split; [exact Hz|].
  exact (Hchain 0 1 2 x z H01 H12 Hx Hz).
Defined.

End ClusterProps.

(* ===================================================================== *)
(** ** The order of the floats *)
(* ===================================================================== *)

Module FloatOrder.

(** [<] implies [<=], and [<=] is transitive, also at the infinities and the
    zeros; a nan is below and above nothing. *)
Lemma ltb_leb (x y : float) : PrimFloat.ltb x y = true -> PrimFloat.leb x y = true.
Proof.
  rewrite FloatAxioms.ltb_spec, FloatAxioms.leb_spec.
  unfold SFltb, SFleb. by destruct (SFcompare (Prim2SF x) (Prim2SF y)) as [[]|].
Qed.

Lemma SFleb_trans (x y z : spec_float) :
  SFleb x y = true -> SFleb y z = true -> SFleb x z = true.
Proof.
  unfold SFleb.
  destruct x as [sx|sx| |sx mx ex], y as [sy|sy| |sy my ey], z as [sz|sz| |sz mz ez];
    simpl; try done;
    try (destruct sx; try done); try (destruct sy; try done); try (destruct sz; try done).
  all: destruct (Z.compare_spec ex ey), (Z.compare_spec ey ez), (Z.compare_spec ex ez);
    try done; try lia; subst;
    rewrite ?Pos.compare_cont_spec by done; simpl;
    destruct (Pos.compare_spec mx my), (Pos.compare_spec my mz), (Pos.compare_spec mx mz);
    simpl; try done; try lia.
Qed.

Lemma leb_trans (x y z : float) :
  PrimFloat.leb x y = true -> PrimFloat.leb y z = true -> PrimFloat.leb x z = true.
Proof. rewrite !FloatAxioms.leb_spec. apply SFleb_trans. Qed.

End FloatOrder.

(* ===================================================================== *)
(** ** More on the text functions *)
(* ===================================================================== *)

Module TextLaws.
Import Py Schema Dedupe Notions.




















(** *** [get_ngrams] *)

Lemma length_substring (s : string) (i n : nat) :
  i + n <= String.length s -> String.length (substring i n s) = n.
Proof.
  revert i n. induction s as [|c s IH]; intros i n H; simpl in H.
  - assert (i = 0) as -> by lia. assert (n = 0) as -> by lia. reflexivity.
  - destruct i as [|i]; simpl.
    + destruct n as [|n]; [done|]. simpl. f_equal. apply IH. lia.
    + apply IH. lia.
Qed.

Lemma ngrams_size_pos (X : gset string) : X <> ∅ -> 0 < size X.
Proof.
  intros H. assert (size X <> 0); [|lia].
  apply size_non_empty_iff. by intros E%leibniz_equiv.
Qed.

Lemma ngrams_union_nonempty (X Y : gset string) : X <> ∅ -> X ∪ Y <> ∅.
Proof.
  intros H E. apply H. apply leibniz_equiv.
  assert (E' : X ∪ Y ≡ ∅) by (by rewrite E). set_solver.
Qed.

Lemma get_ngrams_elem (text g : string) :
  g ∈ get_ngrams text <->
  (String.length (normalize_text text) < 3 /\ g = normalize_text text) \/
  (exists i, i + 3 <= String.length (normalize_text text) /\
             g = substring i 3 (normalize_text text)).
Proof.
  unfold get_ngrams, get_ngrams_n. cbv zeta.
  destruct (Nat.ltb_spec (String.length (normalize_text text)) 3) as [Hl|Hl].
  - rewrite elem_of_singleton. split; [by left; split|].
    intros [[_ ->]|(i & Hi & _)]; [done | lia].
  - rewrite elem_of_list_to_set. change (map ?f ?l) with (f <$> l).
    rewrite list_elem_of_fmap. split.
    + intros (i & -> & Hi). apply elem_of_seq in Hi. right. exists i. split; [lia | done].
    + intros [[H _]|(i & Hi & ->)]; [lia|]. exists i. split; [done|].
      apply elem_of_seq. lia.
Qed.

Lemma get_ngrams_not_empty (text : string) : get_ngrams text <> ∅.
Proof.
  intros E.
  destruct (Nat.lt_ge_cases (String.length (normalize_text text)) 3) as [Hl|Hl].
  - assert (H : normalize_text text ∈ get_ngrams text)
      by (apply get_ngrams_elem; by left).
    rewrite E in H. by apply not_elem_of_empty in H.
  - assert (H : substring 0 3 (normalize_text text) ∈ get_ngrams text).
    { apply get_ngrams_elem. right. exists 0. split; [lia | done]. }
    rewrite E in H. by apply not_elem_of_empty in H.
Qed.

(** X3: [get_ngrams] never returns the empty set: it returns the set of the
    normalized text alone when this has fewer than three characters, and
    otherwise a set of substrings of three characters.  So the test for an
    empty set in [jaccard_similarity] never holds for the n-grams of two
    texts, and their similarity is the quotient of the sizes of the
    intersection and of the union. *)
Theorem get_ngrams_nonempty (text text2 g : string) :
  get_ngrams text <> ∅ /\
  (g ∈ get_ngrams text ->
   (String.length (normalize_text text) < 3 /\ g = normalize_text text) \/
   (3 <= String.length (normalize_text text) /\ String.length g = 3)) /\
  jaccard_similarity (get_ngrams text) (get_ngrams text2)
  = PrimFloat.div
      (float_of_nat (size (get_ngrams text ∩ get_ngrams text2)))
      (float_of_nat (size (get_ngrams text ∪ get_ngrams text2))).
Proof.
  split; [apply get_ngrams_not_empty|]. split.
  - intros Hg. apply get_ngrams_elem in Hg as [H|(i & Hi & ->)]; [by left|].
    right. split; [lia|]. apply length_substring. lia.
  - unfold jaccard_similarity.
    rewrite (bool_decide_eq_false_2 _ (get_ngrams_not_empty text)).
    rewrite (bool_decide_eq_false_2 _ (get_ngrams_not_empty text2)).
    cbn [orb]. cbv zeta.
    pose proof (ngrams_size_pos _
                  (ngrams_union_nonempty _ (get_ngrams text2)
                     (get_ngrams_not_empty text))) as Hpos.
    by destruct (Nat.ltb_spec 0 (size (get_ngrams text ∪ get_ngrams text2)));
      [|lia].
Qed.

End TextLaws.

(* ===================================================================== *)
(** ** More on the deduplication *)
(* ===================================================================== *)

Module DedupeLaws.
Import Py Schema Dedupe Notions DedupeProps FloatOrder.

(** X4: the similarity does not depend on the order of its arguments, so the
    loops of [find_duplicates] and [cluster_ideas], which compare the item at
    [i] with the later ones only, miss no pair. *)
Theorem jaccard_symmetric (set1 set2 : gset string) (threshold : float) :
  jaccard_similarity set1 set2 = jaccard_similarity set2 set1 /\
  similar threshold set1 set2 = similar threshold set2 set1.
Proof. split; [apply jaccard_similarity_sym | apply similar_sym]. Qed.

(** X5: [find_duplicates] returns the pairs [(i, j)] with [i < j] below
    the length whose titles are similar, and only those; for fewer than two
    items it returns no pair. *)
Theorem find_duplicates_pairs (items : list SaaSIdeaItem) (threshold : float)
    (i j : nat) :
  (In (i, j) (find_duplicates items threshold) <->
   i < j /\ j < length items /\ similar_titles items threshold i j) /\
  (length items <= 1 -> find_duplicates items threshold = []).
Proof.
  assert (H : In (i, j) (find_duplicates items threshold) <->
              i < j /\ j < length items /\ similar_titles items threshold i j).
  { rewrite find_duplicates_spec. split; [|tauto].
    intros [Hij Hs]. split; [done|]. split; [|done].
    destruct Hs as (x & y & _ & Hy & _). by eapply lookup_lt_Some. }
  split; [done|].
  intros Hn. destruct items as [|x [|y items]]; simpl in Hn; try lia; reflexivity.
Qed.

(** *** Lists sorted by score *)

Lemma removal_set_descending items threshold r :
  scores_descending items ->
  (r ∈ removal_set items threshold <->
   exists k, k < r /\ similar_titles items threshold k r).
Proof.
  intros Hd. rewrite removal_set_spec. split.
  - intros (k & x & y & Hx & Hy & Hs & [[Hlt Hsc]|[Hlt Hsc]]).
    + exists k. split; [done|]. exists y, x. split; [done|]. split; [done|].
      by rewrite similar_sym.
    + pose proof (Hd r k x y Hlt Hx Hy). lia.
  - intros (k & Hlt & y & x & Hy & Hx & Hs).
    exists k, x, y. split; [done|]. split; [done|].
    split; [by rewrite similar_sym|]. left. split; [done|].
    by apply (Hd k r y x).
Qed.

(** X6: on a list sorted by score, as [sort_items] returns it, the loop of
    [dedupe_saas] marks the later item of every duplicate pair: an item is
    returned exactly when no item before it has a similar title, whether
    that item is returned itself or not; so the first item is always
    returned. *)
Theorem dedupe_saas_descending (items : list SaaSIdeaItem) (threshold : float) :
  scores_descending items ->
  (forall x, In x (dedupe_saas items threshold) <->
     exists i, items !! i = Some x /\
               ~ exists k, k < i /\ similar_titles items threshold k i) /\
  (forall x, items !! 0 = Some x -> dedupe_saas items threshold !! 0 = Some x).
Proof.
  intros Hd.
  assert (Hin : forall x, In x (dedupe_saas items threshold) <->
     exists i, items !! i = Some x /\
               ~ exists k, k < i /\ similar_titles items threshold k i).
  { intros x. destruct (Nat.leb_spec (length items) 1) as [Hn|Hn].
    - rewrite dedupe_saas_small by done. split.
      + intros Hx. apply list_elem_of_In, list_elem_of_lookup in Hx as [i Hi].
        exists i. split; [done|]. intros (k & Hk & _).
        apply lookup_lt_Some in Hi. lia.
      + intros (i & Hi & _). apply list_elem_of_In. by eapply list_elem_of_lookup_2.
    - rewrite dedupe_saas_large by done. rewrite in_map_iff. split.
      + intros ([i x'] & Hx & Hs). simpl in Hx. subst x'.
        apply survivors_spec in Hs as [Hi Hr]. exists i. split; [done|].
        by rewrite <- removal_set_descending.
      + intros (i & Hi & Hno). exists (i, x). split; [done|].
        apply survivors_spec. split; [done|].
        by rewrite removal_set_descending. }
  split; [done|].
  intros x Hx. destruct (Nat.leb_spec (length items) 1) as [Hn|Hn].
  - by rewrite dedupe_saas_small.
  - rewrite dedupe_saas_large by done.
    change (map snd ?l) with (snd <$> l). rewrite list_lookup_fmap.
    unfold survivors, enumerate.
    destruct items as [|x0 items0]; [done|]. simpl in Hx. injection Hx as ->.
    simpl. rewrite filter_cons_True; [done|]. simpl.
    rewrite removal_set_descending by done. intros (k & Hk & _). lia.
Qed.

(** *** Lists without duplicates *)

(** X7: [dedupe_saas] returns the list it was given exactly when no two of
    its titles are similar. *)
Theorem dedupe_saas_unchanged_iff (items : list SaaSIdeaItem) (threshold : float) :
  dedupe_saas items threshold = items <->
  forall a b, a <> b -> ~ similar_titles items threshold a b.
Proof.
  split; [|by intros H; apply dedupe_saas_fixed].
  intros E.
  assert (Hlt : forall a b, a < b -> ~ similar_titles items threshold a b).
  { intros a b Hab Hs.
    assert (Hb : b < length items).
    { destruct Hs as (x & y & _ & Hy & _). by eapply lookup_lt_Some. }
    assert (Hn : 1 < length items) by lia.
    rewrite dedupe_saas_large in E by done.
    assert (Hp : In (a, b) (find_duplicates items threshold))
      by (by apply find_duplicates_spec).
    destruct Hs as (x & y & Hx & Hy & Hs).
    assert (Hr : exists r z, items !! r = Some z /\ r ∈ removal_set items threshold).
    { destruct (score y <=? score x)%Z eqn:Esc.
      - exists b, y. split; [done|]. apply fold_mark_removed. right.
        exists (a, b). split; [done|]. unfold loser. simpl. by rewrite Hx, Hy, Esc.
      - exists a, x. split; [done|]. apply fold_mark_removed. right.
        exists (a, b). split; [done|]. unfold loser. simpl. by rewrite Hx, Hy, Esc. }
    destruct Hr as (r & z & Hz & Hr).
    assert (Hlen : length (survivors items (removal_set items threshold))
                   < length (enumerate items)).
    { unfold survivors. apply (length_filter_lt _ _ (r, z)).
      - apply list_elem_of_lookup. exists r. by apply enumerate_lookup.
      - simpl. intros H. by apply H. }
    apply (f_equal length) in E. rewrite length_map in E.
    unfold enumerate in Hlen. rewrite length_combine, length_seq in Hlen. lia. }
  intros a b Hne Hs. destruct (Nat.lt_ge_cases a b) as [Hab|Hab].
  - by apply (Hlt a b).
  - apply (Hlt b a); [lia|].
    destruct Hs as (x & y & Hx & Hy & Hs). exists y, x.
    split; [done|]. split; [done|]. by rewrite similar_sym.
Qed.

(** *** The threshold *)

Lemma filter_sublist_weaken {A} (P Q : A -> Prop)
    `{!forall x, Decision (P x)} `{!forall x, Decision (Q x)} (l : list A) :
  (forall x, P x -> Q x) -> filter P l `sublist_of` filter Q l.
Proof.
  intros HPQ. induction l as [|x l IH]; [done|].
  destruct (decide (P x)) as [Hp|Hp].
  - rewrite (filter_cons_True P) by done. rewrite (filter_cons_True Q) by auto.
    by apply sublist_skip.
  - rewrite (filter_cons_False P) by done.
    destruct (decide (Q x)) as [Hq|Hq].
    + rewrite (filter_cons_True Q) by done. by apply sublist_cons.
    + by rewrite (filter_cons_False Q) by done.
Qed.

(** X8: a higher threshold finds fewer duplicate pairs and removes fewer
    items: what [dedupe_saas] returns at the lower threshold is a sublist of
    what it returns at the higher one. *)
Theorem dedupe_saas_threshold_monotone (items : list SaaSIdeaItem)
    (t1 t2 : float) :
  PrimFloat.leb t1 t2 = true ->
  (forall i j, In (i, j) (find_duplicates items t2) ->
               In (i, j) (find_duplicates items t1)) /\
  dedupe_saas items t1 `sublist_of` dedupe_saas items t2.
Proof.
  intros Ht.
  assert (Hs : forall g1 g2, similar t2 g1 g2 = true -> similar t1 g1 g2 = true).
  { unfold similar. intros g1 g2 H. by apply leb_trans with t2. }
  assert (Hp : forall i j, In (i, j) (find_duplicates items t2) ->
                           In (i, j) (find_duplicates items t1)).
  { intros i j. rewrite !find_duplicates_spec.
    intros (Hij & x & y & Hx & Hy & H). split; [done|]. exists x, y. auto. }
  split; [done|].
  destruct (Nat.leb_spec (length items) 1) as [Hn|Hn].
  - by rewrite !dedupe_saas_small.
  - rewrite !dedupe_saas_large by done.
    change (map snd ?l) with (snd <$> l). apply fmap_sublist.
    unfold survivors. apply filter_sublist_weaken.
    intros [i x]. simpl. intros Hi Hr. apply Hi.
    unfold removal_set in *. apply fold_mark_removed in Hr.
    apply fold_mark_removed.
    destruct Hr as [Hr | ([a b] & Hab & Hl)]; [by left|].
    right. exists (a, b). split; [by apply Hp | done].
Qed.

(** *** At the sample inputs *)

Import Samples.

Lemma groomer_chain_descending : scores_descending groomer_chain.
Proof.
  intros a b x y Hab Ha Hb. unfold groomer_chain in Ha, Hb.
  destruct a as [|[|[|a]]], b as [|[|[|b]]]; simpl in Ha, Hb;
    try lia; try discriminate; injection Ha as <-; injection Hb as <-; cbn; lia.
Qed.

(** X6 at the chain of three titles: the first item is returned. *)
Lemma dedupe_saas_descending_witness :
  dedupe_saas groomer_chain 0.7%float !! 0
  = Some (scored "x" "the crm for dog groomers app" 20).
Proof.
  destruct (dedupe_saas_descending groomer_chain 0.7%float groomer_chain_descending)
    as [_ H].
  apply H. reflexivity.
Defined.

Lemma half_below_seven_tenths : PrimFloat.leb 0.5 0.7 = true.
Proof. vm_compute. reflexivity. Qed.

(** X8 at the chain, for the thresholds 0.5 and 0.7. *)
Lemma dedupe_saas_threshold_monotone_witness :
  dedupe_saas groomer_chain 0.5%float `sublist_of` dedupe_saas groomer_chain 0.7%float.
Proof.
  destruct (dedupe_saas_threshold_monotone groomer_chain 0.5%float 0.7%float
              half_below_seven_tenths) as [_ H].
  exact H.
Defined.

End DedupeLaws.

(* ===================================================================== *)
(** ** More on the clustering *)
(* ===================================================================== *)

Module ClusterLaws.
Import Py Schema IdeaCluster Notions ClusterProps FloatOrder.

(** *** The keys of [clusters] *)

Lemma clusters_append_keys root i clusters :
  map fst (clusters_append root i clusters)
  = if bool_decide (root ∈ map fst clusters) then map fst clusters
    else map fst clusters ++ [root].
Proof.
  induction clusters as [|[r ms] clusters IH]; cbn [clusters_append map fst].
  - case_bool_decide as H; [by apply not_elem_of_nil in H | done].
  - destruct (Nat.eqb_spec r root) as [->|Hne]; cbn [map fst].
    + rewrite bool_decide_eq_true_2; [done|]. apply list_elem_of_here.
    + rewrite IH. case_bool_decide as H1; case_bool_decide as H2; try done.
      * destruct H2. by apply list_elem_of_further.
      * apply elem_of_cons in H2 as [->|H2]; done.
Qed.

Lemma fold_clusters_keys (f : nat -> nat) indices clusters :
  map fst (fold_left (fun cl i => clusters_append (f i) i cl) indices clusters)
  = fold_left (first_seen_step f) indices (map fst clusters).
Proof.
  revert clusters. induction indices as [|i indices IH]; intros clusters; simpl;
    [done|].
  rewrite IH. f_equal. unfold first_seen_step. apply clusters_append_keys.
Qed.

Lemma first_seen_prefix (f : nat -> nat) indices keys :
  exists more, fold_left (first_seen_step f) indices keys = keys ++ more.
Proof.
  revert keys. induction indices as [|i indices IH]; intros keys; simpl.
  - exists []. by rewrite app_nil_r.
  - destruct (IH (first_seen_step f keys i)) as [more ->].
    unfold first_seen_step. case_bool_decide.
    + by exists more.
    + exists (f i :: more). by rewrite <- app_assoc.
Qed.

Lemma first_seen_from (f : nat -> nat) indices keys r :
  r ∈ fold_left (first_seen_step f) indices keys ->
  r ∈ keys \/ exists j, j ∈ indices /\ f j = r.
Proof.
  revert keys. induction indices as [|i indices IH]; intros keys; simpl; [by left|].
  intros H. apply IH in H as [H|(j & Hj & <-)].
  - unfold first_seen_step in H. case_bool_decide; [by left|].
    apply elem_of_app in H as [H|H]; [by left|].
    apply list_elem_of_singleton in H as ->. right. exists i.
    split; [apply list_elem_of_here | done].
  - right. exists j. split; [by apply list_elem_of_further | done].
Qed.

Lemma first_seen_has (f : nat -> nat) indices keys j :
  j ∈ indices -> f j ∈ fold_left (first_seen_step f) indices keys.
Proof.
  revert keys. induction indices as [|i indices IH]; intros keys Hj;
    [by apply not_elem_of_nil in Hj|].
  simpl. apply elem_of_cons in Hj as [->|Hj]; [|by apply IH].
  destruct (first_seen_prefix f indices (first_seen_step f keys i)) as [more ->].
  apply elem_of_app. left. unfold first_seen_step. case_bool_decide; [done|].
  apply elem_of_app. right. apply list_elem_of_here.
Qed.

Lemma first_seen_NoDup (f : nat -> nat) indices keys :
  NoDup keys -> NoDup (fold_left (first_seen_step f) indices keys).
Proof.
  revert keys. induction indices as [|i indices IH]; intros keys Hnd; simpl; [done|].
  apply IH. unfold first_seen_step. case_bool_decide; [done|].
  apply NoDup_app. split; [done|]. split; [|apply NoDup_singleton].
  intros x Hx Hx'. apply list_elem_of_singleton in Hx' as ->. done.
Qed.

(** The keys are numbered in the order of their first index: a key before
    the key of [i] is the representative of an index below [i]. *)
Lemma first_seen_earlier (f : nat -> nat) n i k c r :
  i < n -> first_seen f (seq 0 n) !! k = Some (f i) -> c < k ->
  first_seen f (seq 0 n) !! c = Some r ->
  exists j, j < i /\ f j = r.
Proof.
  intros Hi Hk Hc Hr. unfold first_seen in *.
  assert (Hsplit : seq 0 n = seq 0 (S i) ++ seq (S i) (n - S i)).
  { rewrite <- seq_app. f_equal. lia. }
  rewrite Hsplit, fold_left_app in Hk, Hr.
  set (keys_i := fold_left (first_seen_step f) (seq 0 (S i)) []) in *.
  destruct (first_seen_prefix f (seq (S i) (n - S i)) keys_i) as [more Hmore].
  rewrite Hmore in Hk, Hr.
  assert (Hnd : NoDup (keys_i ++ more)).
  { rewrite <- Hmore. apply first_seen_NoDup. unfold keys_i.
    apply first_seen_NoDup. constructor. }
  assert (Hfi : f i ∈ keys_i).
  { apply first_seen_has. apply elem_of_seq. lia. }
  apply list_elem_of_lookup in Hfi as [k0 Hk0].
  assert (k0 = k) as ->.
  { apply (NoDup_lookup (keys_i ++ more) k0 k (f i) Hnd); [|done].
    by rewrite lookup_app_l by (by eapply lookup_lt_Some). }
  assert (Hrc : keys_i !! c = Some r).
  { rewrite lookup_app_l in Hr; [done|]. apply lookup_lt_Some in Hk0. lia. }
  assert (Hin : r ∈ keys_i) by (by eapply list_elem_of_lookup_2).
  apply first_seen_from in Hin as [Hin|(j & Hj & Hfj)];
    [by apply not_elem_of_nil in Hin|].
  apply elem_of_seq in Hj. exists j. split; [|done].
  destruct (decide (j = i)) as [->|Hne]; [|lia].
  subst r. assert (c = k); [|lia].
  by apply (NoDup_lookup (keys_i ++ more) c k (f i) Hnd).
Qed.

(** *** [cluster_ideas], with the numbering of the clusters *)

Lemma cluster_ideas_numbered items threshold :
  1 < length items ->
  exists (f : nat -> nat) out,
    cluster_ideas items threshold = Some out /\
    length out = length items /\
    (forall i j, i < length items -> j < length items ->
                 (f i = f j <-> connected items threshold i j)) /\
    forall i x, items !! i = Some x ->
      exists k,
        first_seen f (seq 0 (length items)) !! k = Some (f i) /\
        out !! i = Some
          (set_cluster (Z.of_nat k)
             (Z.min (Z.of_nat (length (filter (fun j => f j = f i)
                                              (seq 0 (length items)))) * 25) 100)
             x).
Proof.
  intros Hn. unfold cluster_ideas.
  destruct (Nat.leb_spec (length items) 1) as [?|_]; [lia|]. cbv zeta.
  set (n := length items) in *.
  destruct (union_rows_spec n n threshold
              (map (fun item => get_ngrams (idea_summary item)) items)
              0 (seq 0 n) (replicate n 0) [])
    as (parent & rank & Hu & Hok & Hsets).
  { apply initial_ok. } { apply initial_sets. }
  { rewrite length_map. unfold n. lia. } { lia. }
  rewrite Hu. cbn [mbind option_bind].
  rewrite (sweep_spec n parent rank n Hok (le_n n) (seq 0 n) parent [] Hok);
    [|done | intros i Hi; apply in_seq in Hi; lia].
  cbn [mbind option_bind].
  set (f := chase n parent).
  set (cl := fold_left (fun cl i => clusters_append (f i) i cl) (seq 0 n) []).
  destruct (grouping_spec f (seq 0 n)) as (Hnd & Hms & Hkeys). fold cl in Hnd, Hms, Hkeys.
  assert (Hfs : map fst cl = first_seen f (seq 0 n)).
  { unfold cl, first_seen. by rewrite fold_clusters_keys. }
  exists f, (assign_clusters cl items).
  split; [done|]. split; [apply assign_clusters_length|]. split.
  - intros i j Hi Hj.
    assert (Hroot : forall i, i < n -> is_root_of parent i (f i)).
    { intros i' Hi'.
      destruct (lookup_lt_is_Some_2 rank i') as [ri Hri];
        [by rewrite (uf_rank_length _ _ _ Hok)|].
      apply (chase_is_root n parent rank n i' ri); (done || lia). }
    rewrite <- (same_set_roots parent i j (f i) (f j)) by (by apply Hroot).
    rewrite connected_pairs. unfold sets_are in Hsets. rewrite Hsets. simpl.
    unfold similar_pairs. tauto.
  - intros i x Hx.
    assert (Hi : i < n) by (by eapply lookup_lt_Some).
    assert (Hin : In i (seq 0 n)) by (apply in_seq; lia).
    pose proof (Hkeys i Hin) as Hkey.
    apply list_elem_of_In, list_elem_of_lookup in Hkey as [k Hk].
    exists k. split; [by rewrite <- Hfs|].
    change (map fst cl) with (fst <$> cl) in Hk. rewrite list_lookup_fmap in Hk.
    destruct (cl !! k) as [[r ms]|] eqn:Ek; [|done]. simpl in Hk. injection Hk as ->.
    pose proof (Hms k (f i) ms Ek) as Ems.
    assert (Hmem : forall k' r' ms', cl !! k' = Some (r', ms') -> i ∈ ms' -> r' = f i).
    { intros k' r' ms' Hk' Hi'. rewrite (Hms k' r' ms' Hk') in Hi'.
      by apply list_elem_of_filter in Hi' as [-> _]. }
    unfold assign_clusters, enumerate.
    rewrite (assign_clusters_member cl i 0 items k (f i) ms Ek).
    + by rewrite Hx, Ems.
    + rewrite Ems. apply list_elem_of_filter. split; [done | by apply list_elem_of_In].
    + intros k' r' ms' Hk' Hi'. pose proof (Hmem k' r' ms' Hk' Hi') as ->.
      apply (NoDup_lookup (fst <$> cl) k' k (f i)); [done| |];
        by rewrite list_lookup_fmap, ?Hk', ?Ek.
Qed.

(** What [cluster_ideas] returns on any list: the item at [i] with the
    position of its representative among the keys and the size of its set. *)
Lemma cluster_ideas_result items threshold out :
  cluster_ideas items threshold = Some out ->
  exists f : nat -> nat,
    length out = length items /\
    (forall i j, i < length items -> j < length items ->
                 (f i = f j <-> connected items threshold i j)) /\
    forall i x, out !! i = Some x ->
      exists x0 k,
        items !! i = Some x0 /\
        first_seen f (seq 0 (length items)) !! k = Some (f i) /\
        x = set_cluster (Z.of_nat k)
              (Z.min (Z.of_nat (length (filter (fun j => f j = f i)
                                               (seq 0 (length items)))) * 25) 100)
              x0.
Proof.
  intros Hout. destruct (Nat.leb_spec (length items) 1) as [Hn|Hn].
  - unfold cluster_ideas in Hout.
    destruct (Nat.leb_spec (length items) 1) as [_|?]; [|lia].
    injection Hout as <-. exists (fun i => i).
    split; [by rewrite length_map|]. split.
    + intros i j Hi Hj. assert (i = j) as -> by lia.
      split; [intros _; apply rst_refl | done].
    + intros i x Hx. change (map ?g ?l) with (g <$> l) in Hx.
      rewrite list_lookup_fmap in Hx.
      destruct (items !! i) as [x0|] eqn:Ei; [|done]. simpl in Hx. injection Hx as <-.
      pose proof (lookup_lt_Some _ _ _ Ei) as Hi.
      assert (i = 0) as -> by lia.
      destruct items as [|y [|z items]]; simpl in Hn, Ei; try done; [|lia].
      exists x0, 0. split; [done|]. split; [done|]. reflexivity.
  - destruct (cluster_ideas_numbered items threshold Hn)
      as (f & out' & Hout' & Hlen & Hconn & Hitem).
    rewrite Hout' in Hout. injection Hout as ->.
    exists f. split; [done|]. split; [done|].
    intros i x Hx.
    destruct (lookup_lt_is_Some_2 items i) as [x0 Hx0].
    { rewrite <- Hlen. by eapply lookup_lt_Some. }
    destruct (Hitem i x0 Hx0) as (k & Hk & Ho).
    exists x0, k. split; [done|]. split; [done|]. congruence.
Qed.

Lemma first_seen_keys_NoDup f indices : NoDup (first_seen f indices).
Proof. apply first_seen_NoDup. constructor. Qed.

(** *** The numbering of the clusters *)

(** X11: the clusters are numbered from 0 in the order of their first
    items, with no gap: every number below the cluster id of an item is the
    cluster id of an item before it, and the cluster id of the item at [i] is
    at most [i], so the first item is in cluster 0. *)
Theorem cluster_ids_first_seen (items out : list SaaSIdeaItem) (threshold : float) :
  cluster_ideas items threshold = Some out ->
  forall i x, out !! i = Some x ->
    (0 <= cluster_id x <= Z.of_nat i)%Z /\
    forall c, (0 <= c < cluster_id x)%Z ->
      exists j y, j < i /\ out !! j = Some y /\ cluster_id y = c.
Proof.
  intros Hout.
  destruct (cluster_ideas_result _ _ _ Hout) as (f & Hlen & Hconn & Hitem).
  assert (Hgap : forall i x, out !! i = Some x ->
            (0 <= cluster_id x)%Z /\
            forall c, (0 <= c < cluster_id x)%Z ->
              exists j y, j < i /\ out !! j = Some y /\ cluster_id y = c).
  { intros i x Hx. destruct (Hitem i x Hx) as (x0 & k & Hx0 & Hk & ->). simpl.
    split; [lia|]. intros c Hc.
    assert (Hi : i < length items) by (by eapply lookup_lt_Some).
    destruct (lookup_lt_is_Some_2 (first_seen f (seq 0 (length items))) (Z.to_nat c))
      as [r Hr].
    { apply lookup_lt_Some in Hk. lia. }
    destruct (first_seen_earlier f (length items) i k (Z.to_nat c) r Hi Hk)
      as (j & Hj & Hfj); [lia | done |].
    destruct (lookup_lt_is_Some_2 out j) as [y Hy]; [lia|].
    exists j, y. split; [done|]. split; [done|].
    destruct (Hitem j y Hy) as (y0 & kj & Hy0 & Hkj & ->). simpl.
    rewrite Hfj in Hkj.
    pose proof (NoDup_lookup _ _ _ _ (first_seen_keys_NoDup f (seq 0 (length items)))
                  Hkj Hr). lia. }
  assert (Hle : forall i x, out !! i = Some x -> (cluster_id x <= Z.of_nat i)%Z).
  { induction i as [i IH] using lt_wf_ind. intros x Hx.
    destruct (Hgap i x Hx) as [H0 Hc].
    destruct (Z.eq_dec (cluster_id x) 0%Z) as [E|E]; [lia|].
    destruct (Hc (cluster_id x - 1)%Z) as (j & y & Hj & Hy & Hid); [lia|].
    pose proof (IH j Hj y Hy). lia. }
  intros i x Hx. destruct (Hgap i x Hx) as [H0 Hc].
  split; [|done]. split; [done | by apply Hle].
Qed.

(** *** The market signal *)

Lemma isolated_connected items threshold i j :
  isolated items threshold i -> connected items threshold i j -> j = i.
Proof.
  intros Hiso Hc.
  assert (H : forall x y, connected items threshold x y -> (x = i <-> y = i)).
  { intros x y Hxy. induction Hxy as [x y Hs| | |]; [|done|tauto|tauto].
    split.
    - intros ->. destruct (decide (y = i)) as [|Hne]; [done|].
      by destruct (proj1 (Hiso y Hne)).
    - intros ->. destruct (decide (x = i)) as [|Hne]; [done|].
      by destruct (proj2 (Hiso x Hne)). }
  by apply (H i j Hc).
Qed.

Lemma similar_summaries_bound items threshold i j :
  similar_summaries items threshold i j -> i < length items /\ j < length items.
Proof.
  intros (x & y & Hx & Hy & _). split; by eapply lookup_lt_Some.
Qed.

Lemma NoDup_all_equal (l : list nat) (i : nat) :
  NoDup l -> (forall j, j ∈ l -> j = i) -> length l <= 1.
Proof.
  intros Hnd H. destruct l as [|a [|b l]]; simpl; try lia.
  assert (a = i) by (apply H; apply list_elem_of_here).
  assert (b = i) by (apply H; apply list_elem_of_further, list_elem_of_here).
  subst. apply NoDup_cons in Hnd as [Hnd _]. destruct Hnd. apply list_elem_of_here.
Qed.

(** X12: after [cluster_ideas] the market signal of an item is 25, 50, 75
    or 100; it is 25 exactly for an item whose idea summary is similar to
    that of no other item. *)
Theorem market_signal_values (items out : list SaaSIdeaItem) (threshold : float)
    (i : nat) (x : SaaSIdeaItem) :
  cluster_ideas items threshold = Some out -> out !! i = Some x ->
  (market_signal x = 25 \/ market_signal x = 50 \/
   market_signal x = 75 \/ market_signal x = 100)%Z /\
  (market_signal x = 25%Z <-> isolated items threshold i).
Proof.
  intros Hout Hx.
  destruct (cluster_ideas_result _ _ _ Hout) as (f & Hlen & Hconn & Hitem).
  destruct (Hitem i x Hx) as (x0 & k & Hx0 & Hk & ->). simpl.
  assert (Hi : i < length items) by (by eapply lookup_lt_Some).
  set (members := filter (fun j => f j = f i) (seq 0 (length items))).
  assert (Hin : i ∈ members).
  { apply list_elem_of_filter. split; [done|]. apply elem_of_seq. lia. }
  assert (Hnd : NoDup members) by apply NoDup_filter, NoDup_seq.
  assert (Hpos : 1 <= length members).
  { destruct members; [by apply not_elem_of_nil in Hin | simpl; lia]. }
  split; [lia|].
  assert (Hone : length members = 1 <-> isolated items threshold i).
  { split.
    - intros Hl k' Hne.
      assert (Hno : k' ∉ members).
      { intros Hk'. destruct members as [|a [|b l]]; simpl in Hl; try lia.
        apply list_elem_of_singleton in Hin, Hk'. congruence. }
      split; intros Hs; apply Hno; apply list_elem_of_filter;
        pose proof (similar_summaries_bound _ _ _ _ Hs) as [H1 H2].
      + split; [|apply elem_of_seq; lia]. symmetry. apply Hconn; [done..|].
        by apply rst_step.
      + split; [|apply elem_of_seq; lia]. apply Hconn; [done..|].
        by apply rst_step.
    - intros Hiso. assert (length members <= 1); [|lia].
      apply (NoDup_all_equal _ i Hnd). intros j Hj.
      apply list_elem_of_filter in Hj as [Hf Hj]. apply elem_of_seq in Hj.
      apply (isolated_connected items threshold); [done|].
      apply Hconn; [done | lia | done]. }
  rewrite <- Hone. lia.
Qed.

(** *** The threshold *)

Lemma connected_weaken items t1 t2 i j :
  PrimFloat.leb t1 t2 = true ->
  connected items t2 i j -> connected items t1 i j.
Proof.
  intros Ht H. induction H as [x y (a & b & Ha & Hb & Hs)| | |].
  - apply rst_step. exists a, b. split; [done|]. split; [done|].
    unfold similar, Dedupe.similar in *. by apply leb_trans with t2.
  - apply rst_refl.
  - by apply rst_sym.
  - by eapply rst_trans.
Qed.

(** X13: lowering the threshold only merges clusters: two items that share
    a cluster at the higher threshold share one at the lower threshold, and
    no market signal is lower at the lower threshold. *)
Theorem cluster_ideas_threshold_monotone (items out1 out2 : list SaaSIdeaItem)
    (t1 t2 : float) :
  PrimFloat.leb t1 t2 = true ->
  cluster_ideas items t1 = Some out1 -> cluster_ideas items t2 = Some out2 ->
  forall i j x1 y1 x2 y2,
    out1 !! i = Some x1 -> out1 !! j = Some y1 ->
    out2 !! i = Some x2 -> out2 !! j = Some y2 ->
    (cluster_id x2 = cluster_id y2 -> cluster_id x1 = cluster_id y1) /\
    (market_signal x2 <= market_signal x1)%Z.
Proof.
  intros Ht Ho1 Ho2 i j x1 y1 x2 y2 Hx1 Hy1 Hx2 Hy2.
  destruct (cluster_ideas_result _ _ _ Ho1) as (f1 & Hlen1 & Hconn1 & Hitem1).
  destruct (cluster_ideas_result _ _ _ Ho2) as (f2 & Hlen2 & Hconn2 & Hitem2).
  destruct (Hitem1 i x1 Hx1) as (x0 & k1 & Hx0 & Hk1 & ->).
  destruct (Hitem1 j y1 Hy1) as (y0 & l1 & Hy0 & Hl1 & ->).
  destruct (Hitem2 i x2 Hx2) as (x0' & k2 & Hx0' & Hk2 & ->).
  destruct (Hitem2 j y2 Hy2) as (y0' & l2 & Hy0' & Hl2 & ->).
  simpl.
  assert (Hi : i < length items) by (by eapply lookup_lt_Some).
  assert (Hj : j < length items) by (by eapply lookup_lt_Some).
  split.
  - intros E. apply Nat2Z.inj in E. subst l2.
    assert (f2 i = f2 j) by congruence.
    assert (Hc : connected items t1 i j).
    { apply (connected_weaken _ _ t2); [done|]. by apply Hconn2. }
    apply Hconn1 in Hc; [|done..].
    f_equal. rewrite <- Hc in Hl1.
    apply (NoDup_lookup _ _ _ _ (first_seen_keys_NoDup f1 (seq 0 (length items)))
             Hk1 Hl1).
  - assert (Hsub : filter (fun j => f2 j = f2 i) (seq 0 (length items))
                   ⊆ filter (fun j => f1 j = f1 i) (seq 0 (length items))).
    { intros m Hm. apply list_elem_of_filter in Hm as [Hf Hm].
      apply list_elem_of_filter. split; [|done]. apply elem_of_seq in Hm.
      apply Hconn1; [lia | done |].
      apply (connected_weaken _ _ t2); [done|]. apply Hconn2; [lia | done | done]. }
    assert (Hle : length (filter (fun j => f2 j = f2 i) (seq 0 (length items)))
                  <= length (filter (fun j => f1 j = f1 i) (seq 0 (length items)))).
    { apply submseteq_length, NoDup_submseteq; [|done].
      apply NoDup_filter, NoDup_seq. }
    lia.
Qed.

(** *** [_find_root] and [_union] *)

(** X9: on a forest that satisfies the invariant of the loops, [_find_root]
    returns within [n] steps the representative of [i]; the path halving
    changes no representative and keeps the invariant. *)
Theorem find_root_keeps_sets (n fuel i : nat) (parent rank : list nat) :
  uf_ok n parent rank -> i < n -> n <= fuel ->
  exists parent' r,
    _find_root fuel parent i = Some (parent', r) /\
    is_root_of parent i r /\
    uf_ok n parent' rank /\
    forall j r', is_root_of parent' j r' <-> is_root_of parent j r'.
Proof.
  intros Hok Hi Hfuel.
  destruct (lookup_lt_is_Some_2 rank i) as [ri Hri];
    [by rewrite (uf_rank_length _ _ _ Hok)|].
  apply (find_root_spec n parent rank fuel i ri Hok Hri). lia.
Qed.

(** X10: on such a forest [_union] returns, keeps the invariant, and merges
    the sets of [a] and [b] and no other: two indices are in one set
    afterwards exactly when they were, or when one was with [a] and the other
    with [b]. *)
Theorem union_merges_two_sets (n fuel a b : nat) (parent rank : list nat) :
  uf_ok n parent rank -> a < n -> b < n -> n <= fuel ->
  exists parent' rank',
    _union fuel (parent, rank) a b = Some (parent', rank') /\
    uf_ok n parent' rank' /\
    forall i j,
      same_set parent' i j <->
      same_set parent i j \/
      (same_set parent i a /\ same_set parent b j) \/
      (same_set parent i b /\ same_set parent a j).
Proof. apply union_spec. Qed.

(** *** At the sample inputs *)

Import Samples.

Lemma chain_forest_ok : uf_ok 3 chain_parent chain_rank.
Proof.
  unfold chain_parent, chain_rank. constructor.
  - reflexivity.
  - reflexivity.
  - intros i p H. destruct i as [|[|[|i]]]; simpl in H; try discriminate;
      injection H as <-; lia.
  - intros i p ri rp Hp Hne Hi Hr.
    destruct i as [|[|[|i]]]; simpl in Hp, Hi; try discriminate;
      injection Hp as <-; injection Hi as <-; simpl in Hr;
      try (injection Hr as <-); lia.
  - intros i ri k Hi Hk.
    destruct i as [|[|[|i]]]; simpl in Hi; try discriminate; injection Hi as <-;
      try lia.
    + assert (k = 0) as -> by lia. by exists 0.
    + destruct k as [|[|k]]; [by exists 0 | by exists 1 | lia].
Qed.

(** X9 at the chain 0 -> 1 -> 2: the representative of 0 is found. *)
Lemma find_root_keeps_sets_witness :
  exists parent' r,
    _find_root 3 chain_parent 0 = Some (parent', r) /\
    is_root_of chain_parent 0 r /\
    uf_ok 3 parent' chain_rank /\
    forall j r', is_root_of parent' j r' <-> is_root_of chain_parent j r'.
Proof.
  apply (find_root_keeps_sets 3 3 0 chain_parent chain_rank chain_forest_ok); lia.
Defined.

(** X10 at the forest of two singletons. *)
Lemma union_merges_two_sets_witness :
  exists parent' rank',
    _union 2 (seq 0 2, replicate 2 0) 0 1 = Some (parent', rank') /\
    uf_ok 2 parent' rank' /\
    forall i j,
      same_set parent' i j <->
      same_set (seq 0 2) i j \/
      (same_set (seq 0 2) i 0 /\ same_set (seq 0 2) 1 j) \/
      (same_set (seq 0 2) i 1 /\ same_set (seq 0 2) 0 j).
Proof.
  apply (union_merges_two_sets 2 2 0 1 (seq 0 2) (replicate 2 0) (initial_ok 2)); lia.
Defined.

Lemma four_ideas_run :
  cluster_ideas four_ideas 0.3%float
  = Some (default [] (cluster_ideas four_ideas 0.3%float)).
Proof. vm_compute. reflexivity. Qed.

Lemma four_ideas_run_high :
  cluster_ideas four_ideas 0.7%float
  = Some (default [] (cluster_ideas four_ideas 0.7%float)).
Proof. vm_compute. reflexivity. Qed.

Lemma four_ideas_last :
  default [] (cluster_ideas four_ideas 0.3%float) !! 3
  = Some (set_cluster 1 25 (idea "d" "invoice tracker")).
Proof. vm_compute. reflexivity. Qed.

(** X11 at the four ideas: the last item is in a cluster numbered at most
    3, and every smaller number is the cluster of an earlier item. *)
Lemma cluster_ids_first_seen_witness :
  (0 <= cluster_id (set_cluster 1 25 (idea "d" "invoice tracker")) <= Z.of_nat 3)%Z /\
  forall c, (0 <= c < cluster_id (set_cluster 1 25 (idea "d" "invoice tracker")))%Z ->
    exists j y, j < 3 /\
      default [] (cluster_ideas four_ideas 0.3%float) !! j = Some y /\
      cluster_id y = c.
Proof.
  exact (cluster_ids_first_seen four_ideas _ 0.3%float four_ideas_run 3 _
           four_ideas_last).
Defined.

(** X12 at the four ideas: the last item has the market signal 25 and is
    similar to no other. *)
Lemma market_signal_values_witness :
  market_signal (set_cluster 1 25 (idea "d" "invoice tracker")) = 25%Z <->
  isolated four_ideas 0.3%float 3.
Proof.
  exact (proj2 (market_signal_values four_ideas _ 0.3%float 3 _ four_ideas_run
                  four_ideas_last)).
Defined.

Lemma three_tenths_below_seven_tenths : PrimFloat.leb 0.3 0.7 = true.
Proof. vm_compute. reflexivity. Qed.

Lemma four_ideas_first_two :
  default [] (cluster_ideas four_ideas 0.3%float) !! 0
  = Some (set_cluster 0 75 (idea "a" "crm for dog groomers")) /\
  default [] (cluster_ideas four_ideas 0.3%float) !! 1
  = Some (set_cluster 0 75 (idea "b" "booking app for dog groomers")) /\
  default [] (cluster_ideas four_ideas 0.7%float) !! 0
  = Some (set_cluster 0 25 (idea "a" "crm for dog groomers")) /\
  default [] (cluster_ideas four_ideas 0.7%float) !! 1
  = Some (set_cluster 1 25 (idea "b" "booking app for dog groomers")).
Proof. vm_compute. repeat split. Qed.

(** X13 at the four ideas, for the thresholds 0.3 and 0.7: the first item
    has the market signal 75 at 0.3 and 25 at 0.7. *)
Lemma cluster_ideas_threshold_monotone_witness :
  (market_signal (set_cluster 0 25 (idea "a" "crm for dog groomers"))
   <= market_signal (set_cluster 0 75 (idea "a" "crm for dog groomers")))%Z.
Proof.
  destruct four_ideas_first_two as (H1 & H2 & H3 & H4).
  exact (proj2 (cluster_ideas_threshold_monotone four_ideas _ _ 0.3%float 0.7%float
                  three_tenths_below_seven_tenths four_ideas_run four_ideas_run_high
                  0 1 _ _ _ _ H1 H2 H3 H4)).
Defined.

End ClusterLaws.

(* ===================================================================== *)
(** ** More on the scorer *)
(* ===================================================================== *)

Module ScoreLaws.
Import Py Schema Score Notions ScoreProps FloatOrder.

Lemma signal_scores_lookup (s : string) (v : Z) :
  SIGNAL_TYPE_SCORES !! s = Some v ->
  (s = "wish" /\ v = 90%Z) \/ (s = "problem" /\ v = 80%Z) \/
  (s = "feature_gap" /\ v = 75%Z) \/ (s = "building" /\ v = 70%Z) \/
  (s = "workflow" /\ v = 65%Z).
Proof.
  unfold SIGNAL_TYPE_SCORES. rewrite !lookup_insert_Some, lookup_empty.
  intros H. repeat (destruct H as [[<- <-]|[_ H]]; [tauto|]). done.
Qed.

(** X14: the idea quality is at least 65, the fallback and the lowest entry
    of the table, and at most 100; the bonus for a target audience never
    lowers it and adds at most 10, and an audience of ten characters or fewer
    earns none. *)
Theorem idea_quality_range (it : SaaSIdeaItem) :
  let base := default 65%Z (SIGNAL_TYPE_SCORES !! signal_type it) in
  (65 <= _compute_idea_quality it <= 100)%Z /\
  (base <= _compute_idea_quality it <= base + 10)%Z /\
  (String.length (target_audience it) <= 10 -> _compute_idea_quality it = base).
Proof.
  intros base.
  assert (Hb : (65 <= base <= 90)%Z).
  { unfold base. destruct (SIGNAL_TYPE_SCORES !! signal_type it) as [v|] eqn:E;
      simpl; [|lia].
    apply signal_scores_lookup in E. lia. }
  unfold _compute_idea_quality. fold base.
  destruct (negb (String.eqb (target_audience it) "")
            && (10 <? String.length (target_audience it))) eqn:E.
  - apply andb_true_iff in E as [_ E]. apply Nat.ltb_lt in E. lia.
  - split; [lia|]. split; [lia|]. done.
Qed.

(** X15: a greater acceleration never scores lower, and the growth score is
    between 0 and 100. *)
Theorem growth_score_monotone (a b : float) :
  PrimFloat.leb a b = true ->
  (0 <= _compute_growth_score a <= _compute_growth_score b)%Z /\
  (_compute_growth_score b <= 100)%Z.
Proof.
  intros Hab.
  assert (H : forall c, PrimFloat.leb c a = true -> PrimFloat.leb c b = true).
  { intros c Hc. by apply leb_trans with a. }
  unfold _compute_growth_score.
  destruct (PrimFloat.leb 3.0 a) eqn:E3; [rewrite (H _ E3); lia|].
  destruct (PrimFloat.leb 2.0 a) eqn:E2;
    [rewrite (H _ E2); destruct (PrimFloat.leb 3.0 b); lia|].
  destruct (PrimFloat.leb 1.5 a) eqn:E15;
    [rewrite (H _ E15); destruct (PrimFloat.leb 3.0 b), (PrimFloat.leb 2.0 b); lia|].
  destruct (PrimFloat.leb 1.2 a) eqn:E12;
    [rewrite (H _ E12);
     destruct (PrimFloat.leb 3.0 b), (PrimFloat.leb 2.0 b), (PrimFloat.leb 1.5 b); lia|].
  destruct (PrimFloat.leb 1.0 a) eqn:E1;
    [rewrite (H _ E1);
     destruct (PrimFloat.leb 3.0 b), (PrimFloat.leb 2.0 b), (PrimFloat.leb 1.5 b),
       (PrimFloat.leb 1.2 b); lia|].
  destruct (PrimFloat.leb 3.0 b), (PrimFloat.leb 2.0 b), (PrimFloat.leb 1.5 b),
    (PrimFloat.leb 1.2 b), (PrimFloat.leb 1.0 b); lia.
Qed.

(** X15 at the accelerations 1.3 and 2.5. *)
Lemma growth_score_monotone_witness :
  (0 <= _compute_growth_score 1.3 <= _compute_growth_score 2.5)%Z /\
  (_compute_growth_score 2.5 <= 100)%Z.
Proof. apply growth_score_monotone. vm_compute. reflexivity. Defined.

(** *** Floats at a zero *)

Lemma finite_sub_self (x : float) :
  is_finite x = true -> exists s, Prim2SF (x - x) = S754_zero s.
Proof.
  unfold is_finite. intros H. rewrite FloatAxioms.sub_spec.
  destruct (Prim2SF x) as [s|s| |s m e]; try discriminate.
  - destruct s; by eexists.
  - unfold SF64sub, SFsub.
    destruct s; cbn [cond_Zopp]; rewrite ?Z.sub_diag; by eexists.
Qed.

(** [0 / r * 100] is a zero when [r] is a number and not a zero. *)
Lemma zero_div_mul (z r : float) s :
  Prim2SF z = S754_zero s -> PrimFloat.eqb r r = true -> PrimFloat.eqb r 0 = false ->
  exists s', Prim2SF (z / r * 100) = S754_zero s'.
Proof.
  intros Hz Hr Hr0.
  rewrite FloatAxioms.eqb_spec in Hr, Hr0.
  rewrite FloatAxioms.mul_spec, FloatAxioms.div_spec, Hz.
  destruct (Prim2SF r) as [sr|sr| |sr mr er]; try discriminate.
  - simpl. by eexists.
  - simpl. by eexists.
Qed.

Lemma zero_int (z : float) s : Prim2SF z = S754_zero s -> int_of_float z = Some 0%Z.
Proof. unfold int_of_float. by intros ->. Qed.

(** *** Batches *)

Section Collaborators.
Variable log1p : Z -> float.
Variable recency_score : option string -> Z -> Z.

(** What the scorer returns for the item at [i], read from the output. *)
Lemma score_saas_items_at items out i it' :
  score_saas_items log1p recency_score items = Some out -> out !! i = Some it' ->
  exists it norm,
    items !! i = Some it /\
    normalize_to_100 (map (engagement_raw log1p) items) 50 !! i = Some norm /\
    score_item recency_score it (engagement_raw log1p it) norm = Some it'.
Proof.
  intros H Ho.
  assert (Hlen := score_saas_items_length _ _ _ _ H).
  destruct (lookup_lt_is_Some_2 items i) as [it Hi].
  { rewrite <- Hlen. by apply lookup_lt_is_Some_1. }
  destruct (score_saas_items_lookup _ _ _ _ _ _ H Hi) as (norm & it2 & Hn & Ho2 & Hs).
  rewrite Ho in Ho2. injection Ho2 as <-. by exists it, norm.
Qed.

Lemma score_saas_items_fields items out i it' :
  score_saas_items log1p recency_score items = Some out -> out !! i = Some it' ->
  exists it, items !! i = Some it /\ it' = set_scores (subs it') (score it') it.
Proof.
  intros H Ho. destruct (score_saas_items_at _ _ _ _ H Ho) as (it & norm & Hi & _ & Hs).
  exists it. split; [done|].
  by destruct (score_item_spec _ _ _ _ _ Hs) as (_ & _ & _ & _ & _ & _ & Hit).
Qed.

(** X16: [score_saas_items] returns as many items as it was given, in the
    same order, and writes the subscores and the score only: the item at [i]
    is the input item at [i] in every other field. *)
Theorem score_saas_items_keeps_fields (items out : list SaaSIdeaItem) :
  score_saas_items log1p recency_score items = Some out ->
  length out = length items /\
  forall i it', out !! i = Some it' ->
    exists it, items !! i = Some it /\
      it' = set_scores (subs it') (score it') it /\
      id it' = id it /\ title it' = title it /\ date it' = date it /\
      cluster_id it' = cluster_id it /\ market_signal it' = market_signal it.
Proof.
  intros H. split; [by eapply score_saas_items_length|].
  intros i it' Ho. destruct (score_saas_items_fields _ _ _ _ H Ho) as (it & Hi & Hit).
  exists it. split; [done|]. split; [done|]. by rewrite Hit.
Qed.

Lemma omap_all_equal (values : list (option float)) (v : float) :
  (forall x, In x values -> x = None \/ x = Some v) ->
  forall w, In w (omap (fun x => x) values) -> w = v.
Proof.
  intros H w Hw. apply list_elem_of_In, list_elem_of_omap in Hw as (x & Hx & Hxw).
  simpl in Hxw. subst x. apply list_elem_of_In in Hx.
  destruct (H _ Hx) as [?|?]; congruence.
Qed.

Lemma normalize_to_100_all_equal (values : list (option float)) (d v : float) :
  is_finite v = true ->
  (forall x, In x values -> x = None \/ x = Some v) ->
  In (Some v) values ->
  normalize_to_100 values d = map (fun _ => Some 50%float) values.
Proof.
  intros Hfin Hall Hin. unfold normalize_to_100.
  pose proof (omap_all_equal values v Hall) as Heq.
  destruct (omap (fun x => x) values) as [|v0 rest] eqn:E.
  - assert (Hv : v ∈ omap (fun x => x) values).
    { apply list_elem_of_omap. exists (Some v). split; [by apply list_elem_of_In | done]. }
    rewrite E in Hv. by apply not_elem_of_nil in Hv.
  - assert (v0 = v) as -> by (apply Heq; by left).
    rewrite min_float_all_equal, max_float_all_equal
      by (intros w Hw; apply Heq; by right).
    by rewrite sub_self_is_zero.
Qed.

(** X17: when the raw engagements that are known are all one finite value,
    as in a batch where one item only has engagement data, every item gets
    the engagement subscore 50, also the items whose engagement is unknown,
    which do not get the 35 of [DEFAULT_ENGAGEMENT]. *)
Theorem equal_engagements_score_50 (items out : list SaaSIdeaItem) (v : float) :
  is_finite v = true ->
  (forall it, In it items ->
     engagement_raw log1p it = None \/ engagement_raw log1p it = Some v) ->
  (exists it, In it items /\ engagement_raw log1p it = Some v) ->
  score_saas_items log1p recency_score items = Some out ->
  forall i it', out !! i = Some it' -> engagement_sub (subs it') = 50%Z.
Proof.
  intros Hfin Hall (it0 & Hin0 & Hraw0) H i it' Ho.
  destruct (score_saas_items_at _ _ _ _ H Ho) as (it & norm & Hi & Hn & Hs).
  rewrite (normalize_to_100_all_equal _ _ v Hfin) in Hn.
  - rewrite list_lookup_fmap, list_lookup_fmap, Hi in Hn. injection Hn as <-.
    destruct (score_item_spec _ _ _ _ _ Hs) as (eng & n & He & Hsub & _).
    rewrite Hsub. simpl. vm_compute in He. congruence.
  - intros x Hx. apply in_map_iff in Hx as (y & <- & Hy). by apply Hall.
  - apply in_map_iff. by exists it0.
Qed.

(** X18: the item whose raw engagement is the least of the batch gets the
    engagement subscore 0, which is below the 35 of an item whose engagement
    is unknown: [normalize_to_100] maps the least value [min_val], when it is
    finite and the range is a number other than zero, to a zero. *)
Theorem lowest_engagement_scores_0 (items out : list SaaSIdeaItem)
    (v0 : float) (rest : list float) (i : nat) (it : SaaSIdeaItem) :
  let values := map (engagement_raw log1p) items in
  let min_val := min_float v0 rest in
  let range_val := (max_float v0 rest - min_val)%float in
  omap (fun v => v) values = v0 :: rest ->
  is_finite min_val = true ->
  PrimFloat.eqb range_val range_val = true ->
  PrimFloat.eqb range_val 0 = false ->
  items !! i = Some it -> engagement_raw log1p it = Some min_val ->
  (exists z, normalize_to_100 values 50 !! i = Some (Some z) /\
             PrimFloat.eqb z 0 = true) /\
  (score_saas_items log1p recency_score items = Some out ->
   exists it', out !! i = Some it' /\ engagement_sub (subs it') = 0%Z).
Proof.
  intros values min_val range_val Hvalid Hfin Hnum Hnz Hi Hraw.
  destruct (finite_sub_self _ Hfin) as [s0 Hz0].
  destruct (zero_div_mul _ range_val _ Hz0 Hnum Hnz) as [s Hz].
  assert (Hn : normalize_to_100 values 50 !! i
               = Some (Some ((min_val - min_val) / range_val * 100)%float)).
  { unfold normalize_to_100. rewrite Hvalid. fold min_val range_val. rewrite Hnz.
    unfold values. rewrite !list_lookup_fmap, Hi. simpl. by rewrite Hraw. }
  split.
  - eexists. split; [exact Hn|]. by rewrite FloatAxioms.eqb_spec, Hz.
  - intros H.
    destruct (score_saas_items_lookup _ _ _ _ _ _ H Hi) as (norm & it' & Hn' & Ho & Hs).
    fold values in Hn'. rewrite Hn in Hn'. injection Hn' as <-.
    exists it'. split; [done|].
    destruct (score_item_spec _ _ _ _ _ Hs) as (eng & n & He & Hsub & _).
    rewrite Hsub. simpl. rewrite (zero_int _ _ Hz) in He. congruence.
Qed.

End Collaborators.

(** *** At the sample inputs *)

Import Samples.

Lemma lone_thread_run :
  score_saas_items log1p_at_0 recency_20 lone_thread_batch
  = Some (default [] (score_saas_items log1p_at_0 recency_20 lone_thread_batch)).
Proof. vm_compute. reflexivity. Qed.

(** X16 at a thread and an item without engagement data. *)
Lemma score_saas_items_keeps_fields_witness :
  length (default [] (score_saas_items log1p_at_0 recency_20 lone_thread_batch))
  = length lone_thread_batch.
Proof.
  exact (proj1 (score_saas_items_keeps_fields log1p_at_0 recency_20
                  lone_thread_batch _ lone_thread_run)).
Defined.

Lemma lone_thread_raws (it : SaaSIdeaItem) :
  In it lone_thread_batch ->
  engagement_raw log1p_at_0 it = None \/
  engagement_raw log1p_at_0 it = Some 0.25%float.
Proof. intros [<-|[<-|[]]]; [right | left]; vm_compute; reflexivity. Qed.

Lemma lone_thread_known :
  exists it, In it lone_thread_batch /\
             engagement_raw log1p_at_0 it = Some 0.25%float.
Proof.
  exists (reddit_item "a" "one" (Some (fresh_thread None))).
  split; [by left | vm_compute; reflexivity].
Qed.

Lemma lone_thread_second :
  exists it',
    default [] (score_saas_items log1p_at_0 recency_20 lone_thread_batch) !! 1
    = Some it'.
Proof. vm_compute. by eexists. Qed.

(** X17 at that batch: the item without engagement data gets 50. *)
Lemma equal_engagements_score_50_witness :
  exists it',
    default [] (score_saas_items log1p_at_0 recency_20 lone_thread_batch) !! 1
    = Some it' /\
    engagement_sub (subs it') = 50%Z.
Proof.
  destruct lone_thread_second as [it' H]. exists it'. split; [exact H|].
  apply (equal_engagements_score_50 log1p_at_0 recency_20 lone_thread_batch _
           0.25%float eq_refl lone_thread_raws lone_thread_known lone_thread_run
           1 it' H).
Defined.

Lemma mixed_batch_facts :
  omap (fun v => v) (map (engagement_raw log1p_at_0) mixed_batch)
  = [0.25%float; default 0%float (engagement_raw log1p_at_0
                                    (reddit_item "b" "two"
                                       (Some (fresh_thread (Some 0.9%float)))))] /\
  min_float 0.25
    [default 0%float (engagement_raw log1p_at_0
                        (reddit_item "b" "two"
                           (Some (fresh_thread (Some 0.9%float)))))]
  = 0.25%float.
Proof. vm_compute. split; reflexivity. Qed.

Lemma mixed_batch_run :
  score_saas_items log1p_at_0 recency_20 mixed_batch
  = Some (default [] (score_saas_items log1p_at_0 recency_20 mixed_batch)).
Proof. vm_compute. reflexivity. Qed.

(** X18 at two threads and an item without engagement data: the thread with
    the lower raw engagement gets 0. *)
Lemma lowest_engagement_scores_0_witness :
  exists it',
    default [] (score_saas_items log1p_at_0 recency_20 mixed_batch) !! 0
    = Some it' /\
    engagement_sub (subs it') = 0%Z.
Proof.
  destruct mixed_batch_facts as [Hvalid Hmin].
  destruct (lowest_engagement_scores_0 log1p_at_0 recency_20 mixed_batch
              (default [] (score_saas_items log1p_at_0 recency_20 mixed_batch))
              0.25%float _ 0
              (reddit_item "a" "one" (Some (fresh_thread None))) Hvalid)
    as [_ H].
  - vm_compute. reflexivity.
  - vm_compute. reflexivity.
  - vm_compute. reflexivity.
  - reflexivity.
  - rewrite Hmin. vm_compute. reflexivity.
  - exact (H mixed_batch_run).
Defined.

End ScoreLaws.

(* ===================================================================== *)
(** ** More on the sorting *)
(* ===================================================================== *)

Module SortLaws.
Import Py Schema Score Parsers Notions SortProps.

(** *** Dates and their numbers *)

Lemma ascii_compare_code (a b : ascii) :
  Ascii.compare a b = Nat.compare (code a) (code b).
Proof. unfold Ascii.compare, code, nat_of_ascii. apply Nnat.N2Nat.inj_compare. Qed.

Lemma is_digit_bounds (c : ascii) : is_digit c = true -> 48 <= code c <= 57.
Proof. unfold is_digit. rewrite andb_true_iff, !Nat.leb_le. lia. Qed.

(** The characters of a date and the number that [int] reads from it. *)
Lemma iso_date_parts (s : string) :
  iso_date s = true ->
  exists y1 y2 y3 y4 h1 m1 m2 h2 d1 d2,
    s = String y1 (String y2 (String y3 (String y4 (String h1
          (String m1 (String m2 (String h2 (String d1 (String d2 ""))))))))) /\
    (is_digit y1 = true /\ is_digit y2 = true /\ is_digit y3 = true /\
     is_digit y4 = true /\ is_digit m1 = true /\ is_digit m2 = true /\
     is_digit d1 = true /\ is_digit d2 = true) /\
    code h1 = 45 /\ code h2 = 45 /\
    int_of_str (remove_dashes s)
    = Some (10 * (10 * (10 * (10 * (10 * (10 * (10 * (10 * 0 + digit y1)
              + digit y2) + digit y3) + digit y4) + digit m1) + digit m2)
              + digit d1) + digit d2)%Z.
Proof.
  unfold iso_date, matches_date. rewrite andb_true_iff. intros [Hm Hl].
  destruct s as [|y1 [|y2 [|y3 [|y4 [|h1 [|m1 [|m2 [|h2 [|d1 [|d2 rest]]]]]]]]]];
    try discriminate.
  destruct rest as [|r rest]; [|simpl in Hl; discriminate].
  rewrite !andb_true_iff in Hm.
  destruct Hm as ((((((((((Hy1 & Hy2) & Hy3) & Hy4) & Hh1) & Hm1) & Hm2) & Hh2) & Hd1) & Hd2) & _).
  exists y1, y2, y3, y4, h1, m1, m2, h2, d1, d2.
  split; [done|]. split; [done|].
  split; [by apply Nat.eqb_eq|]. split; [by apply Nat.eqb_eq|].
  destruct (digit_facts _ Hy1) as (Sy1 & Dy1 & Py1 & _).
  destruct (digit_facts _ Hy2) as (Sy2 & Dy2 & _).
  destruct (digit_facts _ Hy3) as (Sy3 & Dy3 & _).
  destruct (digit_facts _ Hy4) as (Sy4 & Dy4 & _).
  destruct (digit_facts _ Hm1) as (Sm1 & Dm1 & _).
  destruct (digit_facts _ Hm2) as (Sm2 & Dm2 & _).
  destruct (digit_facts _ Hd1) as (Sd1 & Dd1 & _).
  destruct (digit_facts _ Hd2) as (Sd2 & Dd2 & _).
  unfold int_of_str, strip, digit. simpl.
  rewrite ?Dy1, ?Dy2, ?Dy3, ?Dy4, ?Hh1, ?Dm1, ?Dm2, ?Hh2, ?Dd1, ?Dd2; simpl;
    rewrite ?Sy1; simpl;
    rewrite ?Sy1, ?Sy2, ?Sy3, ?Sy4, ?Sm1, ?Sm2, ?Sd1, ?Sd2; simpl;
    rewrite ?Py1, ?Dy1; simpl;
    rewrite ?Hy1, ?Hy2, ?Hy3, ?Hy4, ?Hm1, ?Hm2, ?Hd1, ?Hd2; simpl.
  reflexivity.
Qed.

Lemma digit_compare (a b : ascii) :
  is_digit a = true -> is_digit b = true ->
  Nat.compare (code a) (code b) = Z.compare (digit a) (digit b).
Proof.
  intros Ha Hb. apply is_digit_bounds in Ha, Hb. unfold digit.
  destruct (Nat.compare_spec (code a) (code b)),
           (Z.compare_spec (Z.of_nat (code a - 48)) (Z.of_nat (code b - 48)));
    (reflexivity || lia).
Qed.

Lemma digit_range (a : ascii) : is_digit a = true -> (0 <= digit a <= 9)%Z.
Proof. intros Ha. apply is_digit_bounds in Ha. unfold digit. lia. Qed.

Lemma digit_inj (a b : ascii) :
  is_digit a = true -> is_digit b = true -> digit a = digit b -> a = b.
Proof.
  intros Ha Hb H. apply is_digit_bounds in Ha, Hb. unfold digit in H.
  assert (E : code a = code b) by lia. unfold code in E.
  by rewrite <- (ascii_nat_embedding a), <- (ascii_nat_embedding b), E.
Qed.

(** Numbers of eight decimal digits compare as their digits do, the first
    digit first. *)
Lemma lex_digits (x1 x2 x3 x4 x5 x6 x7 x8 y1 y2 y3 y4 y5 y6 y7 y8 : Z) :
  (0 <= x1 <= 9 -> 0 <= x2 <= 9 -> 0 <= x3 <= 9 -> 0 <= x4 <= 9 ->
   0 <= x5 <= 9 -> 0 <= x6 <= 9 -> 0 <= x7 <= 9 -> 0 <= x8 <= 9 ->
   0 <= y1 <= 9 -> 0 <= y2 <= 9 -> 0 <= y3 <= 9 -> 0 <= y4 <= 9 ->
   0 <= y5 <= 9 -> 0 <= y6 <= 9 -> 0 <= y7 <= 9 -> 0 <= y8 <= 9 ->
   match x1 ?= y1 with
   | Eq => match x2 ?= y2 with
     | Eq => match x3 ?= y3 with
       | Eq => match x4 ?= y4 with
         | Eq => match x5 ?= y5 with
           | Eq => match x6 ?= y6 with
             | Eq => match x7 ?= y7 with
               | Eq => match x8 ?= y8 with Eq => Eq | Lt => Lt | Gt => Gt end
               | Lt => Lt | Gt => Gt end
             | Lt => Lt | Gt => Gt end
           | Lt => Lt | Gt => Gt end
         | Lt => Lt | Gt => Gt end
       | Lt => Lt | Gt => Gt end
     | Lt => Lt | Gt => Gt end
   | Lt => Lt | Gt => Gt end
   = (10 * (10 * (10 * (10 * (10 * (10 * (10 * (10 * 0 + x1) + x2) + x3) + x4)
        + x5) + x6) + x7) + x8
      ?= 10 * (10 * (10 * (10 * (10 * (10 * (10 * (10 * 0 + y1) + y2) + y3) + y4)
        + y5) + y6) + y7) + y8))%Z.
Proof.
  intros.
  destruct (Z.compare_spec x1 y1); [|symmetry; apply Z.compare_lt_iff; lia
                                    |symmetry; apply Z.compare_gt_iff; lia].
  destruct (Z.compare_spec x2 y2); [|symmetry; apply Z.compare_lt_iff; lia
                                    |symmetry; apply Z.compare_gt_iff; lia].
  destruct (Z.compare_spec x3 y3); [|symmetry; apply Z.compare_lt_iff; lia
                                    |symmetry; apply Z.compare_gt_iff; lia].
  destruct (Z.compare_spec x4 y4); [|symmetry; apply Z.compare_lt_iff; lia
                                    |symmetry; apply Z.compare_gt_iff; lia].
  destruct (Z.compare_spec x5 y5); [|symmetry; apply Z.compare_lt_iff; lia
                                    |symmetry; apply Z.compare_gt_iff; lia].
  destruct (Z.compare_spec x6 y6); [|symmetry; apply Z.compare_lt_iff; lia
                                    |symmetry; apply Z.compare_gt_iff; lia].
  destruct (Z.compare_spec x7 y7); [|symmetry; apply Z.compare_lt_iff; lia
                                    |symmetry; apply Z.compare_gt_iff; lia].
  subst. destruct (Z.compare_spec x8 y8);
    [symmetry; apply Z.compare_eq_iff; lia
    |symmetry; apply Z.compare_lt_iff; lia
    |symmetry; apply Z.compare_gt_iff; lia].
Qed.

(** Two dates compare as strings the way their numbers compare. *)
Lemma iso_date_compare (s1 s2 : string) (n1 n2 : Z) :
  iso_date s1 = true -> iso_date s2 = true ->
  int_of_str (remove_dashes s1) = Some n1 ->
  int_of_str (remove_dashes s2) = Some n2 ->
  String.compare s1 s2 = Z.compare n1 n2.
Proof.
  intros H1 H2.
  destruct (iso_date_parts _ H1)
    as (a1 & a2 & a3 & a4 & g1 & a5 & a6 & g2 & a7 & a8 & -> & Ha & Hg1 & Hg2 & ->).
  destruct (iso_date_parts _ H2)
    as (b1 & b2 & b3 & b4 & k1 & b5 & b6 & k2 & b7 & b8 & -> & Hb & Hk1 & Hk2 & ->).
  intros [= <-] [= <-].
  destruct Ha as (A1 & A2 & A3 & A4 & A5 & A6 & A7 & A8).
  destruct Hb as (B1 & B2 & B3 & B4 & B5 & B6 & B7 & B8).
  cbn [String.compare].
  rewrite !ascii_compare_code, Hg1, Hg2, Hk1, Hk2.
  change (45 ?= 45) with Eq. cbv iota.
  rewrite (digit_compare a1 b1), (digit_compare a2 b2), (digit_compare a3 b3),
    (digit_compare a4 b4), (digit_compare a5 b5), (digit_compare a6 b6),
    (digit_compare a7 b7), (digit_compare a8 b8) by done.
  apply lex_digits; by apply digit_range.
Qed.

Lemma iso_date_ltb (s1 s2 : string) (n1 n2 : Z) :
  iso_date s1 = true -> iso_date s2 = true ->
  int_of_str (remove_dashes s1) = Some n1 ->
  int_of_str (remove_dashes s2) = Some n2 ->
  (String.ltb s1 s2 = true <-> (n1 < n2)%Z).
Proof.
  intros H1 H2 E1 E2. unfold String.ltb.
  rewrite (iso_date_compare s1 s2 n1 n2) by done.
  destruct (Z.compare_spec n1 n2); split; (done || lia).
Qed.

(** *** The order of the output *)

(** Two items of the output of [sort_items], with their keys. *)
Lemma sort_items_pair items out a b x y :
  sort_items items = Some out -> a < b ->
  out !! a = Some x -> out !! b = Some y ->
  exists kx ky, sort_key x = Some kx /\ sort_key y = Some ky /\
                key_ltb ky kx = false.
Proof.
  intros H Hab Ha Hb.
  destruct (sort_items_keyed _ _ H) as (ps & -> & _ & Hs & Hall & _).
  change (map snd ps) with (snd <$> ps) in Ha, Hb.
  rewrite list_lookup_fmap in Ha, Hb.
  destruct (ps !! a) as [[kx x']|] eqn:Ea; [|done].
  destruct (ps !! b) as [[ky y']|] eqn:Eb; [|done].
  simpl in Ha, Hb. injection Ha as ->. injection Hb as ->.
  exists kx, ky.
  rewrite Forall_forall in Hall.
  split; [apply (Hall (kx, x)); by eapply list_elem_of_lookup_2|].
  split; [apply (Hall (ky, y)); by eapply list_elem_of_lookup_2|].
  apply (StronglySorted_lookup_lt _ _ _ _ _ _ Hs Hab Ea Eb).
Qed.

Lemma sort_items_scores_descending items out :
  sort_items items = Some out -> scores_descending out.
Proof.
  intros H a b x y Hab Ha Hb.
  destruct (sort_items_pair _ _ _ _ _ _ H Hab Ha Hb) as (kx & ky & Hx & Hy & Hk).
  destruct kx as [[[sx dx] px] tx], ky as [[[sy dy] py] ty].
  apply sort_key_fields in Hx as (-> & _). apply sort_key_fields in Hy as (-> & _).
  destruct (Z_lt_ge_dec (- score y) (- score x)) as [Hlt|Hge]; [|lia].
  assert (Hn : key_ltb ((- score y)%Z, dy, py, ty) ((- score x)%Z, dx, px, tx) = true)
    by (apply key_ltb_spec; by left).
  congruence.
Qed.

(** X19: for two dates of the form YYYY-MM-DD, the order of the strings,
    by which [filter_by_date_range] compares, is the order of the numbers
    that [sort_items] reads from them, and equal numbers come from equal
    dates. *)
Theorem iso_dates_compare_as_numbers (s1 s2 : string) (n1 n2 : Z) :
  iso_date s1 = true -> iso_date s2 = true ->
  int_of_str (remove_dashes s1) = Some n1 ->
  int_of_str (remove_dashes s2) = Some n2 ->
  (String.ltb s1 s2 = true <-> (n1 < n2)%Z) /\
  (s1 = s2 <-> n1 = n2) /\
  (0 <= n1 <= 99999999)%Z.
Proof.
  intros H1 H2 E1 E2. split; [by apply iso_date_ltb|]. split.
  - pose proof (iso_date_compare s1 s2 n1 n2 H1 H2 E1 E2) as Hc. split.
    + intros <-. rewrite string_compare_refl in Hc. symmetry in Hc.
      by apply Z.compare_eq_iff in Hc.
    + intros <-. rewrite Z.compare_refl in Hc. by apply String.compare_eq_iff in Hc.
  - destruct (iso_date_parts _ H1)
      as (a1&a2&a3&a4&g1&a5&a6&g2&a7&a8&_&Hd&_&_&Hn).
    rewrite Hn in E1. injection E1 as <-.
    destruct Hd as (D1&D2&D3&D4&D5&D6&D7&D8).
    apply digit_range in D1, D2, D3, D4, D5, D6, D7, D8. lia.
Qed.

Lemma iso_date_nonempty s : iso_date s = true -> String.eqb s "" = false.
Proof. by destruct s. Qed.

(** X20: among the items of one score, [sort_items] puts the later date
    first: of two items with the same score and dates of the form
    YYYY-MM-DD, the one that comes first does not have the earlier date, and
    an item without a date comes before a dated item only when that date is
    0000-00-00.  The scores never increase along the output. *)
Theorem sort_items_newest_first (items out : list SaaSIdeaItem) :
  sort_items items = Some out ->
  scores_descending out /\
  forall a b x y dy, a < b -> out !! a = Some x -> out !! b = Some y ->
    score x = score y -> date y = Some dy -> iso_date dy = true ->
    (forall dx, date x = Some dx -> iso_date dx = true ->
                String.ltb dx dy = false) /\
    (date x = None -> dy = "0000-00-00").
Proof.
  intros H. split; [by eapply sort_items_scores_descending|].
  intros a b x y dy Hab Ha Hb Hsc Hdy Hiso.
  destruct (sort_items_pair _ _ _ _ _ _ H Hab Ha Hb) as (kx & ky & Hx & Hy & Hk).
  destruct (iso_date_parts _ Hiso) as (b1&b2&b3&b4&g1&b5&b6&g2&b7&b8&_&_&_&_&Hny).
  match type of Hny with _ = Some ?n => remember n as ny eqn:Eny end. clear Eny.
  pose proof (int_of_date_nonneg _ _ Hny) as Hpos.
  unfold sort_key in Hx, Hy. rewrite Hdy, (iso_date_nonempty _ Hiso), Hny in Hy.
  simpl in Hy. injection Hy as <-.
  split.
  - intros dx Hdx Hisox.
    destruct (iso_date_parts _ Hisox)
      as (a1&a2&a3&a4&h1&a5&a6&h2&a7&a8&_&_&_&_&Hnx).
    match type of Hnx with _ = Some ?n => remember n as nx eqn:Enx end. clear Enx.
    rewrite Hdx, (iso_date_nonempty _ Hisox), Hnx in Hx. simpl in Hx. injection Hx as <-.
    destruct (String.ltb dx dy) eqn:E; [|done].
    apply (iso_date_ltb dx dy _ _ Hisox Hiso Hnx Hny) in E.
    match type of Hk with key_ltb ?k1 ?k2 = false =>
      assert (Hlt : key_ltb k1 k2 = true) end; [|congruence].
    apply key_ltb_spec. right. split; [lia|]. left. lia.
  - intros Hnone. rewrite Hnone in Hx.
    assert (E0 : int_of_str (remove_dashes "0000-00-00") = Some 0%Z) by reflexivity.
    rewrite (String.eqb_refl "0000-00-00") in Hx || idtac.
    change (String.eqb "0000-00-00" "") with false in Hx || idtac.
    rewrite E0 in Hx. simpl in Hx. injection Hx as <-.
    destruct (Z.eq_dec ny 0%Z) as [Ez|Ez].
    + pose proof (iso_date_compare dy "0000-00-00" _ _ Hiso eq_refl Hny E0) as Hc.
      rewrite Ez in Hc. simpl in Hc. by apply String.compare_eq_iff in Hc.
    + match type of Hk with key_ltb ?k1 ?k2 = false =>
        assert (Hlt : key_ltb k1 k2 = true) end; [|congruence].
      apply key_ltb_spec. right. split; [lia|]. left. lia.
Qed.

(** *** At the sample inputs *)

Import Samples.

(** X19 at the last day of April and the first of May. *)
Lemma iso_dates_compare_as_numbers_witness :
  (String.ltb "2024-04-30" "2024-05-01" = true <-> (20240430 < 20240501)%Z) /\
  ("2024-04-30" = "2024-05-01" <-> 20240430%Z = 20240501%Z) /\
  (0 <= 20240430 <= 99999999)%Z.
Proof.
  exact (iso_dates_compare_as_numbers "2024-04-30" "2024-05-01" 20240430 20240501
           eq_refl eq_refl eq_refl eq_refl).
Defined.

Lemma two_dated_sorted :
  sort_items two_dated
  = Some [dated "b" "alpha" (Some "2024-05-01") 5;
          dated "a" "beta" (Some "2024-04-30") 5].
Proof. vm_compute. reflexivity. Qed.

(** X20 at two items of one score: the item of the first of May comes
    first. *)
Lemma sort_items_newest_first_witness :
  String.ltb "2024-05-01" "2024-04-30" = false.
Proof.
  destruct (sort_items_newest_first two_dated _ two_dated_sorted) as [_ H].
  destruct (H 0 1 (dated "b" "alpha" (Some "2024-05-01") 5)
              (dated "a" "beta" (Some "2024-04-30") 5) "2024-04-30"
              ltac:(lia) eq_refl eq_refl eq_refl eq_refl eq_refl) as [Hd _].
  exact (Hd "2024-05-01" eq_refl eq_refl).
Defined.

End SortLaws.

(* ===================================================================== *)
(** ** The date filter *)
(* ===================================================================== *)

Module WindowLaws.
Import Py Schema Normalize Notions SortProps.

Lemma filter_by_date_range_filter items from_date to_date require_date :
  filter_by_date_range items from_date to_date require_date
  = List.filter (in_window from_date to_date require_date) items.
Proof.
  induction items as [|item items IH]; [done|].
  cbn [filter_by_date_range List.filter]. cbv zeta. rewrite IH. unfold in_window.
  destruct (date item) as [d|]; [|by destruct require_date].
  destruct (String.ltb d from_date); [done|]. by destruct (String.ltb to_date d).
Qed.

Lemma list_filter_sublist {A} (f : A -> bool) (l : list A) :
  List.filter f l `sublist_of` l.
Proof.
  induction l as [|x l IH]; simpl; [done|].
  destruct (f x); [by apply sublist_skip | by apply sublist_cons].
Qed.

Lemma list_filter_idemp {A} (f : A -> bool) (l : list A) :
  List.filter f (List.filter f l) = List.filter f l.
Proof.
  induction l as [|x l IH]; simpl; [done|].
  destruct (f x) eqn:E; [|done]. simpl. by rewrite E, IH.
Qed.

(** X21: [filter_by_date_range] keeps the items in the order they had; an
    item without a date is kept unless a date is required, and an item with
    a date is kept exactly when its date is not below [from_date] and not
    above [to_date] in the order of the strings. *)
Theorem filter_by_date_range_window (items : list SaaSIdeaItem)
    (from_date to_date : string) (require_date : bool) :
  filter_by_date_range items from_date to_date require_date `sublist_of` items /\
  forall item,
    In item (filter_by_date_range items from_date to_date require_date) <->
    In item items /\
    match date item with
    | None => require_date = false
    | Some d => String.ltb d from_date = false /\ String.ltb to_date d = false
    end.
Proof.
  rewrite filter_by_date_range_filter. split; [apply list_filter_sublist|].
  intros item. rewrite filter_In. unfold in_window.
  destruct (date item) as [d|].
  - rewrite andb_true_iff, !negb_true_iff. tauto.
  - rewrite negb_true_iff. tauto.
Qed.

(** X22: filtering twice is filtering once; and with [from_date] above
    [to_date] no dated item is kept, so nothing at all when a date is
    required. *)
Theorem filter_by_date_range_empty_window (items : list SaaSIdeaItem)
    (from_date to_date : string) (require_date : bool) :
  filter_by_date_range
    (filter_by_date_range items from_date to_date require_date)
    from_date to_date require_date
  = filter_by_date_range items from_date to_date require_date /\
  (String.ltb to_date from_date = true ->
   (forall item,
      In item (filter_by_date_range items from_date to_date require_date) ->
      date item = None) /\
   filter_by_date_range items from_date to_date true = []).
Proof.
  split; [rewrite !filter_by_date_range_filter; apply list_filter_idemp|].
  intros Hinv.
  assert (Hno : forall r item,
            In item (filter_by_date_range items from_date to_date r) ->
            date item = None /\ r = false).
  { intros r item. rewrite filter_by_date_range_filter, filter_In. unfold in_window.
    intros [_ Hw]. destruct (date item) as [d|]; [|by apply negb_true_iff in Hw].
    apply andb_true_iff in Hw as [H1 H2]. apply negb_true_iff in H1, H2.
    destruct (String.ltb d to_date) eqn:E.
    - pose proof (string_ltb_trans _ _ _ E Hinv). congruence.
    - pose proof (string_ltb_total _ _ E H2) as ->. congruence. }
  split; [intros item Hin; by apply (Hno require_date)|].
  destruct (filter_by_date_range items from_date to_date true) as [|x l] eqn:E;
    [done|].
  destruct (Hno true x) as [_ ?]; [rewrite E; by left | done].
Qed.

(** X22 at a window that ends before it starts. *)
Lemma filter_by_date_range_empty_window_witness :
  filter_by_date_range Samples.two_dated "2024-06-01" "2024-01-01" true = [].
Proof.
  destruct (filter_by_date_range_empty_window Samples.two_dated
              "2024-06-01" "2024-01-01" true) as [_ H].
  exact (proj2 (H eq_refl)).
Defined.

End WindowLaws.

(* ===================================================================== *)
(** ** The cleaning of the responses *)
(* ===================================================================== *)

Module ResponseLaws.
Import Py Schema Score Responses FloatOrder.

Lemma valid_signal_types_elem (s : string) :
  s ∈ valid_signal_types <->
  s = "problem" \/ s = "wish" \/ s = "building" \/ s = "feature_gap" \/ s = "workflow".
Proof.
  unfold valid_signal_types. rewrite !elem_of_union, !elem_of_singleton. tauto.
Qed.

(** X23: the signal type that the parsers keep is one of the five valid
    types, "problem" when the item has none; the valid types are exactly the
    keys of [SIGNAL_TYPE_SCORES], so [_compute_idea_quality] finds a base
    score for every parsed item. *)
Theorem clean_signal_type_scored (raw : option string) :
  clean_signal_type raw ∈ valid_signal_types /\
  is_Some (SIGNAL_TYPE_SCORES !! clean_signal_type raw) /\
  (forall s, is_Some (SIGNAL_TYPE_SCORES !! s) <-> s ∈ valid_signal_types) /\
  clean_signal_type None = "problem".
Proof.
  assert (Hdom : forall s, is_Some (SIGNAL_TYPE_SCORES !! s) <-> s ∈ valid_signal_types).
  { intros s. rewrite valid_signal_types_elem. split.
    - intros [v Hv]. apply ScoreLaws.signal_scores_lookup in Hv. tauto.
    - intros [->|[->|[->|[->| ->]]]]; by eexists. }
  assert (Hin : clean_signal_type raw ∈ valid_signal_types).
  { unfold clean_signal_type. cbv zeta. case_bool_decide as H; [done|].
    apply valid_signal_types_elem. by left. }
  split; [done|]. split; [by apply Hdom|]. split; [done|]. reflexivity.
Qed.

(** X24: the relevance that the parsers keep is between 0 and 1 for every
    float, a nan and the infinities included, and it is the relevance of the
    item when this is above 0 and below 1. *)
Theorem clean_relevance_unit_interval (x : float) :
  PrimFloat.leb 0 (clean_relevance x) = true /\
  PrimFloat.leb (clean_relevance x) 1 = true /\
  (PrimFloat.ltb 0 x = true -> PrimFloat.ltb x 1 = true -> clean_relevance x = x).
Proof.
  unfold clean_relevance. cbv zeta.
  destruct (PrimFloat.ltb 0 x) eqn:E0.
  - destruct (PrimFloat.ltb x 1) eqn:E1.
    + split; [by apply ltb_leb|]. split; [by apply ltb_leb | done].
    + split; [reflexivity|]. split; [reflexivity | done].
  - split; [reflexivity|]. split; [reflexivity | done].
Qed.

(** *** The engagement of an X item *)

Lemma x_count_falsy d key :
  (forall v, dict_get key d = Some v -> truthy v = false) ->
  x_count d key = Some None.
Proof.
  intros H. unfold x_count. destruct (dict_get key d) as [v|]; [|done].
  by rewrite (H v eq_refl).
Qed.

Section Collaborators.
Variable log1p : Z -> float.

(** X25: an X item whose likes and reposts are absent, null or zero is an
    item of unknown engagement: [parse_x_response] reads a count that is
    false as [None], so both primary fields are [None] and the raw
    engagement is [None], whatever the replies and quotes are.  A count that
    is an [int] other than zero is kept. *)
Theorem x_zero_counts_unknown (d : list (string * json)) (e : Engagement)
    (key : string) (n : Z) :
  ((forall v, dict_get "likes" d = Some v -> truthy v = false) ->
   (forall v, dict_get "reposts" d = Some v -> truthy v = false) ->
   x_engagement (Some (JDict d)) = Some (Some e) ->
   likes e = None /\ reposts e = None /\
   compute_x_engagement_raw log1p (Some e) = None) /\
  truthy (JInt 0) = false /\ truthy JNull = false /\
  (dict_get key d = Some (JInt n) -> n <> 0%Z -> x_count d key = Some (Some n)).
Proof.
  split; [|split; [done|split; [done|]]].
  - intros Hl Hr. unfold x_engagement.
    rewrite (x_count_falsy d "likes" Hl), (x_count_falsy d "reposts" Hr).
    cbn [mbind option_bind].
    destruct (x_count d "replies") as [rp|]; [|done].
    destruct (x_count d "quotes") as [q|]; [|done].
    cbn [mbind option_bind]. by intros [= <-].
  - intros Hk Hn. unfold x_count. rewrite Hk. simpl.
    by destruct (Z.eqb_spec n 0).
Qed.

End Collaborators.

(** X25 at an item with no likes, no reposts and four replies. *)
Lemma x_zero_counts_unknown_witness :
  compute_x_engagement_raw Samples.log1p_at_0
    (Some (mkEngagement None None None None None (Some 4%Z) None)) = None.
Proof.
  destruct (x_zero_counts_unknown Samples.log1p_at_0
              [("likes", JInt 0); ("reposts", JInt 0); ("replies", JInt 4)]
              (mkEngagement None None None None None (Some 4%Z) None)
              "replies" 4) as [H _].
  apply H.
  - intros v [= <-]. reflexivity.
  - intros v [= <-]. reflexivity.
  - reflexivity.
Defined.

(** X24 at the relevance 0.5. *)
Lemma clean_relevance_unit_interval_witness : clean_relevance 0.5 = 0.5%float.
Proof.
  destruct (clean_relevance_unit_interval 0.5) as (_ & _ & H).
  exact (H eq_refl eq_refl).
Defined.

End ResponseLaws.

(* ===================================================================== *)
(** ** The processing phase *)
(* ===================================================================== *)

Module PipelineLaws.
Import Py Schema Dedupe IdeaCluster Score Normalize SaasRadar Notions.
Import ScoreProps DedupeProps SortProps ClusterProps ClusterLaws ScoreLaws SortLaws WindowLaws.

(** Two items of the output of [dedupe_saas] are two items of its input, in
    the same order. *)
Lemma dedupe_saas_pair items threshold a b x y :
  a < b -> dedupe_saas items threshold !! a = Some x ->
  dedupe_saas items threshold !! b = Some y ->
  exists a' b', a' < b' /\ items !! a' = Some x /\ items !! b' = Some y.
Proof.
  intros Hab Ha Hb. destruct (Nat.leb_spec (length items) 1) as [Hn|Hn].
  - rewrite dedupe_saas_small in Ha, Hb by done. by exists a, b.
  - rewrite dedupe_saas_large in Ha, Hb by done.
    change (map snd ?l) with (snd <$> l) in Ha, Hb.
    rewrite list_lookup_fmap in Ha, Hb. unfold survivors in Ha, Hb.
    destruct (filter _ (enumerate items) !! a) as [[i x']|] eqn:Ea; [|done].
    destruct (filter _ (enumerate items) !! b) as [[j y']|] eqn:Eb; [|done].
    simpl in Ha, Hb. injection Ha as ->. injection Hb as ->.
    destruct (filter_lookup_pair _ _ _ _ _ _ Hab Ea Eb)
      as (a' & b' & Hab' & Ha' & Hb' & _).
    apply enumerate_lookup in Ha' as [_ Ha'].
    apply enumerate_lookup in Hb' as [_ Hb'].
    by exists a', b'.
Qed.

Lemma dedupe_saas_sublist items threshold :
  dedupe_saas items threshold `sublist_of` items.
Proof.
  destruct (Nat.leb_spec (length items) 1) as [Hn|Hn].
  - by rewrite dedupe_saas_small.
  - rewrite dedupe_saas_large by done.
    pose proof (sublist_filter
                  (fun p : nat * SaaSIdeaItem => p.1 ∉ removal_set items threshold)
                  (enumerate items)) as Hf.
    apply (fmap_sublist snd) in Hf.
    change (snd <$> enumerate items) with (map snd (enumerate items)) in Hf.
    by rewrite map_snd_enumerate in Hf.
Qed.

Lemma dedupe_saas_head items threshold x :
  scores_descending items -> items !! 0 = Some x ->
  dedupe_saas items threshold !! 0 = Some x.
Proof.
  intros Hd Hx. destruct (Nat.leb_spec (length items) 1) as [Hn|Hn].
  - by rewrite dedupe_saas_small.
  - rewrite dedupe_saas_large by done.
    change (map snd ?l) with (snd <$> l). rewrite list_lookup_fmap.
    unfold survivors, enumerate.
    destruct items as [|x0 items0]; [done|]. simpl in Hx. injection Hx as ->.
    simpl. rewrite filter_cons_True; [done|]. simpl.
    rewrite removal_set_spec. intros (k & x' & y' & Hx' & Hy' & _ & [[Hlt _]|[Hlt Hsc]]);
      [lia|].
    simpl in Hx'. injection Hx' as <-.
    pose proof (Hd 0 k x y' Hlt eq_refl Hy'). lia.
Qed.

Section Collaborators.
Variable log1p : Z -> float.
Variable recency_score : option string -> Z -> Z.

(** X26: the report of [process] has no more items than the input, and
    none only when no item passes the date filter; the scores never increase
    along it and no two of its titles are similar at 0.7; every item of it is
    an item of the input that passed the date filter, with a cluster id, a
    market signal of 25, 50, 75 or 100, the five subscores and a score from
    0 to 100, and nothing else changed. *)
Theorem process_report (all_items out : list SaaSIdeaItem)
    (from_date to_date : string) :
  process log1p recency_score all_items from_date to_date = Some out ->
  length out <= length all_items /\
  (out = [] <->
   forall o, In o all_items -> in_window from_date to_date false o = false) /\
  scores_descending out /\
  (forall a b, a <> b -> ~ similar_titles out 0.7 a b) /\
  forall x, In x out ->
    (0 <= score x <= 100)%Z /\
    (market_signal x = 25 \/ market_signal x = 50 \/
     market_signal x = 75 \/ market_signal x = 100)%Z /\
    market_signal_sub (subs x) = market_signal x /\
    exists o, In o all_items /\
      in_window from_date to_date false o = true /\
      x = set_scores (subs x) (score x)
            (set_cluster (cluster_id x) (market_signal x) o).
Proof.
  unfold process. cbv zeta.
  set (filtered := filter_by_date_range all_items from_date to_date false).
  destruct (cluster_ideas filtered 0.3) as [clustered|] eqn:Ec; [|done].
  cbn [mbind option_bind].
  destruct (score_saas_items log1p recency_score clustered) as [scored|] eqn:Es;
    [|done].
  cbn [mbind option_bind].
  destruct (sort_items scored) as [sorted|] eqn:Eo; [|done].
  cbn [mbind option_bind]. intros [= <-].
  destruct (cluster_ideas_result _ _ _ Ec) as (f & Hlenc & Hconn & Hitem).
  pose proof (score_saas_items_length _ _ _ _ Es) as Hlens.
  destruct (sort_items_keyed _ _ Eo) as (_ & _ & Hperm & _).
  pose proof (Permutation_length Hperm) as Hleno.
  pose proof (sort_items_scores_descending _ _ Eo) as Hdesc.
  pose proof (dedupe_saas_sublist sorted 0.7) as Hsub.
  assert (Hfilt : filtered = List.filter (in_window from_date to_date false) all_items)
    by apply filter_by_date_range_filter.
  assert (Hlenf : length filtered <= length all_items).
  { rewrite Hfilt. apply sublist_length, list_filter_sublist. }
  split; [apply sublist_length in Hsub; lia|]. split.
  { split.
    - intros E o Ho. destruct (in_window from_date to_date false o) eqn:Ew; [|done].
      assert (Hin : In o filtered) by (rewrite Hfilt; apply filter_In; done).
      destruct sorted as [|x0 sorted0].
      + destruct filtered; [done | simpl in *; lia].
      + pose proof (dedupe_saas_head (x0 :: sorted0) 0.7 x0 Hdesc eq_refl) as Hh.
        by rewrite E in Hh.
    - intros Hnone.
      assert (filtered = []) as Ef.
      { rewrite Hfilt. destruct (List.filter _ all_items) as [|o l] eqn:E; [done|].
        assert (Hin : In o (List.filter (in_window from_date to_date false) all_items))
          by (rewrite E; by left).
        apply filter_In in Hin as [Hin Hw]. rewrite (Hnone o Hin) in Hw. done. }
      rewrite Ef in Hlenc. simpl in Hlenc.
      destruct sorted as [|x0 sorted0]; [done | simpl in *; lia]. }
  split.
  { intros a b x y Hab Ha Hb.
    destruct (dedupe_saas_pair _ _ _ _ _ _ Hab Ha Hb) as (a' & b' & Hab' & Ha' & Hb').
    by apply (Hdesc a' b'). }
  split; [apply dedupe_saas_not_similar|].
  intros x Hx.
  assert (Hxs : x ∈ scored).
  { rewrite Hperm. apply (elem_of_sublist _ _ _ (proj2 (list_elem_of_In _ _) Hx) Hsub). }
  apply list_elem_of_lookup in Hxs as [i Hi].
  destruct (score_saas_items_at _ _ _ _ _ _ Es Hi) as (c & norm & Hc & _ & Hsc).
  destruct (score_item_spec _ _ _ _ _ Hsc) as (eng & n & _ & Hsubs & _ & Hscore & Hit).
  destruct (Hitem i c Hc) as (o & k & Ho & _ & Hcl).
  assert (Hmem : 1 <= length (filter (fun j => f j = f i) (seq 0 (length filtered)))).
  { assert (Hin : i ∈ filter (fun j => f j = f i) (seq 0 (length filtered))).
    { apply list_elem_of_filter. split; [done|]. apply elem_of_seq.
      apply lookup_lt_Some in Ho. lia. }
    destruct (filter _ _); [by apply not_elem_of_nil in Hin | simpl; lia]. }
  assert (Hms : market_signal x = market_signal c) by (by rewrite Hit).
  assert (Hci : cluster_id x = cluster_id c) by (by rewrite Hit).
  split; [lia|]. split; [rewrite Hms, Hcl; simpl; lia|].
  split; [by rewrite Hsubs|].
  exists o.
  assert (Hino : In o filtered).
  { apply list_elem_of_In. by eapply list_elem_of_lookup_2. }
  rewrite Hfilt in Hino. apply filter_In in Hino as [Hino Hw].
  split; [done|]. split; [done|].
  rewrite Hit at 1. f_equal. rewrite Hms, Hci, Hcl. reflexivity.
Qed.

End Collaborators.

(** *** At the sample inputs *)

Import Samples.

Lemma mixed_batch_report :
  process log1p_at_0 recency_20 mixed_batch "2024-01-01" "2024-12-31"
  = Some (default [] (process log1p_at_0 recency_20 mixed_batch
                        "2024-01-01" "2024-12-31")).
Proof. vm_compute. reflexivity. Qed.

(** X26 at two threads and an item without engagement data, all of the
    first of May 2024. *)
Lemma process_report_witness :
  length (default [] (process log1p_at_0 recency_20 mixed_batch
                        "2024-01-01" "2024-12-31"))
  <= length mixed_batch /\
  scores_descending (default [] (process log1p_at_0 recency_20 mixed_batch
                                   "2024-01-01" "2024-12-31")).
Proof.
  destruct (process_report log1p_at_0 recency_20 mixed_batch _
              "2024-01-01" "2024-12-31" mixed_batch_report) as (H1 & _ & H2 & _).
  split; [exact H1 | exact H2].
Defined.

End PipelineLaws.
